(** * simple_unix_shell: tokenizer, pipeline engine and profiler

    A shallow embedding of [simple_unix_shell.c].  C strings are [string]s,
    the shell process is a state-passing program over an explicit model of
    the kernel objects it touches (descriptors, children, files), and every
    system call it makes is recorded, in order, in a trace. *)

From Stdlib Require Import Ascii String ZArith Lia.
From stdpp Require Import base option list strings gmap pretty.

Open Scope Z_scope.

(** ** Tokenizer *)

Module Tokenizer.

(** [#define MAX_TOKENS 512] and [#define MAX_COMMANDS 64]. *)
Definition MAX_TOKENS : nat := 512.
Definition MAX_COMMANDS : nat := 64.

(** The three characters [trim] compares against: [' '], ['\t'], ['\n']. *)
Definition is_blank (c : ascii) : bool :=
  (Ascii.eqb c " " || Ascii.eqb c "009" || Ascii.eqb c "010")%bool.

Definition is_bar (c : ascii) : bool := Ascii.eqb c "|".

(** First loop of [trim]: advance [s] while it points at a blank. *)
Fixpoint skip_blank (s : string) : string :=
  match s with
  | String c r => if is_blank c then skip_blank r else s
  | EmptyString => EmptyString
  end.

(** What is left of a string once every trailing blank has been overwritten
    by a terminator. *)
Fixpoint chop_blank (s : string) : string :=
  match s with
  | EmptyString => EmptyString
  | String c r =>
      match chop_blank r with
      | EmptyString => if is_blank c then EmptyString else String c EmptyString
      | r' => String c r'
      end
  end.

(** [trim]: the second loop runs [end] from the last character down while
    [end > s], so the character at [s] itself is never overwritten. *)
Definition trim (s : string) : string :=
  match skip_blank s with
  | EmptyString => EmptyString
  | String c r => String c (chop_blank r)
  end.

(** [s + strspn(s, delim)]. *)
Fixpoint skip_delim (delim : ascii -> bool) (s : string) : string :=
  match s with
  | String c r => if delim c then skip_delim delim r else s
  | EmptyString => EmptyString
  end.

(** The token that starts at [s] (up to [strcspn(s, delim)]) and the save
    pointer: one past the delimiter that ended the token, or the end of the
    string. *)
Fixpoint cut_token (delim : ascii -> bool) (s : string) : string * string :=
  match s with
  | EmptyString => (EmptyString, EmptyString)
  | String c r =>
      if delim c then (EmptyString, r)
      else let '(tok, save) := cut_token delim r in (String c tok, save)
  end.

(** [strtok_r]: [None] is the NULL return; otherwise the token and the new
    save pointer.  A call with a NULL first argument is a call on the save
    pointer of the previous one. *)
Definition strtok_r (delim : ascii -> bool) (s : string) : option (string * string) :=
  match skip_delim delim s with
  | EmptyString => None
  | s' => Some (cut_token delim s')
  end.

(** The loop of [split_pipeline]; [room] is [MAX_COMMANDS - n]. *)
Fixpoint split_loop (room : nat) (tok : option (string * string)) : list string :=
  match room, tok with
  | S room', Some (t, save) => trim t :: split_loop room' (strtok_r is_bar save)
  | _, _ => []
  end.

(** [split_pipeline]: the filled prefix of [commands]; the returned [n] is its
    length. *)
Definition split_pipeline (line : string) : list string :=
  split_loop MAX_COMMANDS (strtok_r is_bar line).

(** The loop of [parse_args]; [room] is [MAX_TOKENS - i]. *)
Fixpoint args_loop (room : nat) (tok : option (string * string)) : list string :=
  match room, tok with
  | S room', Some (t, save) => t :: args_loop room' (strtok_r is_blank save)
  | _, _ => []
  end.

(** [parse_args]: the entries of [argv] before the terminating NULL. *)
Definition parse_args (cmd : string) : list string :=
  args_loop MAX_TOKENS (strtok_r is_blank cmd).

(** *** The splitting the specification describes *)

(** Every piece between two delimiters, the empty ones included: a string
    with [k] delimiters has [k + 1] pieces. *)
Fixpoint pieces (delim : ascii -> bool) (s : string) : list string :=
  match s with
  | EmptyString => [EmptyString]
  | String c r =>
      if delim c then EmptyString :: pieces delim r
      else match pieces delim r with
           | p :: ps => String c p :: ps
           | [] => [String c EmptyString]
           end
  end.

(** "Splits on a single stage-delimiter character, trims each resulting
    stage, drops no empty stages". *)
Definition stages_keeping_empty (line : string) : list string :=
  trim <$> pieces is_bar line.

Definition nonempty (s : string) : bool :=
  match s with EmptyString => false | _ => true end.

(** The pieces that are not of length zero. *)
Definition tokens (delim : ascii -> bool) (s : string) : list string :=
  filter (fun p => nonempty p = true) (pieces delim s).

Definition all_blank (s : string) : bool :=
  forallb is_blank (list_ascii_of_string s).

End Tokenizer.

(** ** The C library entry points the shell relies on *)

Module Libc.

Definition STDIN_FILENO : Z := 0.
Definition STDOUT_FILENO : Z := 1.
Definition STDERR_FILENO : Z := 2.

Definition SIGINT : Z := 2.
Definition SIGKILL : Z := 9.
Definition SIGALRM : Z := 14.

(** The status word of [<sys/wait.h>]: exit code in bits 8 to 15, terminating
    signal in bits 0 to 6. *)
Definition W_EXITCODE (ret sig : Z) : Z := Z.lor (Z.shiftl ret 8) sig.
Definition WTERMSIG (status : Z) : Z := Z.land status 127.
Definition WIFEXITED (status : Z) : bool := WTERMSIG status =? 0.
Definition WEXITSTATUS (status : Z) : Z := Z.shiftr (Z.land status 65280) 8.

(** The word a parent reads for a child that called [exit (code)]. *)
Definition exited (code : Z) : Z := W_EXITCODE (Z.land code 255) 0.
(** The word a parent reads for a child a signal terminated. *)
Definition signaled (sig : Z) : Z := W_EXITCODE 0 sig.

(** [atoi] is [(int) strtol (s, NULL, 10)]: blanks, an optional sign, then
    decimal digits; the value saturates at the range of [long] and the cast
    keeps its low 32 bits. *)
Definition isspace (c : ascii) : bool :=
  let n := nat_of_ascii c in
  (Nat.eqb n 32 || (Nat.leb 9 n && Nat.leb n 13))%bool.

Definition digit_of (c : ascii) : option Z :=
  let n := Z.of_nat (nat_of_ascii c) in
  if ((48 <=? n) && (n <=? 57))%bool then Some (n - 48) else None.

Fixpoint skip_space (s : string) : string :=
  match s with
  | String c r => if isspace c then skip_space r else s
  | EmptyString => EmptyString
  end.

Fixpoint digits (acc : Z) (s : string) : Z :=
  match s with
  | String c r =>
      match digit_of c with
      | Some d => digits (acc * 10 + d) r
      | None => acc
      end
  | EmptyString => acc
  end.

Definition LONG_MAX : Z := 2 ^ 63 - 1.
Definition LONG_MIN : Z := - 2 ^ 63.

Definition strip_sign (s : string) : bool * string :=
  match s with
  | String c r =>
      if Ascii.eqb c "-" then (true, r)
      else if Ascii.eqb c "+" then (false, r)
      else (false, s)
  | EmptyString => (false, s)
  end.

Definition strtol10 (s : string) : Z :=
  let '(neg, body) := strip_sign (skip_space s) in
  let v := digits 0 body in
  Z.max LONG_MIN (Z.min LONG_MAX (if neg then - v else v)).

Definition to_int (z : Z) : Z := (z + 2 ^ 31) mod 2 ^ 32 - 2 ^ 31.

Definition atoi (s : string) : Z := to_int (strtol10 s).

(** The first [n] characters of a string, and the rest. *)
Fixpoint str_take (n : nat) (s : string) : string :=
  match n, s with
  | S n', String c r => String c (str_take n' r)
  | _, _ => EmptyString
  end.
Fixpoint str_drop (n : nat) (s : string) : string :=
  match n, s with
  | S n', String _ r => str_drop n' r
  | _, _ => s
  end.

(** A string [strtol] finds no number in: after the blanks and the sign the
    next character is not a digit. *)
Definition no_number (s : string) : bool :=
  match snd (strip_sign (skip_space s)) with
  | String c _ => match digit_of c with Some _ => false | None => true end
  | EmptyString => true
  end.

(** [snprintf (buf, size, ...)] for a format that expands to [full]: the
    bytes the array holds afterwards (the text cut to [size - 1] characters,
    then the terminator) and the returned count, which is the length of the
    whole expansion. *)
Definition snprintf (size : nat) (full : string) : string * Z :=
  (str_take (size - 1) full +:+ String "000" EmptyString,
   Z.of_nat (String.length full)).

End Libc.

(** ** The kernel objects the shell touches *)

Module Kernel.
Import Libc.

(** What a forked child does before it ends, in program order. *)
Inductive child_op :=
| CDup2 (oldfd newfd : Z)
| CClose (fd : Z)
| CAlarm (secs : Z)
| CPrintErr (msg : string).

(** How the child's branch ends.  There is no constructor for "falls
    through to the code after the branch". *)
Inductive child_end :=
| CExit (code : Z)
| CExec (argv : list string)
| CUndefined.

Record child := Child { c_ops : list child_op; c_end : child_end }.

(** What a program image does once [execvp] has succeeded: whether it ends
    by itself and after how many whole seconds, the status word its parent
    then reads, and the writes it makes, in order, as (descriptor, bytes). *)
Record fate := Fate {
  f_lifetime : option nat;
  f_status : Z;
  f_writes : list (Z * string) }.

Record rusage := Rusage {
  ru_utime : Z * Z;
  ru_stime : Z * Z;
  ru_maxrss : Z }.

Inductive wait_result :=
| WDone (status : Z)
| WRunning
| WFailed.

(** The system calls of the shell process, as they return. *)
Inductive event :=
| EvPipe (res : option (Z * Z))
| EvFork (res : option Z)
| EvClose (fd : Z)
| EvForeground (pid : Z)
| EvWaitpid (pid : Z) (nohang : bool) (res : wait_result)
| EvKill (pid sig : Z)
| EvSleep (secs : nat)
| EvPerror (prefix : string)
| EvStderr (msg : string)
| EvWrite (fd : Z) (data : string)
| EvMkstemp (res : option (Z * string))
| EvOpenAppend (path : string) (res : option Z)
| EvLseek (fd : Z)
| EvRead (fd : Z) (data : string)
| EvUnlink (path : string)
| EvClock
| EvRusage
| EvChdir (path : string).

(** Everything the shell cannot decide.  [e_fails k] tells whether the call
    that becomes entry [k] of the trace fails, for the calls that can
    ([pipe], [fork], [waitpid], [mkstemp], [open]).  [e_delay] is the number
    of whole seconds a child that executes no program takes to reach its
    [exit].  [e_instant pid] places the end of the child [pid] inside the
    second it falls in: the calls that become the entries of the trace from
    that index on see the child ended, the earlier ones see it running. *)
Record env := Env {
  e_fails : nat -> bool;
  e_execvp : list string -> option string;
  e_image : list child_op -> list string -> fate;
  e_tmpname : string;
  e_clock : nat -> Z * Z;
  e_rusage : nat -> rusage;
  e_fmt6 : Z -> Z -> Z -> string;
  e_delay : list child_op -> nat;
  e_instant : Z -> nat }.

(** An open regular file of the shell. *)
Record ofile := OFile { of_path : string; of_pos : nat; of_append : bool }.

(** A child in the process table: its program, the second it was forked at,
    the regular files its descriptors name once its [c_ops] have run, and
    whether it was sent SIGKILL while running and whether it was reaped. *)
Record proc := Proc {
  p_child : child;
  p_born : nat;
  p_files : gmap Z string;
  p_killed : bool;
  p_reaped : bool }.

Record world := World {
  w_fds : list Z;
  w_files : gmap Z ofile;
  w_fs : gmap string string;
  w_procs : gmap Z proc;
  w_next_pid : Z;
  w_clock : nat;
  current_child : Z;
  w_trace : list event }.

Definition set_fds (f : list Z -> list Z) (w : world) : world :=
  World (f (w_fds w)) (w_files w) (w_fs w) (w_procs w) (w_next_pid w)
        (w_clock w) (current_child w) (w_trace w).
Definition set_files (f : gmap Z ofile -> gmap Z ofile) (w : world) : world :=
  World (w_fds w) (f (w_files w)) (w_fs w) (w_procs w) (w_next_pid w)
        (w_clock w) (current_child w) (w_trace w).
Definition set_fs (f : gmap string string -> gmap string string) (w : world) : world :=
  World (w_fds w) (w_files w) (f (w_fs w)) (w_procs w) (w_next_pid w)
        (w_clock w) (current_child w) (w_trace w).
Definition set_procs (f : gmap Z proc -> gmap Z proc) (w : world) : world :=
  World (w_fds w) (w_files w) (w_fs w) (f (w_procs w)) (w_next_pid w)
        (w_clock w) (current_child w) (w_trace w).
Definition set_next_pid (p : Z) (w : world) : world :=
  World (w_fds w) (w_files w) (w_fs w) (w_procs w) p
        (w_clock w) (current_child w) (w_trace w).
Definition set_clock (t : nat) (w : world) : world :=
  World (w_fds w) (w_files w) (w_fs w) (w_procs w) (w_next_pid w)
        t (current_child w) (w_trace w).
Definition set_child (p : Z) (w : world) : world :=
  World (w_fds w) (w_files w) (w_fs w) (w_procs w) (w_next_pid w)
        (w_clock w) p (w_trace w).
Definition log (ev : event) (w : world) : world :=
  World (w_fds w) (w_files w) (w_fs w) (w_procs w) (w_next_pid w)
        (w_clock w) (current_child w) (w_trace w ++ [ev]).

(** How a call of the shell ends: it returns, it blocks for ever inside a
    system call, the process exits, or the behaviour is undefined. *)
Inductive outcome (A : Type) :=
| Ret (a : A)
| Hang
| Exit (code : Z)
| Undef.
Arguments Ret {A} a.
Arguments Hang {A}.
Arguments Exit {A} code.
Arguments Undef {A}.

Definition M (A : Type) : Type := world -> outcome A * world.

#[global] Instance M_ret : MRet M := fun A a w => (Ret a, w).
#[global] Instance M_bind : MBind M := fun A B k m w =>
  match m w with
  | (Ret a, w') => k a w'
  | (Hang, w') => (Hang, w')
  | (Exit c, w') => (Exit c, w')
  | (Undef, w') => (Undef, w')
  end.

Definition hang {A} : M A := fun w => (Hang, w).
Definition exit {A} (code : Z) : M A := fun w => (Exit code, w).
Definition undef {A} : M A := fun w => (Undef, w).
Definition emit (ev : event) : M unit := fun w => (Ret tt, log ev w).

(** The lowest descriptor number, from [n] up, that is not in [used]. *)
Fixpoint lowest_free_from (fuel : nat) (n : Z) (used : list Z) : Z :=
  match fuel with
  | O => n
  | S fuel' => if bool_decide (n ∈ used) then lowest_free_from fuel' (n + 1) used else n
  end.
Definition lowest_free (used : list Z) : Z :=
  lowest_free_from (length used) 0 used.

(** The regular files a child's descriptors name after its operations: it
    starts from the table it inherits. *)
Definition child_op_files (files : gmap Z string) (op : child_op) : gmap Z string :=
  match op with
  | CDup2 oldfd newfd =>
      match files !! oldfd with
      | Some path => <[newfd := path]> files
      | None => delete newfd files
      end
  | CClose fd => delete fd files
  | CAlarm _ => files
  | CPrintErr _ => files
  end.
Definition child_files (inherited : gmap Z ofile) (ops : list child_op) : gmap Z string :=
  foldl child_op_files (of_path <$> inherited) ops.

(** A child that was sent SIGKILL while it ran. *)
Definition killed (p : proc) : proc :=
  Proc (p_child p) (p_born p) (p_files p) true (p_reaped p).

Section WithEnv.
Variable e : env.

(** The bytes a child writes, in order: its own diagnostics, then those of
    the image it executes. *)
Definition child_writes (c : child) : list (Z * string) :=
  omap (fun op => match op with
                  | CPrintErr msg => Some (STDERR_FILENO, msg)
                  | _ => None
                  end) (c_ops c)
  ++ match c_end c with
     | CExec argv => f_writes (e_image e (c_ops c) argv)
     | _ => []
     end.

(** For how many whole seconds the child runs, if it ends by itself. *)
Definition child_lifetime (c : child) : option nat :=
  match c_end c with
  | CExec argv => f_lifetime (e_image e (c_ops c) argv)
  | _ => Some (e_delay e (c_ops c))
  end.

(** The status word of a child that ended by itself. *)
Definition child_status (c : child) : option Z :=
  match c_end c with
  | CExit code => Some (exited code)
  | CExec argv => Some (f_status (e_image e (c_ops c) argv))
  | CUndefined => None
  end.

(** Does the call that becomes entry [k] of the trace, made in the second
    [now], see the child [pid] ended?  A child that ends in that very second
    is seen ended from the entry [e_instant e pid] on. *)
Definition ended (pid : Z) (p : proc) (now k : nat) : bool :=
  p_killed p ||
  match child_lifetime (p_child p) with
  | Some d =>
      bool_decide (p_born p + d < now)%nat
      || (bool_decide (p_born p + d = now)%nat && bool_decide (e_instant e pid <= k)%nat)
  | None => false
  end.

Definition append_to (path data : string) (fs : gmap string string) : gmap string string :=
  <[path := default EmptyString (fs !! path) +:+ data]> fs.

(** The child's writes that land in regular files. *)
Definition land_writes (files : gmap Z string) (ws : list (Z * string))
    (fs : gmap string string) : gmap string string :=
  foldl (fun fs '(fd, data) =>
           match files !! fd with
           | Some path => append_to path data fs
           | None => fs
           end) fs ws.

Definition fails : M bool := fun w => (Ret (e_fails e (length (w_trace w))), w).

Definition pipe : M (option (Z * Z)) := fun w =>
  if e_fails e (length (w_trace w)) then (Ret None, log (EvPipe None) w)
  else
    let r := lowest_free (w_fds w) in
    let wr := lowest_free (r :: w_fds w) in
    (Ret (Some (r, wr)),
     log (EvPipe (Some (r, wr))) (set_fds (fun fds => wr :: r :: fds) w)).

(** [fork], seen from the parent; [c] is what the child's branch does. *)
Definition fork (c : child) : M (option Z) := fun w =>
  if e_fails e (length (w_trace w)) then (Ret None, log (EvFork None) w)
  else
    let pid := w_next_pid w in
    let p := Proc c (w_clock w) (child_files (w_files w) (c_ops c)) false false in
    (Ret (Some pid),
     log (EvFork (Some pid))
       (set_next_pid (pid + 1) (set_procs (insert pid p) w))).

Definition close (fd : Z) : M unit := fun w =>
  (Ret tt,
   log (EvClose fd)
     (set_files (delete fd) (set_fds (filter (fun x => x ≠ fd)) w))).

Definition set_current_child (pid : Z) : M unit := fun w =>
  (Ret tt, log (EvForeground pid) (set_child pid w)).

(** Reaping: the process is marked and what it wrote reaches the files. *)
Definition reap (pid : Z) (p : proc) (w : world) : world :=
  set_fs (land_writes (p_files p) (child_writes (p_child p)))
    (set_procs (insert pid (Proc (p_child p) (p_born p) (p_files p) (p_killed p) true)) w).

(** [waitpid (pid, &status, nohang ? WNOHANG : 0)]. *)
Definition waitpid (pid : Z) (nohang : bool) : M wait_result := fun w =>
  let failed := (Ret WFailed, log (EvWaitpid pid nohang WFailed) w) in
  if e_fails e (length (w_trace w)) then failed
  else
    match w_procs w !! pid with
    | None => failed
    | Some p =>
        if p_reaped p then failed
        else
          let finish (now : nat) :=
            match (if p_killed p then Some (signaled SIGKILL)
                   else child_status (p_child p)) with
            | Some st =>
                (Ret (WDone st),
                 log (EvWaitpid pid nohang (WDone st)) (reap pid p (set_clock now w)))
            | None => (Undef, w)
            end in
          if ended pid p (w_clock w) (length (w_trace w)) then finish (w_clock w)
          else if nohang then (Ret WRunning, log (EvWaitpid pid nohang WRunning) w)
          else
            match child_lifetime (p_child p) with
            | Some d => finish (p_born p + d)%nat
            | None => (Hang, w)
            end
    end.

(** [kill]: only SIGKILL sent to a child that still runs changes the model;
    what any other signal does is the receiving program's business.  A
    child that has ended by itself since it was last seen running is no
    longer touched by the signal. *)
Definition kill (pid sig : Z) : M unit := fun w =>
  let w' :=
    match w_procs w !! pid with
    | Some p =>
        if bool_decide (sig = SIGKILL)
           && negb (ended pid p (w_clock w) (length (w_trace w)))
           && negb (p_reaped p)
        then set_procs (insert pid (killed p)) w
        else w
    | None => w
    end in
  (Ret tt, log (EvKill pid sig) w').

Definition sleep (secs : nat) : M unit := fun w =>
  (Ret tt, log (EvSleep secs) (set_clock (w_clock w + secs)%nat w)).

Definition perror (prefix : string) : M unit := emit (EvPerror prefix).
Definition eprintf (msg : string) : M unit := emit (EvStderr msg).
Definition chdir (path : string) : M unit := emit (EvChdir path).

(** [mkstemp]: a new, empty file under a name nothing else has. *)
Definition mkstemp : M (option (Z * string)) := fun w =>
  let name := e_tmpname e in
  if e_fails e (length (w_trace w)) || bool_decide (is_Some (w_fs w !! name)) then
    (Ret None, log (EvMkstemp None) w)
  else
    let fd := lowest_free (w_fds w) in
    (Ret (Some (fd, name)),
     log (EvMkstemp (Some (fd, name)))
       (set_fs (insert name EmptyString)
          (set_files (insert fd (OFile name 0 false))
             (set_fds (cons fd) w)))).

(** [open (path, O_WRONLY | O_CREAT | O_APPEND, 0644)]. *)
Definition open_append (path : string) : M (option Z) := fun w =>
  if e_fails e (length (w_trace w)) then
    (Ret None, log (EvOpenAppend path None) w)
  else
    let fd := lowest_free (w_fds w) in
    (Ret (Some fd),
     log (EvOpenAppend path (Some fd))
       (set_fs (fun fs => match fs !! path with
                          | Some _ => fs
                          | None => <[path := EmptyString]> fs
                          end)
          (set_files (insert fd (OFile path 0 true))
             (set_fds (cons fd) w)))).

(** Overwriting at an offset. *)
Definition splice (content : string) (pos : nat) (data : string) : string :=
  str_take pos content +:+ data +:+ str_drop (pos + String.length data) content.

(** [write (fd, data, strlen data)] with every byte accepted. *)
Definition write (fd : Z) (data : string) : M unit := fun w =>
  let w' :=
    match w_files w !! fd with
    | Some f =>
        let content := default EmptyString (w_fs w !! of_path f) in
        if of_append f then
          set_files (insert fd (OFile (of_path f) (String.length content + String.length data) true))
            (set_fs (insert (of_path f) (content +:+ data)) w)
        else
          set_files (insert fd (OFile (of_path f) (of_pos f + String.length data) false))
            (set_fs (insert (of_path f) (splice content (of_pos f) data)) w)
    | None => w
    end in
  (Ret tt, log (EvWrite fd data) w').

(** [write (fd, buf, n)] from an array whose determinate bytes are [buf]. *)
Definition write_buf (fd : Z) (buf : string) (n : Z) : M unit :=
  if (0 <=? n) && (n <=? Z.of_nat (String.length buf))
  then write fd (str_take (Z.to_nat n) buf)
  else undef.

(** [lseek (fd, 0, SEEK_SET)]. *)
Definition rewind (fd : Z) : M unit := fun w =>
  (Ret tt,
   log (EvLseek fd)
     (set_files (fun fs => match fs !! fd with
                           | Some f => <[fd := OFile (of_path f) 0 (of_append f)]> fs
                           | None => fs
                           end) w)).

(** [read (fd, buf, size)]: the bytes read; none at the end of the file or
    on a descriptor that is no regular file. *)
Definition read (fd : Z) (size : nat) : M string := fun w =>
  match w_files w !! fd with
  | Some f =>
      let content := default EmptyString (w_fs w !! of_path f) in
      let data := str_take size (str_drop (of_pos f) content) in
      (Ret data,
       log (EvRead fd data)
         (set_files (insert fd (OFile (of_path f) (of_pos f + String.length data) (of_append f))) w))
  | None => (Ret EmptyString, log (EvRead fd EmptyString) w)
  end.

(** How many bytes a [read] loop on [fd] still has before it. *)
Definition bytes_left (fd : Z) (w : world) : nat :=
  match w_files w !! fd with
  | Some f => String.length (default EmptyString (w_fs w !! of_path f)) - of_pos f
  | None => O
  end.

Definition unlink (path : string) : M unit := fun w =>
  (Ret tt, log (EvUnlink path) (set_fs (delete path) w)).

Definition clock_gettime : M (Z * Z) := fun w =>
  (Ret (e_clock e (length (w_trace w))), log EvClock w).

Definition getrusage : M rusage := fun w =>
  (Ret (e_rusage e (length (w_trace w))), log EvRusage w).

End WithEnv.

(** The shell as [main] leaves it before the first line: the three standard
    descriptors, no child, no foreground process. *)
Definition boot (fs : gmap string string) : world :=
  World [0; 1; 2] ∅ fs ∅ 1000 0 0 [].

(** An environment in which no call fails and every program is found; the
    clock reads one second more at every call after the first; a child that
    executes nothing ends at once, and the end of a child is seen by every
    call of the second it falls in. *)
Definition calm (image : list child_op -> list string -> fate) : env :=
  Env (fun _ => false) (fun _ => None) image "/tmp/miprof_out_k3Xw9q"
      (fun k => if Nat.eqb k 0 then (100, 0) else (101, 0))
      (fun _ => Rusage (0, 2000) (0, 1000) 1024)
      (fun whole frac scale => pretty whole +:+ "." +:+ pretty frac)
      (fun _ => O) (fun _ => O).

(** The environment [e], but the end of a child is only seen, in the second
    it falls in, by the calls that become the entries of the trace from [k]
    on. *)
Definition tardy (k : nat) (e : env) : env :=
  Env (e_fails e) (e_execvp e) (e_image e) (e_tmpname e) (e_clock e) (e_rusage e)
      (e_fmt6 e) (e_delay e) (fun _ => k).

(** The same as [calm], but no program is found. *)
Definition nowhere : env :=
  Env (fun _ => false) (fun _ => Some "No such file or directory")
      (fun _ _ => Fate (Some O) 0 []) "/tmp/miprof_out_k3Xw9q"
      (fun _ => (0, 0)) (fun _ => Rusage (0, 0) (0, 0) 0)
      (fun whole frac scale => pretty whole +:+ "." +:+ pretty frac)
      (fun _ => O) (fun _ => O).

(** The same as [calm], but the call that becomes entry 7 of the trace
    fails: in a capturing profile started on an empty trace, that is the
    [open] of the target file. *)
Definition open_refused (image : list child_op -> list string -> fate) : env :=
  Env (fun k => bool_decide (k = 7)%nat) (fun _ => None) image
      "/tmp/miprof_out_k3Xw9q"
      (fun k => if Nat.eqb k 0 then (100, 0) else (101, 0))
      (fun _ => Rusage (0, 2000) (0, 1000) 1024)
      (fun whole frac scale => pretty whole +:+ "." +:+ pretty frac)
      (fun _ => O) (fun _ => O).

(** Programs that end at once with exit code 0 and write nothing. *)
Definition quick : list child_op -> list string -> fate :=
  fun _ _ => Fate (Some O) (exited 0) [].
(** Programs that never end. *)
Definition stuck : list child_op -> list string -> fate :=
  fun _ _ => Fate None (exited 0) [].
(** The seconds of the alarm a child has armed before it executes. *)
Definition alarm_of (ops : list child_op) : option Z :=
  last (omap (fun op => match op with CAlarm secs => Some secs | _ => None end) ops).
(** The program [sleep]: it runs for the seconds its first argument names
    and exits with code 0, unless an alarm armed for fewer seconds ends it
    before, SIGALRM being left to its default action. *)
Definition sleeps : list child_op -> list string -> fate :=
  fun ops argv =>
    let secs := Z.to_nat (atoi (default EmptyString (argv !! 1%nat))) in
    match alarm_of ops with
    | Some a =>
        if bool_decide (Z.to_nat a < secs)%nat
        then Fate (Some (Z.to_nat a)) (signaled SIGALRM) []
        else Fate (Some secs) (exited 0) []
    | None => Fate (Some secs) (exited 0) []
    end.
(** Programs that run five seconds, alarm or no alarm, and exit with code 0. *)
Definition unhurried : list child_op -> list string -> fate :=
  fun _ _ => Fate (Some 5%nat) (exited 0) [].
(** The program [false] exits with code 1, every other one with code 0. *)
Definition by_name : list child_op -> list string -> fate :=
  fun _ argv =>
    if bool_decide (head argv = Some "false")
    then Fate (Some O) (exited 1) []
    else Fate (Some O) (exited 0) [].
(** Programs that print a line on each stream and exit with code 3. *)
Definition chatty : list child_op -> list string -> fate :=
  fun _ _ => Fate (Some 2%nat) (exited 3)
               [(STDOUT_FILENO, "out"); (STDERR_FILENO, "err"); (STDOUT_FILENO, "more")].

End Kernel.

(** ** The shell *)

Module Shell.
Import Libc Kernel Tokenizer.

Definition nl : string := String "010" EmptyString.

Section WithEnv.
Variable e : env.

(** [sigint_handler]: relay the interrupt to the foreground child. *)
Definition sigint_handler : M unit := fun w =>
  if 0 <? current_child w then kill e (current_child w) SIGINT w
  else (Ret tt, w).

(** The message both child branches print when [execvp] returns. *)
Definition exec_error (name err : string) : string :=
  "mishell: " +:+ name +:+ ": " +:+ err +:+ nl.

(** The child's branch of [execute_pipeline] for one stage; [piped] is
    [i < n - 1]. *)
Definition stage_child (in_fd : Z) (piped : bool) (pipefd : Z * Z)
    (command : string) : child :=
  let ops :=
    (if bool_decide (in_fd ≠ STDIN_FILENO)
     then [CDup2 in_fd STDIN_FILENO; CClose in_fd] else [])
    ++ (if piped
        then [CClose pipefd.1; CDup2 pipefd.2 STDOUT_FILENO; CClose pipefd.2]
        else []) in
  match parse_args command with
  | [] => Child ops (CExit 0)
  | (name :: _) as argv =>
      match e_execvp e argv with
      | None => Child ops (CExec argv)
      | Some err => Child (ops ++ [CPrintErr (exec_error name err)]) (CExit 127)
      end
  end.

(** One turn of the first loop of [execute_pipeline].  [None] is the
    [return -1]; otherwise the new child and the next [in_fd]. *)
Definition spawn_stage (i n in_fd : Z) (command : string) : M (option (Z * Z)) :=
  pf ← (if i <? n - 1 then pipe e else mret (Some (-1, -1)));
  match pf with
  | None => perror "pipe";; mret None
  | Some pipefd =>
      pid ← fork e (stage_child in_fd (i <? n - 1) pipefd command);
      match pid with
      | None => perror "fork";; mret None
      | Some pid =>
          (if bool_decide (in_fd ≠ STDIN_FILENO) then close in_fd else mret tt);;
          (if i <? n - 1
           then close pipefd.2;; mret (Some (pid, pipefd.1))
           else mret (Some (pid, in_fd)))
      end
  end.

(** The first loop, over [commands[i..n-1]]; [pids] is the filled part of
    the array of the same name. *)
Fixpoint spawn_loop (commands : list string) (i n in_fd : Z) (pids : list Z)
    : M (option (list Z)) :=
  match commands with
  | [] => mret (Some pids)
  | command :: rest =>
      r ← spawn_stage i n in_fd command;
      match r with
      | None => mret None
      | Some (pid, in_fd') => spawn_loop rest (i + 1) n in_fd' (pids ++ [pid])
      end
  end.

(** The second loop: [status] is only overwritten by a [waitpid] that
    returns a child. *)
Fixpoint wait_loop (pids : list Z) (status : Z) : M Z :=
  match pids with
  | [] => mret status
  | pid :: rest =>
      set_current_child pid;;
      r ← waitpid e pid false;
      wait_loop rest (match r with WDone st => st | _ => status end)
  end.

(** [execute_pipeline (commands, n)], with [n] the number of entries of
    [commands], as at both call sites. *)
Definition execute_pipeline (commands : list string) : M Z :=
  pids ← spawn_loop commands 0 (Z.of_nat (length commands)) STDIN_FILENO [];
  match pids with
  | None => mret (-1)
  | Some pids =>
      status ← wait_loop pids 0;
      set_current_child 0;;
      mret status
  end.

(** The child's branch of [run_and_profile]. *)
Definition profiled_child (argv : list string) (save_to_file : bool)
    (tmpfd timeout_seconds : Z) : child :=
  let ops :=
    (if save_to_file
     then [CDup2 tmpfd STDOUT_FILENO; CDup2 tmpfd STDERR_FILENO; CClose tmpfd]
     else [])
    ++ (if 0 <? timeout_seconds then [CAlarm timeout_seconds] else []) in
  match argv with
  | [] => Child ops CUndefined
  | name :: _ =>
      match e_execvp e argv with
      | None => Child ops (CExec argv)
      | Some err => Child (ops ++ [CPrintErr (exec_error name err)]) (CExit 127)
      end
  end.

(** The [while (1)] of the timed wait.  [left] is [timeout_seconds - waited],
    so [waited >= timeout_seconds] is [left = 0] and [waited++] takes one
    from it; the result is the final [status]. *)
Fixpoint poll_loop (left : nat) (pid status : Z) : M Z :=
  w ← waitpid e pid true;
  match w with
  | WDone st => mret st
  | WFailed => perror "waitpid";; mret status
  | WRunning =>
      match left with
      | O =>
          kill e pid SIGKILL;;
          r ← waitpid e pid false;
          mret (match r with WDone st => st | _ => status end)
      | S left' => sleep 1;; poll_loop left' pid status
      end
  end.

(** The text the [snprintf] format expands to. *)
Definition summary_text (name real usr sys : string) (maxrss status : Z) : string :=
  "Comando: " +:+ name +:+ nl
  +:+ "Real: " +:+ real +:+ "s  Usuario: " +:+ usr +:+ "s  Sistema: " +:+ sys
  +:+ "s  MaxRSS: " +:+ pretty maxrss +:+ nl
  +:+ "ExitStatus: "
  +:+ pretty (if WIFEXITED status then WEXITSTATUS status else -1) +:+ nl.

(** The summary of one run: [real_sec] from the two clock readings,
    [usr_sec] and [sys_sec] from the usage, each printed with six decimals. *)
Definition make_summary (name : string) (start finish : Z * Z) (usage : rusage)
    (status : Z) : string :=
  summary_text name
    (e_fmt6 e (finish.1 - start.1) (finish.2 - start.2) 1000000000)
    (e_fmt6 e (ru_utime usage).1 (ru_utime usage).2 1000000)
    (e_fmt6 e (ru_stime usage).1 (ru_stime usage).2 1000000)
    (ru_maxrss usage) status.

Definition append_header (name : string) : string :=
  "---- miprof append: " +:+ name +:+ " ----" +:+ nl.

(** The copy loop, [while ((r = read (tmpfd, buf, 4096)) > 0) write (outfd,
    buf, r)].  [budget] is the number of bytes left to read when the loop
    starts: every turn that writes has read at least one of them, so the
    budget only runs out when the writes feed the reads, and then the loop
    of the source does not end either. *)
Fixpoint copy_loop (budget : nat) (tmpfd outfd : Z) : M unit :=
  data ← read tmpfd 4096;
  match data with
  | EmptyString => mret tt
  | _ =>
      write outfd data;;
      match budget with
      | O => hang
      | S budget' => copy_loop budget' tmpfd outfd
      end
  end.

(** The branch of [run_and_profile] that saves to [filename]. *)
Definition save_block (filename name : string) (tmpfd : Z) (tmpname : string)
    (summary : string) (n : Z) : M unit :=
  outfd ← open_append e filename;
  match outfd with
  | None => perror "abrir archivo de salida"
  | Some outfd =>
      write outfd (append_header name);;
      rewind tmpfd;;
      budget ← (fun w => (Ret (bytes_left tmpfd w), w));
      copy_loop budget tmpfd outfd;;
      write_buf outfd summary n;;
      write outfd nl;;
      close outfd
  end;;
  close tmpfd;;
  unlink tmpname.

(** [run_and_profile (argv, save_to_file, filename, timeout_seconds)]. *)
Definition run_and_profile (argv : list string) (save_to_file : bool)
    (filename : string) (timeout_seconds : Z) : M Z :=
  tmp ← (if save_to_file then mkstemp e
         else mret (Some (-1, "/tmp/miprof_out_XXXXXX")));
  match tmp with
  | None => perror "mkstemp";; mret (-1)
  | Some (tmpfd, tmpname) =>
      start ← clock_gettime e;
      pid ← fork e (profiled_child argv save_to_file tmpfd timeout_seconds);
      match pid with
      | None => perror "fork";; mret (-1)
      | Some pid =>
          set_current_child pid;;
          status ←
            (if 0 <? timeout_seconds
             then poll_loop (Z.to_nat timeout_seconds) pid 0
             else r ← waitpid e pid false;
                  mret (match r with WDone st => st | _ => 0 end));
          finish ← clock_gettime e;
          usage ← getrusage e;
          let name := default EmptyString (head argv) in
          let '(summary, n) :=
            snprintf 1024 (make_summary name start finish usage status) in
          (if save_to_file && bool_decide (tmpfd ≠ -1)
           then save_block filename name tmpfd tmpname summary n
           else if negb save_to_file
                then write_buf STDOUT_FILENO summary n
                else mret tt);;
          set_current_child 0;;
          mret status
      end
  end.

Definition usage_miprof : string :=
  "uso: miprof [ejec|ejcsave archivo|maxtiempo segs] comando args..." +:+ nl.
Definition usage_ejec : string :=
  "no se indic" +:+ String "195" (String "179" EmptyString)
  +:+ " comando para ejec" +:+ nl.
Definition usage_ejecsave : string :=
  "uso: miprof ejecsave archivo comando args..." +:+ nl.
Definition usage_maxtiempo : string :=
  "uso: miprof maxtiempo segs comando args..." +:+ nl.

(** The [miprof] branch of [handle_single_command]; [args] is [argv + 1]. *)
Definition miprof (args : list string) : M unit :=
  match args with
  | [] => eprintf usage_miprof
  | mode :: rest =>
      if String.eqb mode "ejec" then
        match rest with
        | [] => eprintf usage_ejec
        | _ :: _ => run_and_profile rest false EmptyString 0;; mret tt
        end
      else if String.eqb mode "ejecsave" then
        match rest with
        | file :: ((_ :: _) as cmd) => run_and_profile cmd true file 0;; mret tt
        | _ => eprintf usage_ejecsave
        end
      else if String.eqb mode "maxtiempo" then
        match rest with
        | segs :: ((_ :: _) as cmd) =>
            run_and_profile cmd false EmptyString (atoi segs);; mret tt
        | _ => eprintf usage_maxtiempo
        end
      else eprintf ("miprof: modo desconocido " +:+ mode +:+ nl)
  end.

(** [handle_single_command (cmdline)]. *)
Definition handle_single_command (cmdline : string) : M Z :=
  match parse_args cmdline with
  | [] => mret 0
  | name :: args =>
      if String.eqb name "exit" then exit 0
      else if String.eqb name "cd" then
        match args with
        | path :: _ => chdir path
        | [] => mret tt
        end;;
        mret 0
      else if String.eqb name "miprof" then miprof args;; mret 0
      else execute_pipeline [cmdline]
  end.

(** What [main] does with one line once the final newline is gone. *)
Definition interpret (line : string) : M unit :=
  let trimmed := trim line in
  match trimmed with
  | EmptyString => mret tt
  | _ =>
      let commands := split_pipeline trimmed in
      if bool_decide (length commands <= 1)%nat
      then handle_single_command trimmed;; mret tt
      else execute_pipeline commands;; mret tt
  end.

End WithEnv.

End Shell.

(** ** Reading traces *)

Module Trace.
Import Kernel.

(** The number of children forked, from the start of [tr], before the first
    [close (fd)]; [None] when [fd] is not closed in [tr]. *)
Fixpoint forks_until_close (fd : Z) (tr : list event) : option nat :=
  match tr with
  | [] => None
  | EvClose fd' :: tr' =>
      if bool_decide (fd' = fd) then Some O else forks_until_close fd tr'
  | EvFork (Some _) :: tr' => S <$> forks_until_close fd tr'
  | _ :: tr' => forks_until_close fd tr'
  end.

(** The value of [current_child] after the events [tr], from [init]. *)
Definition slot_after (init : Z) (tr : list event) : Z :=
  foldl (fun v ev => match ev with EvForeground p => p | _ => v end) init tr.

(** The children a wait has returned in [tr]. *)
Definition reaped (tr : list event) : list Z :=
  omap (fun ev => match ev with
                  | EvWaitpid p _ (WDone _) => Some p
                  | _ => None
                  end) tr.

(** The calls the first loop of [execute_pipeline] makes. *)
Definition spawn_event (ev : event) : bool :=
  match ev with
  | EvPipe _ | EvFork _ | EvClose _ | EvPerror _ => true
  | _ => false
  end.

Definition is_kill (ev : event) : bool :=
  match ev with EvKill _ _ => true | _ => false end.

(** The events of the foreground waits on [prs], a list of (child, result of
    its wait). *)
Definition waits (prs : list (Z * wait_result)) : list event :=
  flat_map (fun '(p, r) => [EvForeground p; EvWaitpid p false r]) prs.

(** "Cleared immediately after that wait returns". *)
Definition cleared_after_each_wait (tr : list event) : Prop :=
  forall pre p nohang r post,
    tr = pre ++ EvWaitpid p nohang r :: post ->
    exists post', post = EvForeground 0 :: post'.

(** "Closed in the parent right after forking process i+1, not before": a
    channel's write end is closed once two children, its writer and its
    reader, have been forked since the channel was made. *)
Definition write_end_closed_after_reader_fork (tr : list event) : Prop :=
  forall pre r wr post,
    tr = pre ++ EvPipe (Some (r, wr)) :: post ->
    forks_until_close wr post = Some 2%nat.

(** What the source does with both ends of a channel: the write end is
    closed once one child, the writer, has been forked since the channel was
    made, and the read end once two have, the writer and the reader. *)
Definition channel_ends_closed (tr : list event) : Prop :=
  forall pre r wr post,
    tr = pre ++ EvPipe (Some (r, wr)) :: post ->
    forks_until_close wr post = Some 1%nat /\ forks_until_close r post = Some 2%nat.

(** The same, by recursion on the trace. *)
Fixpoint channels_ok (tr : list event) : Prop :=
  match tr with
  | [] => True
  | EvPipe (Some (r, wr)) :: post =>
      forks_until_close wr post = Some 1%nat
      /\ forks_until_close r post = Some 2%nat
      /\ channels_ok post
  | _ :: post => channels_ok post
  end.

(** [k] polls that find the child running, each followed by [sleep (1)]. *)
Definition polls_running (pid : Z) (k : nat) : list event :=
  concat (replicate k [EvWaitpid pid true WRunning; EvSleep 1]).

(** The calls of a timed wait that finds the child ended, with [status], at
    the poll that follows [j] sleeps. *)
Definition found_ended (pid : Z) (j : nat) (status : Z) : list event :=
  polls_running pid j ++ [EvWaitpid pid true (WDone status)].

(** The calls of a timed wait that finds the child running at every poll,
    the one that follows [timeout] sleeps included: the signal, then the
    blocking wait, which gives [status]. *)
Definition timed_out (pid : Z) (timeout : nat) (status : Z) : list event :=
  polls_running pid timeout
  ++ [EvWaitpid pid true WRunning; EvKill pid Libc.SIGKILL;
      EvWaitpid pid false (WDone status)].

(** The calls of the timed wait, and the status it ends with, on a child that
    ends by itself after [lifetime] seconds with [status], or never.  The
    poll that follows [j] sleeps is entry [first + 2 * j] of the trace, and
    the child's end, in the second it falls in, is seen from entry [instant]
    on.  A child that ends before the deadline is found by the poll of that
    second or by the next one; a child that outlives the deadline is killed;
    a child that ends in the very second of the deadline is found ended by
    the last poll, or ends by itself between that poll and the signal, or is
    killed. *)
Definition timed_wait (pid : Z) (timeout : nat) (lifetime : option nat)
    (status : Z) (instant first : nat) : list event * Z :=
  let seen (j : nat) := bool_decide (instant <= first + 2 * j)%nat in
  let killed :=
    (timed_out pid timeout (Libc.signaled Libc.SIGKILL), Libc.signaled Libc.SIGKILL) in
  match lifetime with
  | Some d =>
      if bool_decide (d < timeout)%nat
      then (found_ended pid (if seen d then d else S d) status, status)
      else if bool_decide (d = timeout)%nat
      then if seen timeout then (found_ended pid timeout status, status)
           else if bool_decide (instant <= S (first + 2 * timeout))%nat
                then (timed_out pid timeout status, status)
                else killed
      else killed
  | None => killed
  end.

(** The calls that wait, sleep or kill. *)
Definition timing_event (ev : event) : bool :=
  match ev with
  | EvKill _ _ | EvSleep _ | EvWaitpid _ _ _ => true
  | _ => false
  end.

(** The calls of a plain blocking profile: no poll, no sleep, no signal, no
    message on the error stream. *)
Definition timeout_free (ev : event) : bool :=
  match ev with
  | EvKill _ _ | EvSleep _ | EvStderr _ | EvWaitpid _ true _ => false
  | _ => true
  end.

(** What a run leaves for its caller and its user to see: the bytes written
    and the messages printed, in order. *)
Definition is_output (ev : event) : bool :=
  match ev with
  | EvWrite _ _ | EvStderr _ | EvPerror _ => true
  | _ => false
  end.
Definition output (tr : list event) : list event :=
  filter (fun ev => is_output ev = true) tr.

(** The bytes of a sequence of writes that went to standard output or to
    standard error, in the order they were written. *)
Fixpoint captured (ws : list (Z * string)) : string :=
  match ws with
  | [] => EmptyString
  | (fd, data) :: ws' =>
      if bool_decide (fd = Libc.STDOUT_FILENO \/ fd = Libc.STDERR_FILENO)
      then data +:+ captured ws'
      else captured ws'
  end.

(** The status [execute_pipeline] ends with: [status] is overwritten by
    every wait that returns a child. *)
Definition last_status (status : Z) (results : list wait_result) : Z :=
  foldl (fun s r => match r with WDone x => x | _ => s end) status results.

(** The descriptors of the shell between two stages: those it had at the
    call, [F], and the read end the next stage takes as its input. *)
Definition between_stages (F : list Z) (in_fd : Z) (w : world) : Prop :=
  (in_fd = Libc.STDIN_FILENO /\ w_fds w = F)
  \/ ((in_fd ≠ Libc.STDIN_FILENO) /\ (in_fd ∉ F) /\ w_fds w = in_fd :: F).

(** "The result records that the timeout fired": some reading [flag] of what
    a timed profile returns and prints tells, for every run, whether the
    signal of the deadline was sent. *)
Definition records_timeout (flag : outcome Z -> list event -> bool) : Prop :=
  forall e argv timeout w,
    0 < timeout ->
    flag (Shell.run_and_profile e argv false EmptyString timeout w).1
         (output (w_trace (Shell.run_and_profile e argv false EmptyString timeout w).2))
    = existsb is_kill (w_trace (Shell.run_and_profile e argv false EmptyString timeout w).2).

(** The [close (in_fd)] of the parent's branch. *)
Definition close_in (in_fd : Z) : list event :=
  if bool_decide (in_fd ≠ Libc.STDIN_FILENO) then [EvClose in_fd] else [].

End Trace.

(** ** Reading strings *)

Module Text.
Import Tokenizer.

Definition head_char (s : string) : option ascii :=
  match s with
  | String c _ => Some c
  | EmptyString => None
  end.

Fixpoint last_char (s : string) : option ascii :=
  match s with
  | EmptyString => None
  | String c EmptyString => Some c
  | String _ r => last_char r
  end.

(** Does [s] hold a character of the class [cls]? *)
Definition has (cls : ascii -> bool) (s : string) : bool :=
  existsb cls (list_ascii_of_string s).

(** A string that neither starts nor ends with a blank. *)
Definition trimmed (s : string) : Prop :=
  (forall c, head_char s = Some c -> is_blank c = false)
  /\ (forall c, last_char s = Some c -> is_blank c = false).

(** A word: at least one character, none of them a blank. *)
Definition word (s : string) : Prop :=
  s <> EmptyString /\ has is_blank s = false.

(** The strings of [l] with [sep] between each two of them. *)
Fixpoint join (sep : ascii) (l : list string) : string :=
  match l with
  | [] => EmptyString
  | [x] => x
  | x :: r => x +:+ String sep (join sep r)
  end.

End Text.

(** ** Reading the calls of a whole command *)

Module Calls.
Import Kernel.

(** The children [fork] has returned in [tr], in order. *)
Definition forked (tr : list event) : list Z :=
  omap (fun ev => match ev with
                  | EvFork (Some p) => Some p
                  | _ => None
                  end) tr.

(** The calls [execute_pipeline] can make: those of its first loop, the
    stores to [current_child] and the blocking waits. *)
Definition pipeline_event (ev : event) : bool :=
  match ev with
  | EvPipe _ | EvFork _ | EvClose _ | EvPerror _
  | EvForeground _ | EvWaitpid _ false _ => true
  | _ => false
  end.

Definition is_wait (ev : event) : bool :=
  match ev with EvWaitpid _ _ _ => true | _ => false end.

Definition is_perror (ev : event) : bool :=
  match ev with EvPerror _ => true | _ => false end.

Definition is_pipe (ev : event) : bool :=
  match ev with EvPipe (Some _) => true | _ => false end.

(** A [pipe] or a [fork] that failed. *)
Definition spawn_failure (ev : event) : bool :=
  match ev with EvPipe None | EvFork None => true | _ => false end.

(** "The returned status is the last stage's termination status": whenever
    the call returns, what it returns is the status the child it forked last
    ends with. *)
Definition returns_last_stage_status (e : env) (commands : list string) (w : world) : Prop :=
  forall st w',
    Shell.execute_pipeline e commands w = (Ret st, w') ->
    exists pid p,
      last (forked (drop (length (w_trace w)) (w_trace w'))) = Some pid
      /\ w_procs w' !! pid = Some p
      /\ child_status e (p_child p) = Some st.

(** From [w], the computation [m] adds to the trace only calls of the
    class [cls], however it ends. *)
Definition emits {A} (cls : event -> Prop) (m : M A) (w : world) : Prop :=
  exists evs, w_trace (m w).2 = w_trace w ++ evs /\ Forall cls evs.

(** A call that is neither a [fork] nor a [kill]. *)
Definition quiet (ev : event) : Prop :=
  match ev with
  | EvFork _ | EvKill _ _ => False
  | _ => True
  end.

(** A call that is no [fork] and, if it is a [kill], sends [sig] to [pid]. *)
Definition kills_only (pid sig : Z) (ev : event) : Prop :=
  match ev with
  | EvFork _ => False
  | EvKill p s => p = pid /\ s = sig
  | _ => True
  end.

End Calls.

(** ** Environments in which one call fails *)

Module Faults.
Import Kernel.

(** [calm image], but the call that becomes entry [k] of the trace fails. *)
Definition refusing (k : nat) (image : list child_op -> list string -> fate) : env :=
  Env (fun j => bool_decide (j = k)) (e_execvp (calm image)) image
      (e_tmpname (calm image)) (e_clock (calm image)) (e_rusage (calm image))
      (e_fmt6 (calm image)) (e_delay (calm image)) (e_instant (calm image)).

(** A command name of 1024 bytes. *)
Definition long_name : string := string_of_list_ascii (replicate 1024 "a"%char).

End Faults.

(** ** The read loop of [main] *)

Module Repl.
Import Libc Kernel Tokenizer Shell.

(** What the C string functions see of a buffer: the bytes before its first
    terminator. *)
Fixpoint c_str (buf : string) : string :=
  match buf with
  | EmptyString => EmptyString
  | String c r => if Ascii.eqb c "000" then EmptyString else String c (c_str r)
  end.

(** [if (line[nread-1] == '\n') line[nread-1] = '\0'], on a line of
    [nread >= 1] bytes. *)
Fixpoint strip_newline (line : string) : string :=
  match line with
  | EmptyString => EmptyString
  | String c EmptyString =>
      if Ascii.eqb c "010" then String "000" EmptyString else line
  | String c r => String c (strip_newline r)
  end.

Section WithEnv.
Variable e : env.

(** What [getcwd] gives after the calls made so far; [None] is its NULL. *)
Variable getcwd : list event -> option string.

(** The prompt: [printf] then [fflush (stdout)]. *)
Definition prompt : M unit := fun w =>
  write STDOUT_FILENO
    (match getcwd (w_trace w) with
     | Some cwd => "mishell:" +:+ cwd +:+ "$ "
     | None => "mishell$ "
     end) w.

(** One turn of the [while (1)] of [main] on a line [getline] has read;
    [nread] is the length of [line].  [getline] never returns 0. *)
Definition turn (line : string) : M unit :=
  match line with
  | EmptyString => undef
  | _ =>
      if Nat.eqb (String.length line) 1 then mret tt
      else interpret e (c_str (strip_newline line))
  end.

(** The loop on the lines [getline] reads in turn; at the end of [input]
    it returns -1 and [main] prints a newline and returns 0. *)
Fixpoint main_loop (input : list string) : M Z :=
  prompt;;
  match input with
  | [] => write STDOUT_FILENO nl;; mret 0
  | line :: rest => turn line;; main_loop rest
  end.

End WithEnv.

(** The only statuses a computation ends the shell with are those of [ok]. *)
Definition exits_only {A} (ok : Z -> Prop) (m : M A) : Prop :=
  forall w code w', m w = (Exit code, w') -> ok code.

(** A line the loop passes over: one byte, whatever the byte, or nothing
    but blanks before its terminator. *)
Definition passed_over (line : string) : Prop :=
  String.length line = 1%nat
  \/ (line <> EmptyString /\ all_blank (c_str (strip_newline line)) = true).

(** A prompt written on standard output. *)
Definition is_prompt (ev : event) : bool :=
  match ev with
  | EvWrite fd text =>
      bool_decide (fd = STDOUT_FILENO) && String.prefix "mishell" text
  | _ => false
  end.

End Repl.

(** * Theorems *)

Ltac run := unfold mbind, mret, Kernel.M_bind, Kernel.M_ret in *.

(** ** Tokenizer *)

Section TokenizerFacts.
Variable delim : ascii -> bool.
Import Tokenizer.

Lemma pieces_cons s : exists p ps, pieces delim s = p :: ps.
Proof.
  destruct s as [|c r]; simpl; [eauto|].
  destruct (delim c); [eauto|]. destruct (pieces delim r); eauto.
Qed.

Lemma cut_token_pieces s :
  forall p ps, pieces delim s = p :: ps ->
  fst (cut_token delim s) = p /\
  filter (fun p => nonempty p = true) (pieces delim (snd (cut_token delim s)))
  = filter (fun p => nonempty p = true) ps.
Proof.
  induction s as [|c r IH]; intros p ps; simpl.
  - intros [= <- <-]. done.
  - destruct (delim c) eqn:Hc.
    + intros [= <- <-]. done.
    + destruct (pieces_cons r) as (q & qs & Hq). rewrite Hq.
      intros [= <- <-]. destruct (IH _ _ Hq) as [H1 H2].
      destruct (cut_token delim r) as [tok save]; simpl in *. by subst.
Qed.

Lemma strtok_r_tokens s :
  match strtok_r delim s with
  | None => tokens delim s = []
  | Some (t, save) => tokens delim s = t :: tokens delim save
  end.
Proof.
  unfold strtok_r, tokens. induction s as [|c r IH]; simpl; [done|].
  destruct (delim c) eqn:Hc.
  - rewrite filter_cons_False by (simpl; congruence). exact IH.
  - destruct (pieces_cons r) as (q & qs & Hq). rewrite Hq.
    destruct (cut_token_pieces r _ _ Hq) as [H1 H2].
    destruct (cut_token delim r) as [tok save]; simpl in *.
    rewrite Hc, filter_cons_True by done. by rewrite H1, H2.
Qed.

End TokenizerFacts.

Section SplitPipeline.
Import Tokenizer.

Lemma split_loop_tokens room s :
  split_loop room (strtok_r is_bar s) = take room (trim <$> tokens is_bar s).
Proof.
  revert s. induction room as [|room IH]; intros s; simpl.
  - by destruct (strtok_r is_bar s) as [[]|].
  - pose proof (strtok_r_tokens is_bar s) as H.
    destruct (strtok_r is_bar s) as [[t save]|]; rewrite H; simpl; [|done].
    by rewrite IH.
Qed.

Lemma skip_blank_all_blank p : all_blank p = true -> skip_blank p = EmptyString.
Proof.
  unfold all_blank. induction p as [|c r IH]; simpl; [done|].
  destruct (is_blank c); simpl; [auto|done].
Qed.

(** C1 (amended).  For every input line [split_pipeline] returns, in order
    and trimmed, the first 64 of the pieces between stage delimiters that are
    not of length zero.  A piece that holds only blanks is passed through as
    the empty string, keeps its position, and later yields an empty argument
    vector; a piece of length zero (two adjacent delimiters, a leading or a
    trailing one) is skipped. *)
Theorem split_pipeline_stages (line p : string) :
  all_blank p = true ->
  split_pipeline line
  = take MAX_COMMANDS (trim <$> filter (fun q => nonempty q = true) (pieces is_bar line))
  /\ trim p = EmptyString
  /\ parse_args (trim p) = [].
Proof.
  intros Hp. split; [apply split_loop_tokens|].
  unfold trim. rewrite (skip_blank_all_blank p Hp). done.
Qed.

Lemma split_pipeline_stages_witness :
  split_pipeline "a| |b" = ["a"; ""; "b"] /\ trim " " = "" /\ parse_args (trim " ") = [].
Proof.
  destruct (split_pipeline_stages "a| |b" " " eq_refl) as (H1 & H2 & H3).
  split; [|done]. rewrite H1. vm_compute. reflexivity.
Defined.

Lemma split_pipeline_drops_empty_stage :
  split_pipeline "a||b" = ["a"; "b"]
  /\ stages_keeping_empty "a||b" = ["a"; ""; "b"]
  /\ split_pipeline "a||b" <> stages_keeping_empty "a||b".
Proof. repeat split; try reflexivity. vm_compute. discriminate. Qed.

Example split_blank_stage : split_pipeline "a| |b" = ["a"; ""; "b"].
Proof. reflexivity. Qed.

End SplitPipeline.

(** ** The C library *)

Section LibcFacts.
Import Libc.

Lemma digits_no_digit s :
  match s with
  | String c _ => match digit_of c with Some _ => false | None => true end
  | EmptyString => true
  end = true -> digits 0 s = 0.
Proof. destruct s as [|c r]; simpl; [done|]. by destruct (digit_of c). Qed.

Lemma atoi_no_number s : no_number s = true -> atoi s = 0.
Proof.
  unfold no_number, atoi, strtol10.
  destruct (strip_sign (skip_space s)) as [neg body]; simpl.
  intros H. rewrite (digits_no_digit _ H). by destruct neg.
Qed.

Example atoi_examples :
  atoi "12" = 12 /\ atoi "-3x" = -3 /\ atoi "abc" = 0
  /\ atoi "4294967296" = 0 /\ atoi "99999999999999999999" = -1.
Proof. repeat split; reflexivity. Qed.

Lemma app_cons c s t : String c s +:+ t = String c (s +:+ t).
Proof. reflexivity. Qed.

Lemma app_empty_r s : s +:+ "" = s.
Proof. induction s as [|c r IH]; [done|]. by rewrite app_cons, IH. Qed.

Lemma app_assoc_str (a b c : string) : (a +:+ b) +:+ c = a +:+ (b +:+ c).
Proof. induction a as [|x a IH]; [done|]. by rewrite !app_cons, IH. Qed.

Lemma app_length_str (s t : string) :
  String.length (s +:+ t) = (String.length s + String.length t)%nat.
Proof. induction s as [|c r IH]; [done|]. rewrite app_cons. simpl. by rewrite IH. Qed.

Lemma str_take_drop n s : str_take n s +:+ str_drop n s = s.
Proof.
  revert s. induction n as [|n IH]; intros [|c r]; simpl; try done.
  by rewrite app_cons, IH.
Qed.

Lemma str_drop_take_length n s : str_drop (String.length (str_take n s)) s = str_drop n s.
Proof.
  revert s. induction n as [|n IH]; intros [|c r]; simpl; try done.
Qed.

Lemma str_drop_add a b s : str_drop (a + b) s = str_drop b (str_drop a s).
Proof.
  revert s. induction a as [|a IH]; intros [|c r]; simpl; try done. by destruct b.
Qed.

Lemma str_drop_length n s : String.length (str_drop n s) = (String.length s - n)%nat.
Proof. revert s. induction n as [|n IH]; intros [|c r]; simpl; try done. Qed.

Lemma str_take_app n s t : n = String.length s -> str_take n (s +:+ t) = s.
Proof.
  intros ->. induction s as [|c r IH]; [by destruct t|].
  rewrite app_cons. simpl. by rewrite IH.
Qed.

Lemma str_take_nil n : str_take n "" = "".
Proof. by destruct n. Qed.

Lemma str_take_empty n s : n <> O -> str_take n s = "" -> s = "".
Proof. by destruct n, s. Qed.

Lemma str_drop_0 s : str_drop 0 s = s.
Proof. pose proof (str_take_drop 0 s) as H. by rewrite <- H at 2. Qed.

Lemma str_take_all n s : (String.length s <= n)%nat -> str_take n s = s.
Proof.
  intros H. pose proof (str_take_app (String.length s) s "" eq_refl) as Ht.
  rewrite app_empty_r in Ht.
  pose proof (str_take_drop n s) as Htd.
  pose proof (str_drop_length n s) as Hl.
  destruct (str_drop n s) eqn:Hd; [by rewrite app_empty_r in Htd|simpl in Hl; lia].
Qed.

Lemma snprintf_fits size full :
  (String.length full < size)%nat ->
  snprintf size full = (full +:+ String "000" "", Z.of_nat (String.length full)).
Proof. intros H. unfold snprintf. rewrite str_take_all by lia. done. Qed.

End LibcFacts.

(** ** The kernel model *)

Section KernelFacts.
Import Libc Kernel.

Lemma filter_from_succ (n : Z) (used : list Z) :
  filter (fun x => n + 1 <= x) used
  = filter (fun x => n + 1 <= x) (filter (fun x => n <= x) used).
Proof.
  induction used as [|x l IH]; [done|].
  destruct (decide (n <= x)) as [Hx|Hx].
  - rewrite (filter_cons_True (fun x => n <= x)) by done.
    destruct (decide (n + 1 <= x)).
    + rewrite !(filter_cons_True (fun x => n + 1 <= x)) by done. by rewrite IH.
    + rewrite !(filter_cons_False (fun x => n + 1 <= x)) by done. done.
  - rewrite (filter_cons_False (fun x => n <= x)) by done.
    rewrite (filter_cons_False (fun x => n + 1 <= x)) by lia. done.
Qed.

Lemma lowest_free_from_fresh (fuel : nat) (n : Z) (used : list Z) :
  (length (filter (fun x => (n <= x)%Z) used) <= fuel)%nat ->
  lowest_free_from fuel n used ∉ used.
Proof.
  revert n. induction fuel as [|fuel IH]; intros n Hlen; simpl.
  - intros Hin.
    assert (n ∈ filter (fun x => n <= x) used) as Hf
      by (apply list_elem_of_filter; split; [lia|done]).
    destruct (filter (fun x => n <= x) used); [by apply elem_of_nil in Hf|].
    simpl in Hlen. lia.
  - case_bool_decide as Hin; [|done].
    apply IH. rewrite filter_from_succ.
    assert (n ∈ filter (fun x => n <= x) used) as Hf
      by (apply list_elem_of_filter; split; [lia|done]).
    pose proof (length_filter_lt (fun x => n + 1 <= x) _ n Hf). lia.
Qed.

Lemma lowest_free_fresh (used : list Z) : lowest_free used ∉ used.
Proof. apply lowest_free_from_fresh, length_filter. Qed.

Lemma lowest_free_from_ge (fuel : nat) (n : Z) (used : list Z) :
  n <= lowest_free_from fuel n used.
Proof.
  revert n. induction fuel as [|fuel IH]; intros n; simpl; [lia|].
  case_bool_decide; [|lia]. specialize (IH (n + 1)). lia.
Qed.

Lemma lowest_free_nonneg (used : list Z) : 0 <= lowest_free used.
Proof. apply lowest_free_from_ge. Qed.

Lemma filter_ne_fresh (x : Z) (l : list Z) :
  x ∉ l -> filter (fun y => y ≠ x) l = l.
Proof.
  induction l as [|y l IH]; intros Hx; [done|].
  apply not_elem_of_cons in Hx as [Hne Hx].
  rewrite filter_cons_True by done. by rewrite IH.
Qed.

Lemma waitpid_cases e pid nohang w r w' :
  waitpid e pid nohang w = (r, w') ->
  match r with
  | Ret res =>
      w_trace w' = w_trace w ++ [EvWaitpid pid nohang res]
      /\ w_fds w' = w_fds w /\ current_child w' = current_child w
  | Exit _ => False
  | _ => w' = w
  end.
Proof.
  unfold waitpid. intros H.
  repeat case_match; simplify_eq; simpl; done.
Qed.

Lemma waitpid_running e pid p w :
  e_fails e (length (w_trace w)) = false ->
  w_procs w !! pid = Some p ->
  p_reaped p = false ->
  ended e pid p (w_clock w) (length (w_trace w)) = false ->
  waitpid e pid true w = (Ret WRunning, log (EvWaitpid pid true WRunning) w).
Proof. intros Hno Hp Hr He. unfold waitpid. by rewrite Hno, Hp, Hr, He. Qed.

Lemma waitpid_ended e pid nohang p st w :
  e_fails e (length (w_trace w)) = false ->
  w_procs w !! pid = Some p ->
  p_reaped p = false ->
  ended e pid p (w_clock w) (length (w_trace w)) = true ->
  (if p_killed p then Some (signaled SIGKILL) else child_status e (p_child p)) = Some st ->
  waitpid e pid nohang w
  = (Ret (WDone st),
     log (EvWaitpid pid nohang (WDone st)) (reap e pid p (set_clock (w_clock w) w))).
Proof. intros Hno Hp Hr He Hst. unfold waitpid. by rewrite Hno, Hp, Hr, He, Hst. Qed.

Lemma waitpid_blocks e pid p d st w :
  e_fails e (length (w_trace w)) = false ->
  w_procs w !! pid = Some p ->
  p_reaped p = false ->
  p_killed p = false ->
  child_lifetime e (p_child p) = Some d ->
  child_status e (p_child p) = Some st ->
  exists now,
    waitpid e pid false w
    = (Ret (WDone st),
       log (EvWaitpid pid false (WDone st)) (reap e pid p (set_clock now w))).
Proof.
  intros Hno Hp Hr Hk Hd Hst. unfold waitpid. rewrite Hno, Hp, Hr, Hd, Hk, Hst.
  destruct (ended e pid p (w_clock w) (length (w_trace w)));
    [exists (w_clock w)|exists (p_born p + d)%nat]; reflexivity.
Qed.

Lemma kill_running e pid p w :
  w_procs w !! pid = Some p ->
  p_reaped p = false ->
  ended e pid p (w_clock w) (length (w_trace w)) = false ->
  kill e pid SIGKILL w
  = (Ret tt, log (EvKill pid SIGKILL) (set_procs (insert pid (killed p)) w)).
Proof. intros Hp Hr He. unfold kill. by rewrite Hp, He, Hr. Qed.

Lemma ended_alive e pid p now k :
  p_killed p = false ->
  ended e pid p now k
  = match child_lifetime e (p_child p) with
    | Some d =>
        bool_decide (p_born p + d < now)%nat
        || (bool_decide (p_born p + d = now)%nat && bool_decide (e_instant e pid <= k)%nat)
    | None => false
    end.
Proof. intros Hk. unfold ended. by rewrite Hk. Qed.

Lemma kill_too_late e pid p w :
  w_procs w !! pid = Some p ->
  ended e pid p (w_clock w) (length (w_trace w)) = true ->
  kill e pid SIGKILL w = (Ret tt, log (EvKill pid SIGKILL) w).
Proof. intros Hp He. unfold kill. by rewrite Hp, He. Qed.

Lemma write_cases fd data w :
  exists w',
    write fd data w = (Ret tt, w')
    /\ w_trace w' = w_trace w ++ [EvWrite fd data]
    /\ w_fds w' = w_fds w
    /\ current_child w' = current_child w.
Proof.
  unfold write. eexists. split; [reflexivity|].
  destruct (w_files w !! fd) as [f|]; [destruct (of_append f)|]; done.
Qed.

Lemma write_append fd data w f content :
  w_files w !! fd = Some f ->
  of_append f = true ->
  w_fs w !! of_path f = Some content ->
  write fd data w
  = (Ret tt,
     log (EvWrite fd data)
       (set_files
          (insert fd (OFile (of_path f) (String.length content + String.length data) true))
          (set_fs (insert (of_path f) (content +:+ data)) w))).
Proof. intros Hf Ha Hc. unfold write. by rewrite Hf, Ha, Hc. Qed.

Lemma read_file fd size w f content :
  w_files w !! fd = Some f ->
  w_fs w !! of_path f = Some content ->
  read fd size w
  = (Ret (str_take size (str_drop (of_pos f) content)),
     log (EvRead fd (str_take size (str_drop (of_pos f) content)))
       (set_files
          (insert fd (OFile (of_path f)
                        (of_pos f + String.length (str_take size (str_drop (of_pos f) content)))
                        (of_append f))) w)).
Proof. intros Hf Hc. unfold read. by rewrite Hf, Hc. Qed.

Lemma rewind_file fd w f :
  w_files w !! fd = Some f ->
  rewind fd w
  = (Ret tt,
     log (EvLseek fd) (set_files (insert fd (OFile (of_path f) 0 (of_append f))) w)).
Proof. intros Hf. unfold rewind, set_files. by rewrite Hf. Qed.

End KernelFacts.

(** ** The pipeline engine *)

Section PipelineFacts.
Import Libc Kernel Tokenizer Shell Trace.

(** C7.  When [execvp] fails in the child of a pipeline stage or in the
    child of a profile, the child writes the line
    [mishell: <name>: <system error>] to its standard error and nothing else,
    and its branch ends in [exit (127)]: the parent reads a normal exit with
    code 127. *)
Theorem exec_failure_exits_127 e in_fd piped pipefd command save tmpfd timeout
    name rest err :
  parse_args command = name :: rest ->
  e_execvp e (name :: rest) = Some err ->
  let c1 := stage_child e in_fd piped pipefd command in
  let c2 := profiled_child e (name :: rest) save tmpfd timeout in
  (c_end c1 = CExit 127 /\ c_end c2 = CExit 127)
  /\ (child_writes e c1 = [(STDERR_FILENO, "mishell: " +:+ name +:+ ": " +:+ err +:+ nl)]
      /\ child_writes e c2 = [(STDERR_FILENO, "mishell: " +:+ name +:+ ": " +:+ err +:+ nl)])
  /\ (child_status e c1 = Some (exited 127) /\ child_status e c2 = Some (exited 127))
  /\ WIFEXITED (exited 127) = true /\ WEXITSTATUS (exited 127) = 127.
Proof.
  intros Hargs Hexec c1 c2. subst c1 c2.
  unfold stage_child, profiled_child. rewrite Hargs, Hexec.
  unfold child_writes, child_status; simpl.
  repeat split; try reflexivity.
  - destruct (bool_decide (in_fd ≠ STDIN_FILENO)), piped; reflexivity.
  - destruct save, (0 <? timeout); reflexivity.
Qed.

Lemma exec_failure_exits_127_witness :
  c_end (stage_child nowhere 0 false (-1, -1) "nosuchprogramxyz") = CExit 127
  /\ child_writes nowhere (stage_child nowhere 0 false (-1, -1) "nosuchprogramxyz")
     = [(STDERR_FILENO,
         "mishell: " +:+ "nosuchprogramxyz" +:+ ": " +:+ "No such file or directory" +:+ nl)]
  /\ WEXITSTATUS (exited 127) = 127.
Proof.
  destruct (exec_failure_exits_127 nowhere 0 false (-1, -1) "nosuchprogramxyz"
              false (-1) 0 "nosuchprogramxyz" [] "No such file or directory"
              eq_refl eq_refl) as ((H1 & _) & (H2 & _) & _ & _ & H3).
  split; [exact H1|]. split; [exact H2|exact H3].
Defined.

Example blank_stage_keeps_its_place :
  w_trace (interpret (calm quick) "a| |b" (boot ∅)).2
  = [EvPipe (Some (3, 4)); EvFork (Some 1000); EvClose 4;
     EvPipe (Some (4, 5)); EvFork (Some 1001); EvClose 3; EvClose 5;
     EvFork (Some 1002); EvClose 4;
     EvForeground 1000; EvWaitpid 1000 false (WDone 0);
     EvForeground 1001; EvWaitpid 1001 false (WDone 0);
     EvForeground 1002; EvWaitpid 1002 false (WDone 0);
     EvForeground 0].
Proof. vm_compute. reflexivity. Qed.

Lemma spawn_stage_general e i n in_fd command w :
  exists r w' evs,
    spawn_stage e i n in_fd command w = (Ret r, w')
    /\ w_trace w' = w_trace w ++ evs
    /\ Forall (fun ev => spawn_event ev = true) evs
    /\ current_child w' = current_child w.
Proof.
  unfold spawn_stage, pipe, fork, perror, emit, close. run.
  destruct (i <? n - 1); simpl;
    repeat (match goal with
            | |- context [e_fails e ?k] => destruct (e_fails e k); simpl
            end);
    destruct (bool_decide (in_fd ≠ STDIN_FILENO)); simpl;
    eexists _, _, _; (split; [reflexivity|]); simpl; rewrite <- ?app_assoc;
    (split; [reflexivity|]); (split; [|reflexivity]);
    repeat constructor.
Qed.

Lemma spawn_loop_general e commands :
  forall i n in_fd pids w,
  exists r w' evs,
    spawn_loop e commands i n in_fd pids w = (Ret r, w')
    /\ w_trace w' = w_trace w ++ evs
    /\ Forall (fun ev => spawn_event ev = true) evs
    /\ current_child w' = current_child w
    /\ (forall pids', r = Some pids' -> length pids' = (length pids + length commands)%nat).
Proof.
  induction commands as [|command rest IH]; intros i n in_fd pids w; simpl.
  - exists (Some pids), w, []. run. rewrite app_nil_r.
    repeat split; try done. intros ? [= <-]. lia.
  - run.
    destruct (spawn_stage_general e i n in_fd command w) as (r & w1 & evs1 & -> & Ht1 & Hf1 & Hc1).
    destruct r as [[pid in_fd']|].
    + destruct (IH (i + 1) n in_fd' (pids ++ [pid]) w1) as (r & w2 & evs2 & -> & Ht2 & Hf2 & Hc2 & Hl).
      exists r, w2, (evs1 ++ evs2). split; [done|].
      rewrite Ht2, Ht1, app_assoc. repeat split; try done.
      * by apply Forall_app.
      * congruence.
      * intros pids' ->. rewrite (Hl _ eq_refl), length_app. simpl. lia.
    + exists None, w1, evs1. repeat split; try done.
Qed.

Lemma wait_loop_ret e pids :
  forall status w st w',
  wait_loop e pids status w = (Ret st, w') ->
  exists results,
    length results = length pids
    /\ w_trace w' = w_trace w ++ waits (zip pids results)
    /\ st = foldl (fun s r => match r with WDone x => x | _ => s end) status results
    /\ w_fds w' = w_fds w.
Proof.
  induction pids as [|pid rest IH]; intros status w st w'; simpl.
  - run. intros [= <- <-]. exists []. by rewrite app_nil_r.
  - unfold set_current_child. run. simpl.
    destruct (waitpid e pid false _) as [r w1] eqn:Hw.
    apply waitpid_cases in Hw. destruct r as [res| | |]; try done.
    destruct Hw as (Ht & Hf & Hc). simpl in *.
    intros Hrest. apply IH in Hrest as (results & Hlen & Ht' & Hst & Hf').
    exists (res :: results). simpl. rewrite Hlen, Ht', Ht, Hf', Hf.
    rewrite <- !app_assoc. done.
Qed.

Lemma wait_loop_general e pids :
  forall status w,
  exists evs,
    w_trace (wait_loop e pids status w).2 = w_trace w ++ evs
    /\ Forall (fun ev => spawn_event ev = false) evs
    /\ w_fds (wait_loop e pids status w).2 = w_fds w.
Proof.
  induction pids as [|pid rest IH]; intros status w; simpl.
  - exists []. by rewrite app_nil_r.
  - unfold set_current_child. run. simpl.
    destruct (waitpid e pid false _) as [r w1] eqn:Hw.
    apply waitpid_cases in Hw. destruct r as [res| | |]; try done.
    + destruct Hw as (Ht & Hf & _). simpl in *.
      match goal with |- context [wait_loop e rest ?s w1] =>
        destruct (IH s w1) as (evs & Ht' & Hall & Hf')
      end.
      eexists. rewrite Ht', Ht, Hf', Hf, <- !app_assoc. simpl.
      split; [reflexivity|]. split; [|done]. by repeat constructor.
    + subst w1. simpl. eexists. split; [reflexivity|]. split; [|done]. by repeat constructor.
    + subst w1. simpl. eexists. split; [reflexivity|]. split; [|done]. by repeat constructor.
Qed.

Lemma execute_pipeline_ret e commands w st w' :
  execute_pipeline e commands w = (Ret st, w') ->
  exists spawn,
    Forall (fun ev => spawn_event ev = true) spawn
    /\ ((w_trace w' = w_trace w ++ spawn /\ current_child w' = current_child w)
        \/ exists pids results,
             length pids = length commands
             /\ length results = length pids
             /\ w_trace w' = w_trace w ++ spawn ++ waits (zip pids results) ++ [EvForeground 0]
             /\ st = last_status 0 results
             /\ current_child w' = 0).
Proof.
  unfold execute_pipeline. run. intros H.
  destruct (spawn_loop_general e commands 0 (Z.of_nat (length commands)) STDIN_FILENO [] w)
    as (r & w1 & spawn & Hs & Ht & Hf & Hc & Hl).
  rewrite Hs in H.
  exists spawn. split; [done|]. destruct r as [pids|].
  - destruct (wait_loop e pids 0 w1) as [r2 w2] eqn:Hw.
    destruct r2 as [st2| | |]; try done.
    apply wait_loop_ret in Hw as (results & Hlen & Ht2 & Hst & _).
    unfold set_current_child in H. simpl in H. injection H as <- <-. right.
    exists pids, results. simpl. rewrite Ht2, Ht, <- !app_assoc.
    pose proof (Hl _ eq_refl) as Hl'. simpl in Hl'. done.
  - injection H as <- <-. left. auto.
Qed.

Lemma slot_kept_after_first_wait :
  let tr := w_trace (execute_pipeline (calm quick) ["a"; "b"] (boot ∅)).2 in
  ~ cleared_after_each_wait tr
  /\ slot_after 0 (take 7 tr) = 1000
  /\ 1000 ∈ reaped (take 7 tr).
Proof.
  split; [|split].
  - intros H.
    destruct (H [EvPipe (Some (3, 4)); EvFork (Some 1000); EvClose 4; EvFork (Some 1001);
                 EvClose 3; EvForeground 1000] 1000 false (WDone 0) _ eq_refl)
      as [post' Hpost].
    vm_compute in Hpost. discriminate.
  - vm_compute. reflexivity.
  - vm_compute. apply elem_of_cons. by left.
Qed.

Lemma forks_until_close_app fd (a b : list event) k :
  forks_until_close fd a = Some k -> forks_until_close fd (a ++ b) = Some k.
Proof.
  revert k. induction a as [|ev a IH]; intros k; simpl; [done|].
  destruct ev as [| [pid|] | fd' | | | | | | | | | | | | | | |]; simpl; auto.
  - destruct (forks_until_close fd a) as [j|]; simpl; [|done].
    intros [= <-]. by rewrite (IH j).
  - case_bool_decide; auto.
Qed.

Lemma forks_until_close_close_in fd in_fd tr :
  fd ≠ in_fd ->
  forks_until_close fd (close_in in_fd ++ tr) = forks_until_close fd tr.
Proof.
  intros Hne. unfold close_in. case_bool_decide; simpl; [|done].
  by rewrite bool_decide_eq_false_2.
Qed.

Lemma channels_ok_close_in in_fd tr :
  channels_ok (close_in in_fd ++ tr) <-> channels_ok tr.
Proof. unfold close_in. by case_bool_decide. Qed.

Lemma channels_ok_app (a b : list event) :
  channels_ok a -> Forall (fun ev => spawn_event ev = false) b -> channels_ok (a ++ b).
Proof.
  intros Ha Hb. induction a as [|ev a IH]; simpl.
  - induction Hb as [|ev b Hev _ IHb]; simpl; [done|].
    by destruct ev as [[[]|]| | | | | | | | | | | | | | | | |].
  - destruct ev as [[[r wr]|]| | | | | | | | | | | | | | | | |]; simpl in *; auto.
    destruct Ha as (H1 & H2 & H3). auto using forks_until_close_app.
Qed.

Lemma channels_ok_ends tr : channels_ok tr -> channel_ends_closed tr.
Proof.
  intros Hok pre. revert tr Hok.
  induction pre as [|ev pre IH]; intros tr Hok r wr post ->; simpl in *.
  - tauto.
  - apply (IH (pre ++ EvPipe (Some (r, wr)) :: post)); [|done].
    by destruct ev as [[[]|]| | | | | | | | | | | | | | | | |]; simpl in *; try tauto.
Qed.

Lemma spawn_stage_piped e i n in_fd command w :
  (forall k, e_fails e k = false) ->
  (i <? n - 1) = true ->
  let r := lowest_free (w_fds w) in
  let wr := lowest_free (r :: w_fds w) in
  exists w',
    spawn_stage e i n in_fd command w = (Ret (Some (w_next_pid w, r)), w')
    /\ w_trace w' = w_trace w ++ EvPipe (Some (r, wr)) :: EvFork (Some (w_next_pid w))
                                :: close_in in_fd ++ [EvClose wr]
    /\ w_fds w' = filter (fun x => x ≠ wr)
                    (if bool_decide (in_fd ≠ STDIN_FILENO)
                     then filter (fun x => x ≠ in_fd) (wr :: r :: w_fds w)
                     else wr :: r :: w_fds w).
Proof.
  intros Hno Hi r wr.
  unfold spawn_stage, pipe, fork, close, close_in. run. rewrite Hi, Hno. simpl.
  rewrite Hno. simpl.
  case_bool_decide; simpl; eexists; (split; [reflexivity|]); simpl;
    rewrite <- ?app_assoc; done.
Qed.

Lemma spawn_stage_last e i n in_fd command w :
  (forall k, e_fails e k = false) ->
  (i <? n - 1) = false ->
  exists w',
    spawn_stage e i n in_fd command w = (Ret (Some (w_next_pid w, in_fd)), w')
    /\ w_trace w' = w_trace w ++ EvFork (Some (w_next_pid w)) :: close_in in_fd
    /\ w_fds w' = (if bool_decide (in_fd ≠ STDIN_FILENO)
                   then filter (fun x => x ≠ in_fd) (w_fds w)
                   else w_fds w).
Proof.
  intros Hno Hi.
  unfold spawn_stage, pipe, fork, close, close_in. run. rewrite Hi. simpl.
  rewrite Hno. simpl.
  case_bool_decide; simpl; eexists; (split; [reflexivity|]); simpl;
    rewrite <- ?app_assoc; done.
Qed.

Lemma spawn_loop_channels e F commands :
  (forall k, e_fails e k = false) ->
  STDIN_FILENO ∈ F ->
  commands <> [] ->
  forall i n in_fd pids w,
  Z.of_nat (length commands) + i = n ->
  between_stages F in_fd w ->
  exists pids' w' evs,
    spawn_loop e commands i n in_fd pids w = (Ret (Some pids'), w')
    /\ w_trace w' = w_trace w ++ evs
    /\ w_fds w' = F
    /\ channels_ok evs
    /\ (in_fd ≠ STDIN_FILENO -> forks_until_close in_fd evs = Some 1%nat).
Proof.
  intros Hno H0 Hne.
  induction commands as [|command rest IH]; [done|].
  intros i n in_fd pids w Hn Hinv. simpl. run.
  destruct (decide (rest = [])) as [->|Hrest].
  - assert ((i <? n - 1) = false) as Hi by (simpl in Hn; lia).
    destruct (spawn_stage_last e i n in_fd command w Hno Hi) as (w1 & -> & Ht & Hf).
    simpl. eexists _, w1, _. split; [reflexivity|]. split; [exact Ht|].
    unfold close_in. destruct Hinv as [[-> HF]|(Hin & HnF & HF)].
    + rewrite bool_decide_eq_false_2 in Hf |- * by (intros ?; done).
      simpl. repeat split; try done. congruence.
    + rewrite bool_decide_eq_true_2 in Hf |- * by done. simpl.
      rewrite bool_decide_eq_true_2 by done.
      repeat split; try done.
      rewrite Hf, HF, filter_cons_False by (intros ?; done).
      by apply filter_ne_fresh.
  - assert ((i <? n - 1) = true) as Hi.
    { destruct rest; [done|]. simpl in Hn. lia. }
    destruct (spawn_stage_piped e i n in_fd command w Hno Hi) as (w1 & -> & Ht & Hf).
    set (r := lowest_free (w_fds w)) in *.
    set (wr := lowest_free (r :: w_fds w)) in *.
    pose proof (lowest_free_fresh (w_fds w)) as Hr. fold r in Hr.
    pose proof (lowest_free_fresh (r :: w_fds w)) as Hwr. fold wr in Hwr.
    apply not_elem_of_cons in Hwr as [Hwr_r Hwr].
    assert (STDIN_FILENO ∈ w_fds w) as H0w.
    { destruct Hinv as [[_ ->]|(_ & _ & ->)]; [done|apply elem_of_cons; by right]. }
    assert (r ≠ STDIN_FILENO) as Hr0 by (intros Heq; apply Hr; by rewrite Heq).
    assert (in_fd ≠ r /\ in_fd ≠ wr) as [Hir Hiw].
    { destruct Hinv as [[-> _]|(_ & _ & HF)].
      - split; intros Heq; [apply Hr|apply Hwr]; by rewrite <- Heq.
      - split; intros Heq; [apply Hr|apply Hwr]; rewrite <- Heq, HF; apply elem_of_cons; by left. }
    assert (between_stages F r w1) as Hinv1.
    { right. split; [done|]. destruct Hinv as [[-> HF]|(Hin & HnF & HF)].
      - rewrite bool_decide_eq_false_2 in Hf by (intros ?; done).
        rewrite HF in *. split; [done|].
        rewrite Hf, filter_cons_False by (intros ?; done).
        rewrite filter_cons_True by done. by rewrite filter_ne_fresh.
      - rewrite bool_decide_eq_true_2 in Hf by done. rewrite HF in *.
        apply not_elem_of_cons in Hr as [? Hr]. apply not_elem_of_cons in Hwr as [? Hwr].
        split; [done|]. rewrite Hf.
        rewrite (filter_cons_True (fun x => x ≠ in_fd)) by done.
        rewrite (filter_cons_True (fun x => x ≠ in_fd)) by done.
        rewrite (filter_cons_False (fun x => x ≠ in_fd)) by (intros ?; done).
        rewrite (filter_ne_fresh in_fd) by done.
        rewrite filter_cons_False by (intros ?; done).
        rewrite filter_cons_True by done. by rewrite filter_ne_fresh. }
    simpl.
    destruct (IH Hrest (i + 1) n r (pids ++ [w_next_pid w]) w1) as (pids' & w2 & evs & -> & Ht2 & Hf2 & Hok & Hclose);
      [simpl in Hn; lia|done|].
    eexists pids', w2, _. split; [reflexivity|].
    split; [rewrite Ht2, Ht, <- app_assoc; reflexivity|].
    split; [done|]. simpl. rewrite <- !app_assoc.
    rewrite !forks_until_close_close_in by done. simpl.
    rewrite bool_decide_eq_true_2 by done.
    rewrite (bool_decide_eq_false_2 (wr = r)) by done.
    rewrite (Hclose Hr0). simpl. split.
    + repeat split; try done. apply channels_ok_close_in. done.
    + intros Hin. unfold close_in. rewrite bool_decide_eq_true_2 by done. simpl.
      by rewrite bool_decide_eq_true_2.
Qed.

(** C2 (amended).  When no call fails and standard input is open, the
    parent closes the write end of every channel once one child, the stage
    that writes to it, has been forked since the channel was made, hence
    before the next stage is forked, and closes the read end right after that
    next stage is forked; when [execute_pipeline] ends the shell holds the
    descriptors it held at the call and no other. *)
Theorem channel_ends_discipline e commands w :
  (forall k, e_fails e k = false) ->
  STDIN_FILENO ∈ w_fds w ->
  exists evs,
    w_trace (execute_pipeline e commands w).2 = w_trace w ++ evs
    /\ channel_ends_closed evs
    /\ w_fds (execute_pipeline e commands w).2 = w_fds w.
Proof.
  intros Hno H0. unfold execute_pipeline. run.
  assert (exists pids w1 evs,
    spawn_loop e commands 0 (Z.of_nat (length commands)) STDIN_FILENO [] w
    = (Ret (Some pids), w1)
    /\ w_trace w1 = w_trace w ++ evs /\ w_fds w1 = w_fds w /\ channels_ok evs)
    as (pids & w1 & evs & -> & Ht & Hf & Hok).
  { destruct (decide (commands = [])) as [->|Hne].
    - exists [], w, []. simpl. by rewrite app_nil_r.
    - destruct (spawn_loop_channels e (w_fds w) commands Hno H0 Hne
                  0 (Z.of_nat (length commands)) STDIN_FILENO [] w)
        as (pids & w1 & evs & Hrun & Ht & Hf & Hok & _); [lia|by left|].
      by exists pids, w1, evs. }
  destruct (wait_loop_general e pids 0 w1) as (evs2 & Ht2 & Hall & Hf2).
  destruct (wait_loop e pids 0 w1) as [r w2]. simpl in *.
  destruct r as [st| | |]; simpl.
  - exists (evs ++ evs2 ++ [EvForeground 0]).
    rewrite Ht2, Ht, Hf2, Hf, <- !app_assoc. split; [done|]. split; [|done].
    apply channels_ok_ends, channels_ok_app; [done|].
    apply Forall_app. split; [done|]. by repeat constructor.
  - exists (evs ++ evs2). rewrite Ht2, Ht, Hf2, Hf, <- !app_assoc.
    split; [done|]. split; [|done]. by apply channels_ok_ends, channels_ok_app.
  - exists (evs ++ evs2). rewrite Ht2, Ht, Hf2, Hf, <- !app_assoc.
    split; [done|]. split; [|done]. by apply channels_ok_ends, channels_ok_app.
  - exists (evs ++ evs2). rewrite Ht2, Ht, Hf2, Hf, <- !app_assoc.
    split; [done|]. split; [|done]. by apply channels_ok_ends, channels_ok_app.
Qed.

Lemma channel_ends_discipline_witness :
  exists evs,
    w_trace (execute_pipeline (calm quick) ["a"; "b"; "c"] (boot ∅)).2
    = w_trace (boot ∅) ++ evs
    /\ channel_ends_closed evs
    /\ w_fds (execute_pipeline (calm quick) ["a"; "b"; "c"] (boot ∅)).2 = [0; 1; 2].
Proof.
  apply (channel_ends_discipline (calm quick) ["a"; "b"; "c"] (boot ∅)).
  - reflexivity.
  - simpl. apply elem_of_cons. by left.
Defined.

Lemma write_end_closed_before_reader_fork :
  w_trace (execute_pipeline (calm quick) ["a"; "b"] (boot ∅)).2
  = [EvPipe (Some (3, 4)); EvFork (Some 1000); EvClose 4; EvFork (Some 1001);
     EvClose 3; EvForeground 1000; EvWaitpid 1000 false (WDone 0);
     EvForeground 1001; EvWaitpid 1001 false (WDone 0); EvForeground 0]
  /\ ~ write_end_closed_after_reader_fork
       (w_trace (execute_pipeline (calm quick) ["a"; "b"] (boot ∅)).2).
Proof.
  split; [vm_compute; reflexivity|].
  intros H. specialize (H [] 3 4 _ eq_refl). vm_compute in H. discriminate.
Qed.

End PipelineFacts.

(** ** The profiler *)

Section ProfilerFacts.
Import Libc Kernel Tokenizer Shell Trace.

Lemma save_block_open_fails e filename name tmpfd tmpname summary n w :
  e_fails e (length (w_trace w)) = true ->
  exists w',
    save_block e filename name tmpfd tmpname summary n w = (Ret tt, w')
    /\ w_trace w' = w_trace w ++ [EvOpenAppend filename None;
                                  EvPerror "abrir archivo de salida";
                                  EvClose tmpfd; EvUnlink tmpname]
    /\ w_fs w' = delete tmpname (w_fs w)
    /\ w_fds w' = filter (fun x => x ≠ tmpfd) (w_fds w).
Proof.
  intros Hfail. unfold save_block, open_append, perror, emit, close, unlink. run.
  rewrite Hfail. simpl. eexists. split; [reflexivity|]. simpl.
  by rewrite <- !app_assoc.
Qed.

Lemma land_writes_capture (files : gmap Z string) tmp ws :
  files !! STDOUT_FILENO = Some tmp ->
  files !! STDERR_FILENO = Some tmp ->
  (forall fd, fd ≠ STDOUT_FILENO -> fd ≠ STDERR_FILENO -> files !! fd = None) ->
  forall fs content,
  fs !! tmp = Some content ->
  land_writes files ws fs = <[tmp := content +:+ captured ws]> fs.
Proof.
  intros H1 H2 Hother. unfold land_writes.
  induction ws as [|[fd data] ws IH]; intros fs content Hc; simpl.
  - rewrite app_empty_r. by rewrite insert_id.
  - case_bool_decide as Hfd.
    + assert (files !! fd = Some tmp) as -> by (destruct Hfd as [->| ->]; done).
      unfold append_to at 2. rewrite Hc. simpl.
      rewrite (IH _ (content +:+ data)) by apply lookup_insert_eq.
      by rewrite insert_insert_eq, app_assoc_str.
    + rewrite Hother by (intros ->; apply Hfd; auto). by apply IH.
Qed.

Lemma capturing_child_files e argv tmpfd tmpname :
  tmpfd ≠ STDOUT_FILENO ->
  tmpfd ≠ STDERR_FILENO ->
  let files :=
    child_files (<[tmpfd := OFile tmpname 0 false]> ∅)
      (c_ops (profiled_child e argv true tmpfd 0)) in
  files !! STDOUT_FILENO = Some tmpname
  /\ files !! STDERR_FILENO = Some tmpname
  /\ (forall fd, fd ≠ STDOUT_FILENO -> fd ≠ STDERR_FILENO -> files !! fd = None).
Proof.
  intros H1 H2 files.
  assert (files = delete tmpfd (<[STDERR_FILENO := tmpname]>
                                  (<[STDOUT_FILENO := tmpname]> {[tmpfd := tmpname]})))
    as ->.
  { subst files. unfold child_files, profiled_child.
    rewrite fmap_insert, fmap_empty.
    destruct argv as [|name rest]; [|destruct (e_execvp e (name :: rest))]; simpl;
      rewrite lookup_insert_eq; rewrite lookup_insert_ne by done;
      rewrite lookup_insert_eq; done. }
  repeat split.
  - rewrite lookup_delete_ne by done. rewrite lookup_insert_ne by done.
    apply lookup_insert_eq.
  - rewrite lookup_delete_ne by done. apply lookup_insert_eq.
  - intros fd Hf1 Hf2. destruct (decide (fd = tmpfd)) as [->|Hne].
    + apply lookup_delete_eq.
    + rewrite lookup_delete_ne by done. rewrite !lookup_insert_ne by done.
      by apply lookup_singleton_ne.
Qed.

#[local] Opaque str_take str_drop read write.

Lemma copy_loop_copies (tmpfd outfd : Z) (tpath opath content : string) :
  tmpfd ≠ outfd ->
  tpath ≠ opath ->
  forall budget w pos opos ocontent,
  w_files w !! tmpfd = Some (OFile tpath pos false) ->
  w_files w !! outfd = Some (OFile opath opos true) ->
  w_fs w !! tpath = Some content ->
  w_fs w !! opath = Some ocontent ->
  (String.length content - pos <= budget)%nat ->
  exists w',
    copy_loop budget tmpfd outfd w = (Ret tt, w')
    /\ w_fs w' = <[opath := ocontent +:+ str_drop pos content]> (w_fs w)
    /\ w_fds w' = w_fds w
    /\ current_child w' = current_child w
    /\ (exists pos' opos',
          w_files w' = <[outfd := OFile opath opos' true]>
                         (<[tmpfd := OFile tpath pos' false]> (w_files w))).
Proof.
  intros Hfd Hpath.
  assert (forall budget w pos opos ocontent,
    w_files w !! tmpfd = Some (OFile tpath pos false) ->
    w_files w !! outfd = Some (OFile opath opos true) ->
    w_fs w !! tpath = Some content ->
    w_fs w !! opath = Some ocontent ->
    str_drop pos content = "" ->
    exists w',
      copy_loop budget tmpfd outfd w = (Ret tt, w')
      /\ w_fs w' = <[opath := ocontent +:+ str_drop pos content]> (w_fs w)
      /\ w_fds w' = w_fds w
      /\ current_child w' = current_child w
      /\ (exists pos' opos',
            w_files w' = <[outfd := OFile opath opos' true]>
                           (<[tmpfd := OFile tpath pos' false]> (w_files w)))) as Hend.
  { intros budget w pos opos ocontent Ht Ho Htc Hoc Hnil.
    assert (str_take 4096 (str_drop pos content) = "") as Hdata
      by (rewrite Hnil; apply str_take_nil).
    destruct budget; simpl; run; rewrite (read_file _ _ _ _ _ Ht Htc); simpl;
      rewrite Hdata; eexists; (split; [reflexivity|]); simpl;
      rewrite Hnil, app_empty_r;
      (split; [by rewrite insert_id|]); (split; [done|]); (split; [done|]);
      eexists _, opos; symmetry; apply insert_id;
      by rewrite lookup_insert_ne by done. }
  induction budget as [|budget IH]; intros w pos opos ocontent Ht Ho Htc Hoc Hlen.
  - apply Hend with (opos := opos); try done.
    pose proof (str_drop_length pos content).
    destruct (str_drop pos content); [done|simpl in *; lia].
  - destruct (str_take 4096 (str_drop pos content)) as [|c data] eqn:Hdata.
    + apply Hend with (opos := opos); try done.
      by apply (str_take_empty 4096).
    + simpl. run. rewrite (read_file _ _ _ _ _ Ht Htc). simpl. rewrite Hdata.
      erewrite write_append;
        [|simpl; rewrite lookup_insert_ne by done; exact Ho|done|exact Hoc].
      simpl.
      match goal with |- context [copy_loop budget tmpfd outfd ?w1] =>
        destruct (IH w1 (pos + String.length (String c data))%nat
                    (String.length ocontent + String.length (String c data))%nat
                    (ocontent +:+ String c data))
          as (w' & -> & Hfs & Hfds & Hcc & pos' & opos' & Hfiles)
      end.
      * simpl. rewrite lookup_insert_ne by done. by rewrite lookup_insert_eq.
      * simpl. by rewrite lookup_insert_eq.
      * simpl. by rewrite lookup_insert_ne.
      * simpl. by rewrite lookup_insert_eq.
      * pose proof (str_drop_length pos content) as Hl.
        pose proof (str_take_drop 4096 (str_drop pos content)) as Htd.
        rewrite Hdata in Htd. rewrite <- Htd in Hl. rewrite app_cons in Hl.
        simpl in Hl |- *. lia.
      * exists w'. split; [done|]. simpl in *. rewrite Hfs, Hfds, Hcc, Hfiles.
        rewrite insert_insert_eq. split.
        { f_equal. rewrite app_assoc_str. f_equal.
          change (S (String.length data)) with (String.length (String c data)).
          rewrite str_drop_add, <- Hdata, str_drop_take_length.
          apply str_take_drop. }
        split; [done|]. split; [done|].
        exists pos', opos'.
        apply map_eq. intros i.
        destruct (decide (i = outfd)) as [->|]; [by rewrite !lookup_insert_eq|].
        destruct (decide (i = tmpfd)) as [->|].
        { rewrite !(lookup_insert_ne _ outfd) by done. by rewrite !lookup_insert_eq. }
        by repeat (rewrite lookup_insert_ne by done).
Qed.

Lemma save_block_ok e filename name tmpfd tmpname summary n w captured pos :
  e_fails e (length (w_trace w)) = false ->
  w_files w !! tmpfd = Some (OFile tmpname pos false) ->
  tmpfd ∈ w_fds w ->
  w_fs w !! tmpname = Some captured ->
  filename ≠ tmpname ->
  0 <= n <= Z.of_nat (String.length summary) ->
  exists w',
    save_block e filename name tmpfd tmpname summary n w = (Ret tt, w')
    /\ w_fs w' = delete tmpname
                   (<[filename := default "" (w_fs w !! filename) +:+ append_header name
                                  +:+ captured +:+ str_take (Z.to_nat n) summary +:+ nl]>
                      (w_fs w))
    /\ w_fds w' = filter (fun x => x ≠ tmpfd) (w_fds w)
    /\ current_child w' = current_child w.
Proof.
  intros Hno Htmp Hin Hcap Hne Hn.
  unfold save_block, open_append. run. rewrite Hno.
  set (outfd := lowest_free (w_fds w)).
  assert (outfd ∉ w_fds w) as Hfresh by apply lowest_free_fresh.
  assert (tmpfd ≠ outfd) as Hfd by (intros ->; done).
  set (content0 := default "" (w_fs w !! filename)).
  match goal with |- context [write outfd (append_header name) ?x] =>
    set (w1 := x)
  end.
  assert (w_fs w1 !! filename = Some content0) as Hfs1.
  { subst w1 content0. simpl. destruct (w_fs w !! filename) eqn:Hf; simpl; [done|].
    by rewrite lookup_insert_eq. }
  assert (w_fs w1 !! tmpname = Some captured) as Hcap1.
  { subst w1. simpl. destruct (w_fs w !! filename) eqn:Hf; simpl; [done|].
    by rewrite lookup_insert_ne. }
  erewrite (write_append outfd (append_header name) w1);
    [|subst w1; simpl; apply lookup_insert_eq|done|exact Hfs1].
  cbv beta iota. cbn [of_path].
  match goal with |- context [rewind tmpfd ?x] => set (w2 := x) end.
  rewrite (rewind_file tmpfd w2 (OFile tmpname pos false))
    by (subst w2 w1; simpl; by rewrite !lookup_insert_ne by done).
  cbv beta iota. cbn [of_path of_append].
  match goal with |- context [bytes_left tmpfd ?x] => set (w3 := x) end.
  assert (w_files w3 !! tmpfd = Some (OFile tmpname 0 false)) as Htmp3
    by (subst w3; simpl; apply lookup_insert_eq).
  assert (w_fs w3 !! tmpname = Some captured) as Hcap3
    by (subst w3 w2; simpl; by rewrite lookup_insert_ne).
  destruct (copy_loop_copies tmpfd outfd tmpname filename captured Hfd (not_eq_sym Hne)
              (bytes_left tmpfd w3) w3 0%nat
              (String.length content0 + String.length (append_header name))%nat
              (content0 +:+ append_header name))
    as (w4 & Hcopy & Hfs4 & Hfds4 & Hcc4 & pos4 & opos4 & Hfiles4); try done.
  { subst w3 w2; simpl. rewrite lookup_insert_ne by done. apply lookup_insert_eq. }
  { subst w3 w2; simpl. apply lookup_insert_eq. }
  { unfold bytes_left. rewrite Htmp3. cbn [of_path of_pos]. rewrite Hcap3. simpl. lia. }
  cbv beta iota. rewrite Hcopy. cbv beta iota.
  unfold write_buf.
  rewrite (proj2 (andb_true_iff _ _) (conj (proj2 (Z.leb_le _ _) (proj1 Hn))
                                          (proj2 (Z.leb_le _ _) (proj2 Hn)))).
  erewrite (write_append outfd _ w4);
    [|rewrite Hfiles4; apply lookup_insert_eq|done|cbn [of_path]; rewrite Hfs4; apply lookup_insert_eq].
  cbn [of_path].
  match goal with |- context [write outfd nl ?x] => set (w5 := x) end.
  erewrite (write_append outfd nl w5);
    [|subst w5; simpl; apply lookup_insert_eq|done|subst w5; simpl; apply lookup_insert_eq].
  unfold close, unlink. simpl.
  eexists. split; [reflexivity|]. simpl.
  rewrite Hfs4, Hfds4, Hcc4. subst w3 w2 w1. simpl.
  split; [|split; [|done]].
  - f_equal. rewrite !insert_insert_eq, str_drop_0.
    rewrite !app_assoc_str.
    destruct (w_fs w !! filename) eqn:Hf; simpl; [done|].
    by rewrite insert_insert_eq.
  - rewrite filter_cons_False by (intros ?; done).
    by rewrite (filter_ne_fresh outfd).
Qed.

#[local] Opaque waitpid save_block snprintf make_summary lowest_free.
#[local] Arguments profiled_child : simpl never.

Lemma capture_prefix e filename name rest w d :
  (forall k, (k < length (w_trace w) + 7)%nat -> e_fails e k = false) ->
  w_files w = ∅ ->
  STDOUT_FILENO ∈ w_fds w ->
  STDERR_FILENO ∈ w_fds w ->
  w_fs w !! e_tmpname e = None ->
  let tmpfd := lowest_free (w_fds w) in
  let c := profiled_child e (name :: rest) true tmpfd 0 in
  let pid := w_next_pid w in
  child_lifetime e c = Some d ->
  exists st W,
    child_status e c = Some st
    /\ w_trace W = w_trace w ++ [EvMkstemp (Some (tmpfd, e_tmpname e)); EvClock;
                               EvFork (Some pid); EvForeground pid;
                               EvWaitpid pid false (WDone st); EvClock; EvRusage]
    /\ w_fs W = <[e_tmpname e := captured (child_writes e c)]> (w_fs w)
    /\ w_files W = {[tmpfd := OFile (e_tmpname e) 0 false]}
    /\ w_fds W = tmpfd :: w_fds w
    /\ run_and_profile e (name :: rest) true filename 0 w
       = (let '(summary, n) :=
            snprintf 1024
              (make_summary e name (e_clock e (length (w_trace w) + 1))
                 (e_clock e (length (w_trace w) + 5))
                 (e_rusage e (length (w_trace w) + 6)) st) in
          save_block e filename name tmpfd (e_tmpname e) summary n;;
          set_current_child 0;; mret st) W.
Proof.
  intros Hno Hfiles Hout Herr Hfresh tmpfd c pid Hlife.
  assert (exists st, child_status e c = Some st) as [st Hst].
  { subst c. unfold profiled_child, child_status.
    destruct (e_execvp e (name :: rest)); simpl; eauto. }
  assert (tmpfd ∉ w_fds w) as Htmp by apply lowest_free_fresh.
  assert (tmpfd ≠ STDOUT_FILENO) as Ht1 by (intros Heq; apply Htmp; by rewrite Heq).
  assert (tmpfd ≠ STDERR_FILENO) as Ht2 by (intros Heq; apply Htmp; by rewrite Heq).
  exists st.
  unfold run_and_profile, mkstemp, clock_gettime, fork, set_current_child, getrusage. run.
  rewrite Hno by lia. rewrite Hfresh. simpl. fold tmpfd.
  rewrite Hno by (rewrite !length_app; simpl; lia).
  simpl. fold c. fold pid. rewrite Hfiles.
  set (p := Proc c (w_clock w) (child_files (<[tmpfd := OFile (e_tmpname e) 0 false]> ∅) (c_ops c))
              false false).
  match goal with |- context [waitpid e pid false ?x] =>
    destruct (waitpid_blocks e pid p d st x) as (now & ->);
      [apply Hno; simpl; rewrite !length_app; simpl; lia
      |simpl; apply lookup_insert_eq|done|done|done|done|]
  end.
  simpl.
  destruct (capturing_child_files e (name :: rest) tmpfd (e_tmpname e) Ht1 Ht2)
    as (Hf1 & Hf2 & Hf3).
  fold c in Hf1, Hf2, Hf3.
  match goal with |- context [log EvRusage ?x] => set (W := log EvRusage x) end.
  exists W. split; [done|].
  split; [subst W; unfold reap; simpl; by rewrite <- !app_assoc|].
  split.
  { subst W. unfold reap. simpl.
    rewrite (land_writes_capture _ (e_tmpname e) _ Hf1 Hf2 Hf3 _ "")
      by apply lookup_insert_eq.
    by rewrite insert_insert_eq. }
  split; [subst W; unfold reap; simpl; rewrite Hfiles; apply insert_empty|].
  split; [subst W; unfold reap; simpl; done|].
  rewrite !length_app. simpl.
  rewrite (bool_decide_eq_true_2 (tmpfd ≠ -1))
    by (pose proof (lowest_free_nonneg (w_fds w)); subst tmpfd; lia).
  replace (length (w_trace w) + 1 + 1 + 1 + 1 + 1 + 1)%nat with (length (w_trace w) + 6)%nat by lia.
  replace (length (w_trace w) + 1 + 1 + 1 + 1 + 1)%nat with (length (w_trace w) + 5)%nat by lia.
  reflexivity.
Qed.



(** C8.  When the [open] of the target file is the call that fails in an
    [ejecsave] run, the failure is reported with [perror], nothing is written
    to any file, the temporary file is closed and unlinked, so that the file
    system and the descriptors are as before the call, and the status
    returned is the one of the child, which was forked and reaped before the
    [open]. *)
Theorem ejecsave_open_failure e filename name rest w d :
  let tmpfd := lowest_free (w_fds w) in
  let pid := w_next_pid w in
  let c := profiled_child e (name :: rest) true tmpfd 0 in
  let st := default 0 (child_status e c) in
  (forall k, e_fails e k = bool_decide (k = length (w_trace w) + 7)%nat) ->
  w_files w = ∅ ->
  STDOUT_FILENO ∈ w_fds w ->
  STDERR_FILENO ∈ w_fds w ->
  w_fs w !! e_tmpname e = None ->
  child_lifetime e c = Some d ->
  exists w',
    run_and_profile e (name :: rest) true filename 0 w = (Ret st, w')
    /\ w_trace w' = w_trace w ++ [EvMkstemp (Some (tmpfd, e_tmpname e)); EvClock;
                                  EvFork (Some pid); EvForeground pid;
                                  EvWaitpid pid false (WDone st); EvClock; EvRusage;
                                  EvOpenAppend filename None;
                                  EvPerror "abrir archivo de salida";
                                  EvClose tmpfd; EvUnlink (e_tmpname e);
                                  EvForeground 0]
    /\ w_fs w' = w_fs w
    /\ w_fds w' = w_fds w
    /\ current_child w' = 0.
Proof.
  intros tmpfd pid c st Hfail Hfiles Hout Herr Hfresh Hlife.
  destruct (capture_prefix e filename name rest w d) as (st' & W & Hst & Ht & Hfs & Hfi & Hfds & ->);
    try done.
  { intros k Hk. rewrite Hfail. apply bool_decide_eq_false_2. lia. }
  fold tmpfd c pid in Hst, Ht, Hfs, Hfi, Hfds |- *.
  assert (st' = st) as -> by (subst st; by rewrite Hst).
  destruct (snprintf 1024 _) as [summary n].
  run.
  destruct (save_block_open_fails e filename name tmpfd (e_tmpname e) summary n W)
    as (w1 & -> & Ht1 & Hfs1 & Hfds1).
  - rewrite Hfail, Ht, length_app. simpl. by apply bool_decide_eq_true_2.
  - unfold set_current_child. simpl. eexists. split; [reflexivity|]. simpl.
    rewrite Ht1, Ht, Hfs1, Hfs, Hfds1, Hfds, <- !app_assoc. simpl.
    split; [done|]. split; [|split; [|done]].
    + rewrite delete_insert_eq. by rewrite delete_id.
    + rewrite filter_cons_False by (intros ?; done).
      apply filter_ne_fresh, lowest_free_fresh.
Qed.

Lemma ejecsave_open_failure_witness :
  exists w',
    run_and_profile (open_refused chatty) ["ls"] true "log" 0 (boot {["log" := "old"]})
    = (Ret (exited 3), w')
    /\ w_trace w'
       = w_trace (boot {["log" := "old"]})
         ++ [EvMkstemp (Some (3, "/tmp/miprof_out_k3Xw9q")); EvClock;
             EvFork (Some 1000); EvForeground 1000;
             EvWaitpid 1000 false (WDone (exited 3)); EvClock; EvRusage;
             EvOpenAppend "log" None; EvPerror "abrir archivo de salida";
             EvClose 3; EvUnlink "/tmp/miprof_out_k3Xw9q"; EvForeground 0]
    /\ w_fs w' = {["log" := "old"]}
    /\ w_fds w' = [0; 1; 2]
    /\ current_child w' = 0.
Proof.
  destruct (ejecsave_open_failure (open_refused chatty) "log" "ls" []
              (boot {["log" := "old"]}) 2)
    as (w' & Hrun & Ht & Hfs & Hfds & Hcc).
  - intros k. reflexivity.
  - reflexivity.
  - apply list_elem_of_In. simpl. tauto.
  - apply list_elem_of_In. simpl. tauto.
  - vm_compute. reflexivity.
  - reflexivity.
  - exists w'. split; [rewrite Hrun; vm_compute; reflexivity|].
    split; [rewrite Ht; vm_compute; reflexivity|].
    split; [exact Hfs|]. split; [rewrite Hfds; reflexivity|exact Hcc].
Defined.

Lemma blocking_profile_trace e argv secs w :
  secs <= 0 ->
  exists evs,
    w_trace (run_and_profile e argv false EmptyString secs w).2 = w_trace w ++ evs
    /\ Forall (fun ev => timeout_free ev = true) evs.
Proof.
  intros Hsecs.
  unfold run_and_profile, clock_gettime, fork, perror, emit, set_current_child, getrusage. run.
  rewrite (proj2 (Z.ltb_ge 0 secs) Hsecs). simpl.
  destruct (e_fails e _); simpl.
  { eexists. rewrite <- !app_assoc. split; [reflexivity|]. by repeat constructor. }
  match goal with |- context [waitpid e ?pid false ?x] =>
    destruct (waitpid e pid false x) as [r w1] eqn:Hw; apply waitpid_cases in Hw
  end.
  destruct r as [res| | |]; try done; simpl in *.
  - destruct Hw as (Ht & _).
    match goal with |- context [snprintf 1024 ?x] =>
      destruct (snprintf 1024 x) as [summary n]
    end.
    unfold write_buf.
    match goal with |- context [if ?b then write _ _ else undef] => destruct b end.
    + match goal with |- context [write ?fd ?data ?x] =>
        destruct (write_cases fd data x) as (w3 & -> & Ht3 & _)
      end.
      simpl in *. rewrite Ht3, Ht, <- !app_assoc. simpl.
      eexists. split; [reflexivity|]. by repeat constructor.
    + simpl. rewrite Ht, <- !app_assoc. simpl.
      eexists. split; [reflexivity|]. by repeat constructor.
  - subst w1. simpl. rewrite <- !app_assoc. simpl.
    eexists. split; [reflexivity|]. by repeat constructor.
  - subst w1. simpl. rewrite <- !app_assoc. simpl.
    eexists. split; [reflexivity|]. by repeat constructor.
Qed.

End ProfilerFacts.

(** * Further properties *)

(** ** Further properties of the tokenizer *)

Section TextFacts.
Import Tokenizer Text.

Lemma all_blank_cons c r :
  all_blank (String c r) = (is_blank c && all_blank r)%bool.
Proof. reflexivity. Qed.

Lemma skip_blank_split s :
  exists lead, s = lead +:+ skip_blank s /\ all_blank lead = true.
Proof.
  induction s as [|c r IH]; simpl.
  - by exists "".
  - destruct (is_blank c) eqn:Hc.
    + destruct IH as (lead & Hr & Hl). exists (String c lead).
      rewrite app_cons, <- Hr, all_blank_cons, Hc, Hl. done.
    + by exists "".
Qed.

Lemma chop_blank_split r :
  exists trail, r = chop_blank r +:+ trail /\ all_blank trail = true.
Proof.
  induction r as [|c r IH]; simpl.
  - by exists "".
  - destruct IH as (trail & Hr & Ht).
    destruct (chop_blank r) as [|c' r'] eqn:Hchop.
    + destruct (is_blank c) eqn:Hc.
      * exists (String c r). split; [done|].
        rewrite all_blank_cons, Hc. simpl. by rewrite Hr.
      * exists trail. rewrite app_cons. simpl. split; [by rewrite Hr at 1|done].
    + exists trail. rewrite !app_cons. split; [|done].
      rewrite Hr at 1. by rewrite app_cons.
Qed.

Lemma skip_blank_head s c r : skip_blank s = String c r -> is_blank c = false.
Proof.
  induction s as [|c' r' IH]; simpl; [done|].
  destruct (is_blank c') eqn:Hc; [done|]. by intros [= <- <-].
Qed.

Lemma chop_blank_last r c : last_char (chop_blank r) = Some c -> is_blank c = false.
Proof.
  revert c. induction r as [|c' r IH]; intros c; simpl; [done|].
  destruct (chop_blank r) as [|c2 r2] eqn:Hchop.
  - destruct (is_blank c') eqn:Hc; simpl; [done|]. by intros [= <-].
  - intros H. apply IH. exact H.
Qed.

Lemma trim_trimmed s : trimmed (trim s).
Proof.
  unfold trimmed, trim. destruct (skip_blank s) as [|c r] eqn:Hs; [done|].
  apply skip_blank_head in Hs. split.
  - by intros ? [= <-].
  - intros x. simpl. destruct (chop_blank r) as [|c2 r2] eqn:Hchop.
    + by intros [= <-].
    + rewrite <- Hchop. apply chop_blank_last.
Qed.

Lemma trim_split s :
  exists lead trail,
    s = lead +:+ trim s +:+ trail
    /\ all_blank lead = true /\ all_blank trail = true.
Proof.
  destruct (skip_blank_split s) as (lead & Hs & Hl). unfold trim.
  destruct (skip_blank s) as [|c r] eqn:Hskip.
  - exists lead, "". by rewrite Hs at 1.
  - destruct (chop_blank_split r) as (trail & Hr & Ht).
    exists lead, trail. split; [|done].
    rewrite Hs at 1. by rewrite app_cons, <- Hr.
Qed.

Lemma chop_blank_idem r : chop_blank (chop_blank r) = chop_blank r.
Proof.
  induction r as [|c r IH]; simpl; [done|].
  destruct (chop_blank r) as [|c2 r2] eqn:Hchop.
  - destruct (is_blank c) eqn:Hc; simpl; [done|]. by rewrite Hc.
  - simpl in *. rewrite IH. done.
Qed.

Lemma trimmed_fixed s : trimmed s -> trim s = s.
Proof.
  intros [Hh Hl]. destruct s as [|c r]; [done|].
  unfold trim. simpl. rewrite (Hh c eq_refl). f_equal.
  clear Hh. revert c Hl. induction r as [|c2 r IH]; intros c Hl; simpl; [done|].
  rewrite (IH c2) by (intros x Hx; apply Hl; simpl in *; exact Hx).
  destruct r as [|c3 r]; [|done].
  by rewrite (Hl c2 eq_refl).
Qed.

Lemma trim_idem s : trim (trim s) = trim s.
Proof. apply trimmed_fixed, trim_trimmed. Qed.

(** X1.  [trim] removes blanks at both ends and nothing else: the input is
    the result with a run of blanks before it and a run of blanks after it,
    the result neither starts nor ends with a blank, and a string that
    neither starts nor ends with a blank is returned as it is. *)
Theorem trim_strips_both_ends s :
  (exists lead trail,
     s = lead +:+ trim s +:+ trail
     /\ all_blank lead = true /\ all_blank trail = true)
  /\ trimmed (trim s)
  /\ (forall t, trimmed t -> trim t = t).
Proof.
  split; [apply trim_split|]. split; [apply trim_trimmed|apply trimmed_fixed].
Qed.

End TextFacts.

Section PiecesFacts.
Variable delim : ascii -> bool.
Import Tokenizer Text.

Lemma has_cons cls c r : has cls (String c r) = (cls c || has cls r)%bool.
Proof. reflexivity. Qed.

Lemma has_app cls a b : has cls (a +:+ b) = (has cls a || has cls b)%bool.
Proof.
  induction a as [|c a IH]; [done|].
  rewrite app_cons, !has_cons, IH. by rewrite orb_assoc.
Qed.

Lemma pieces_app a d b :
  delim d = true ->
  pieces delim (a +:+ String d b) = pieces delim a ++ pieces delim b.
Proof.
  intros Hd. induction a as [|c a IH].
  - simpl. by rewrite Hd.
  - rewrite app_cons. simpl. rewrite IH.
    destruct (delim c); [done|].
    by destruct (pieces_cons delim a) as (p & ps & ->).
Qed.

Lemma pieces_plain s : has delim s = false -> pieces delim s = [s].
Proof.
  induction s as [|c r IH]; [done|].
  rewrite has_cons. intros [Hc Hr]%orb_false_elim. simpl.
  by rewrite Hc, IH.
Qed.

Lemma pieces_free s : Forall (fun p => has delim p = false) (pieces delim s).
Proof.
  induction s as [|c r IH]; simpl.
  - by repeat constructor.
  - destruct (delim c) eqn:Hc.
    + by constructor.
    + destruct (pieces delim r) as [|p ps].
      * repeat constructor. by rewrite has_cons, Hc.
      * inversion IH; subst. constructor; [|done]. by rewrite has_cons, Hc.
Qed.

Lemma tokens_app a d b :
  delim d = true ->
  tokens delim (a +:+ String d b) = tokens delim a ++ tokens delim b.
Proof. intros Hd. unfold tokens. by rewrite pieces_app, filter_app. Qed.

Lemma tokens_delim_cons d b : delim d = true -> tokens delim (String d b) = tokens delim b.
Proof. intros Hd. apply (tokens_app "" d b Hd). Qed.

Lemma tokens_plain s : s <> "" -> has delim s = false -> tokens delim s = [s].
Proof.
  intros Hs Hd. unfold tokens. rewrite pieces_plain by done.
  rewrite filter_cons_True; [done|]. by destruct s.
Qed.

Lemma tokens_nil : tokens delim "" = [].
Proof. reflexivity. Qed.

Lemma tokens_free s :
  Forall (fun p => p <> "" /\ has delim p = false) (tokens delim s).
Proof.
  unfold tokens. apply Forall_forall. intros p [Hne Hin]%list_elem_of_filter.
  split; [by destruct p|].
  by apply (proj1 (Forall_forall _ _) (pieces_free s)).
Qed.

Lemma tokens_join d l :
  delim d = true ->
  Forall (fun p => p <> "" /\ has delim p = false) l ->
  tokens delim (join d l) = l.
Proof.
  intros Hd. induction 1 as [|x l [Hx Hf] Hl IH]; [done|].
  destruct l as [|y l].
  - simpl. by apply tokens_plain.
  - change (join d (x :: y :: l)) with (x +:+ String d (join d (y :: l))).
    rewrite tokens_app, IH, tokens_plain by done. done.
Qed.

End PiecesFacts.

Section TrimTokens.
Import Tokenizer Text.

Lemma all_blank_has_not s :
  all_blank s = true -> forall delim, (forall c, is_blank c = true -> delim c = true) ->
  tokens delim s = [].
Proof.
  intros Hs delim Hd. induction s as [|c r IH]; [done|].
  rewrite all_blank_cons in Hs. apply andb_prop in Hs as [Hc Hr].
  rewrite tokens_delim_cons by auto. auto.
Qed.

Lemma tokens_lead delim lead s :
  (forall c, is_blank c = true -> delim c = true) ->
  all_blank lead = true -> tokens delim (lead +:+ s) = tokens delim s.
Proof.
  intros Hd. induction lead as [|c r IH]; [done|].
  rewrite all_blank_cons. intros [Hc Hr]%andb_prop.
  rewrite app_cons, tokens_delim_cons by auto. auto.
Qed.

Lemma tokens_trail delim s trail :
  (forall c, is_blank c = true -> delim c = true) ->
  all_blank trail = true -> tokens delim (s +:+ trail) = tokens delim s.
Proof.
  intros Hd. destruct trail as [|c r]; [by rewrite app_empty_r|].
  rewrite all_blank_cons. intros [Hc Hr]%andb_prop.
  rewrite tokens_app by auto.
  rewrite (all_blank_has_not r Hr delim Hd). by rewrite app_nil_r.
Qed.

Lemma tokens_trim s : tokens is_blank (trim s) = tokens is_blank s.
Proof.
  destruct (trim_split s) as (lead & trail & Hs & Hl & Ht).
  rewrite Hs at 2.
  rewrite tokens_lead, tokens_trail by done. done.
Qed.

Lemma args_loop_tokens room s :
  args_loop room (strtok_r is_blank s) = take room (tokens is_blank s).
Proof.
  revert s. induction room as [|room IH]; intros s; simpl.
  - by destruct (strtok_r is_blank s) as [[]|].
  - pose proof (strtok_r_tokens is_blank s) as H.
    destruct (strtok_r is_blank s) as [[t save]|]; rewrite H; simpl; [|done].
    by rewrite IH.
Qed.

Lemma parse_args_tokens s : parse_args s = take MAX_TOKENS (tokens is_blank s).
Proof. apply args_loop_tokens. Qed.

(** X2.  [parse_args] returns the first 512 maximal runs of non-blank
    characters of the command, in order: every argument is non-empty and
    holds no space, tab or newline, and there are at most [MAX_TOKENS] of
    them, the later ones being dropped. *)
Theorem parse_args_words cmd :
  parse_args cmd = take MAX_TOKENS (tokens is_blank cmd)
  /\ Forall word (parse_args cmd)
  /\ (length (parse_args cmd) <= MAX_TOKENS)%nat.
Proof.
  split; [apply parse_args_tokens|]. rewrite parse_args_tokens. split.
  - apply Forall_take, tokens_free.
  - rewrite length_take. lia.
Qed.

(** X3.  Trimming a command never changes its argument vector: [parse_args]
    gives the same on [trim s] as on [s]. *)
Theorem parse_args_ignores_trim s : parse_args (trim s) = parse_args s.
Proof. by rewrite !parse_args_tokens, tokens_trim. Qed.

(** X4.  Round trip: words joined by single spaces are parsed back into the
    same words, cut after the first [MAX_TOKENS]. *)
Theorem parse_args_join args :
  Forall word args ->
  parse_args (join " " args) = take MAX_TOKENS args.
Proof.
  intros Hw. rewrite parse_args_tokens. by rewrite tokens_join.
Qed.

Lemma parse_args_join_witness :
  parse_args (join " " ["ls"; "-l"; "/tmp"]) = ["ls"; "-l"; "/tmp"].
Proof.
  apply (parse_args_join ["ls"; "-l"; "/tmp"]).
  repeat constructor; done.
Defined.

End TrimTokens.

Section StageFacts.
Import Tokenizer Text.

Lemma split_pipeline_tokens line :
  split_pipeline line = take MAX_COMMANDS (trim <$> tokens is_bar line).
Proof. apply split_loop_tokens. Qed.

Lemma trim_free cls s : has cls s = false -> has cls (trim s) = false.
Proof.
  destruct (trim_split s) as (lead & trail & Hs & _). intros H.
  rewrite Hs, !has_app in H.
  apply orb_false_elim in H as [_ H]. by apply orb_false_elim in H as [H _].
Qed.

(** X5.  Whatever the line, [split_pipeline] fills at most [MAX_COMMANDS]
    entries, and no stage it returns holds a bar or starts or ends with a
    blank. *)
Theorem split_pipeline_stage_shape line :
  (length (split_pipeline line) <= MAX_COMMANDS)%nat
  /\ Forall (fun stage => has is_bar stage = false /\ trimmed stage)
       (split_pipeline line).
Proof.
  rewrite split_pipeline_tokens. split.
  - rewrite length_take. lia.
  - apply Forall_take, Forall_fmap, Forall_forall. intros p Hp. simpl.
    split; [|apply trim_trimmed].
    apply trim_free.
    by apply (proj1 (Forall_forall _ _) (tokens_free is_bar line)).
Qed.

(** X6.  Round trip: stages that are non-empty and hold no bar, joined by
    bars, are split back into the same stages, each trimmed, cut after the
    first [MAX_COMMANDS]. *)
Theorem split_pipeline_join stages :
  Forall (fun stage => stage <> "" /\ has is_bar stage = false) stages ->
  split_pipeline (join "|" stages) = take MAX_COMMANDS (trim <$> stages).
Proof.
  intros H. rewrite split_pipeline_tokens. by rewrite tokens_join.
Qed.

Lemma split_pipeline_join_witness :
  split_pipeline (join "|" ["ls -l "; " "; " wc"]) = ["ls -l"; ""; "wc"].
Proof.
  apply (split_pipeline_join ["ls -l "; " "; " wc"]).
  repeat constructor; done.
Defined.

Lemma split_pipeline_plain line :
  has is_bar line = false -> (length (split_pipeline (trim line)) <= 1)%nat.
Proof.
  intros H. rewrite split_pipeline_tokens.
  apply (trim_free is_bar) in H.
  unfold tokens. rewrite (pieces_plain is_bar _ H).
  rewrite length_take, length_fmap.
  destruct (trim line); simpl; lia.
Qed.

End StageFacts.

(** ** Further properties of the dispatch of a line *)

Section DispatchFacts.
Import Libc Kernel Tokenizer Shell Trace Text Calls.

Lemma parse_args_trim s : parse_args (trim s) = parse_args s.
Proof. by rewrite !parse_args_tokens, tokens_trim. Qed.

Lemma parse_args_nil_trim : parse_args "" = [].
Proof. reflexivity. Qed.

Lemma trim_nonempty line a args : parse_args line = a :: args -> trim line <> "".
Proof.
  intros H Ht. rewrite <- parse_args_trim, Ht in H. discriminate.
Qed.

Lemma interpret_single e line w a args :
  (length (split_pipeline (trim line)) <= 1)%nat ->
  parse_args line = a :: args ->
  interpret e line w = (handle_single_command e (trim line);; mret tt) w.
Proof.
  intros Hlen Hargs. unfold interpret.
  pose proof (trim_nonempty _ _ _ Hargs) as Hne.
  destruct (trim line) as [|c r] eqn:Ht; [done|].
  by rewrite bool_decide_eq_true_2.
Qed.

(** X7.  A line without a bar whose first word is [exit] ends the shell with
    status 0 whatever follows the word, as in [exit 3], and makes no call
    before: no child is waited for or signalled. *)
Theorem exit_ignores_arguments e line args w :
  has is_bar line = false ->
  parse_args line = "exit" :: args ->
  interpret e line w = (Exit 0, w).
Proof.
  intros Hbar Hargs.
  rewrite (interpret_single e line w _ _ (split_pipeline_plain _ Hbar) Hargs).
  run. unfold handle_single_command. rewrite parse_args_trim, Hargs. reflexivity.
Qed.

Lemma exit_ignores_arguments_witness :
  interpret nowhere "  exit 3 " (boot ∅) = (Exit 0, boot ∅).
Proof.
  apply (exit_ignores_arguments nowhere "  exit 3 " ["3"] (boot ∅)); reflexivity.
Defined.

(** X8.  A line without a bar whose first word is [cd] calls [chdir] on its
    first argument only and prints nothing whatever the outcome; with no
    argument it makes no call at all, so the directory stays as it is. *)
Theorem cd_takes_first_argument e line args w :
  has is_bar line = false ->
  parse_args line = "cd" :: args ->
  interpret e line w
  = (Ret tt, match args with
             | [] => w
             | path :: _ => log (EvChdir path) w
             end).
Proof.
  intros Hbar Hargs.
  rewrite (interpret_single e line w _ _ (split_pipeline_plain _ Hbar) Hargs).
  run. unfold handle_single_command. rewrite parse_args_trim, Hargs.
  simpl. run. by destruct args.
Qed.

Lemma cd_takes_first_argument_witness :
  interpret nowhere "cd" (boot ∅) = (Ret tt, boot ∅)
  /\ w_trace (interpret nowhere "cd /tmp /usr" (boot ∅)).2 = [EvChdir "/tmp"].
Proof.
  split.
  - apply (cd_takes_first_argument nowhere "cd" [] (boot ∅)); reflexivity.
  - rewrite (cd_takes_first_argument nowhere "cd /tmp /usr" ["/tmp"; "/usr"] (boot ∅));
      reflexivity.
Defined.

Lemma wait_loop_calls e pids :
  forall status w,
  (forall code, (wait_loop e pids status w).1 <> Exit code)
  /\ exists evs,
       w_trace (wait_loop e pids status w).2 = w_trace w ++ evs
       /\ Forall (fun ev => pipeline_event ev = true) evs.
Proof.
  induction pids as [|pid rest IH]; intros status w; simpl.
  - split; [done|]. exists []. by rewrite app_nil_r.
  - unfold set_current_child. run. simpl.
    destruct (waitpid e pid false _) as [r w1] eqn:Hw.
    apply waitpid_cases in Hw. destruct r as [res| | |]; try done.
    + destruct Hw as (Ht & _). simpl in *.
      match goal with |- context [wait_loop e rest ?s w1] =>
        destruct (IH s w1) as (Hex & evs & Ht' & Hall)
      end.
      split; [done|]. eexists. rewrite Ht', Ht, <- !app_assoc. simpl.
      split; [reflexivity|]. by repeat constructor.
    + subst w1. simpl. split; [done|]. eexists. split; [reflexivity|]. by repeat constructor.
    + subst w1. simpl. split; [done|]. eexists. split; [reflexivity|]. by repeat constructor.
Qed.

Lemma spawn_pipeline_event ev : spawn_event ev = true -> pipeline_event ev = true.
Proof. by destruct ev as [| | | |? []| | | | | | | | | | | | |]. Qed.

Lemma execute_pipeline_calls e commands w :
  (forall code, (execute_pipeline e commands w).1 <> Exit code)
  /\ exists evs,
       w_trace (execute_pipeline e commands w).2 = w_trace w ++ evs
       /\ Forall (fun ev => pipeline_event ev = true) evs.
Proof.
  unfold execute_pipeline. run.
  destruct (spawn_loop_general e commands 0 (Z.of_nat (length commands)) STDIN_FILENO [] w)
    as (r & w1 & spawn & -> & Ht & Hf & _).
  pose proof (Forall_impl _ _ _ Hf spawn_pipeline_event) as Hs.
  destruct r as [pids|]; simpl.
  - destruct (wait_loop_calls e pids 0 w1) as (Hex & evs & Ht2 & Hall).
    destruct (wait_loop e pids 0 w1) as [[st| | |] w2]; simpl in *;
      (split; [done|]); unfold set_current_child; simpl;
      rewrite Ht2, Ht, <- ?app_assoc; eexists; (split; [reflexivity|]);
      rewrite ?Forall_app; repeat split; try done; by repeat constructor.
  - split; [done|]. exists spawn. done.
Qed.

(** X9.  A line of two stages or more never reaches the built-in commands:
    it is handed to [execute_pipeline] as it was split, it cannot end the
    shell, and its calls are those of a pipeline only, so that [exit] and
    [cd] in a stage are looked up as programs. *)
Theorem pipeline_skips_builtins e line w :
  (2 <= length (split_pipeline (trim line)))%nat ->
  interpret e line w = (execute_pipeline e (split_pipeline (trim line));; mret tt) w
  /\ (forall code, (interpret e line w).1 <> Exit code)
  /\ exists evs,
       w_trace (interpret e line w).2 = w_trace w ++ evs
       /\ Forall (fun ev => pipeline_event ev = true) evs.
Proof.
  intros Hlen.
  assert (interpret e line w
          = (execute_pipeline e (split_pipeline (trim line));; mret tt) w) as Hrun.
  { unfold interpret. destruct (trim line) as [|c r] eqn:Ht.
    - change (split_pipeline "") with (@nil string) in Hlen. simpl in Hlen. lia.
    - rewrite bool_decide_eq_false_2 by lia. done. }
  split; [exact Hrun|]. rewrite Hrun. run.
  destruct (execute_pipeline_calls e (split_pipeline (trim line)) w) as (Hex & evs & Ht & Hall).
  destruct (execute_pipeline e (split_pipeline (trim line)) w) as [[st| | |] w1];
    simpl in *; [|by split; [|exists evs]|by exfalso; eapply Hex|by split; [|exists evs]].
  by split; [|exists evs].
Qed.

Lemma pipeline_skips_builtins_witness :
  w_trace (interpret (calm quick) "cd /tmp | exit" (boot ∅)).2
  = [EvPipe (Some (3, 4)); EvFork (Some 1000); EvClose 4;
     EvFork (Some 1001); EvClose 3;
     EvForeground 1000; EvWaitpid 1000 false (WDone 0);
     EvForeground 1001; EvWaitpid 1001 false (WDone 0);
     EvForeground 0].
Proof.
  destruct (pipeline_skips_builtins (calm quick) "cd /tmp | exit" (boot ∅)) as (H & _).
  - vm_compute. lia.
  - rewrite H. vm_compute. reflexivity.
Defined.

End DispatchFacts.

Section LoneStage.
Import Libc Kernel Tokenizer Shell Trace Text Calls.

Lemma has_pieces delim cls s :
  (forall c, delim c = true -> cls c = false) ->
  has cls s = existsb (has cls) (pieces delim s).
Proof.
  intros Hd. induction s as [|c r IH]; [done|].
  rewrite has_cons, IH. simpl. destruct (delim c) eqn:Hc.
  - by rewrite (Hd c Hc).
  - destruct (pieces_cons delim r) as (p & ps & ->). simpl.
    by rewrite has_cons, orb_assoc.
Qed.

Lemma has_tokens delim cls s :
  (forall c, delim c = true -> cls c = false) ->
  has cls s = existsb (has cls) (tokens delim s).
Proof.
  intros Hd. rewrite (has_pieces delim cls s Hd). unfold tokens.
  induction (pieces delim s) as [|p ps IH]; [done|].
  destruct p as [|c p].
  - rewrite filter_cons_False by (simpl; congruence). exact IH.
  - rewrite filter_cons_True by done. simpl. by rewrite IH.
Qed.

Lemma blank_is_no_bar c : is_blank c = true -> is_bar c = false.
Proof.
  unfold is_blank, is_bar. intros H.
  destruct (Ascii.eqb_spec c "|") as [->|]; [discriminate|done].
Qed.

(** X10.  When the split leaves one stage at most, [main] hands the whole
    trimmed line, not the stage, to [handle_single_command]: an external
    command is run on the words of the line, and a bar of the line is part
    of one of its arguments, as in [ls |]. *)
Theorem lone_stage_keeps_its_bars e line name rest w :
  (length (split_pipeline (trim line)) <= 1)%nat ->
  parse_args line = name :: rest ->
  name ∉ ["exit"; "cd"; "miprof"] ->
  interpret e line w = (execute_pipeline e [trim line];; mret tt) w
  /\ parse_args (trim line) = name :: rest
  /\ (has is_bar line = true ->
      (length (tokens is_blank line) <= MAX_TOKENS)%nat ->
      Exists (fun arg => has is_bar arg = true) (name :: rest)).
Proof.
  intros Hlen Hargs Hname.
  split; [|split].
  - rewrite (interpret_single e line w _ _ Hlen Hargs). run.
    unfold handle_single_command. rewrite parse_args_trim, Hargs.
    destruct (String.eqb_spec name "exit") as [->|_]; [set_solver|].
    destruct (String.eqb_spec name "cd") as [->|_]; [set_solver|].
    destruct (String.eqb_spec name "miprof") as [->|_]; [set_solver|].
    done.
  - by rewrite parse_args_trim.
  - intros Hbar Hfew. rewrite <- Hargs, parse_args_tokens.
    rewrite take_ge by done.
    rewrite (has_tokens is_blank is_bar line blank_is_no_bar) in Hbar.
    apply existsb_exists in Hbar as (arg & Hin & Harg).
    apply Exists_exists. exists arg. split; [|done]. by apply list_elem_of_In.
Qed.

Lemma lone_stage_keeps_its_bars_witness :
  parse_args (trim "ls |") = ["ls"; "|"]
  /\ w_trace (interpret (calm quick) "ls |" (boot ∅)).2
     = [EvFork (Some 1000); EvForeground 1000; EvWaitpid 1000 false (WDone 0);
        EvForeground 0].
Proof.
  destruct (lone_stage_keeps_its_bars (calm quick) "ls |" "ls" ["|"] (boot ∅))
    as (Hrun & Hargs & _).
  - vm_compute. lia.
  - reflexivity.
  - intros H%list_elem_of_In. simpl in H. by destruct H as [H|[H|[H|H]]].
  - split; [exact Hargs|]. rewrite Hrun. vm_compute. reflexivity.
Defined.

End LoneStage.

(** ** Further properties of the pipeline engine *)

Section StagesFacts.
Import Libc Kernel Tokenizer Shell Trace Text Calls.

Lemma forked_app a b : forked (a ++ b) = forked a ++ forked b.
Proof. apply omap_app. Qed.

Lemma reaped_app a b : reaped (a ++ b) = reaped a ++ reaped b.
Proof. apply omap_app. Qed.

Lemma forked_close_in in_fd : forked (close_in in_fd) = [].
Proof. unfold close_in. by case_bool_decide. Qed.

Lemma reaped_close_in in_fd : reaped (close_in in_fd) = [].
Proof. unfold close_in. by case_bool_decide. Qed.

(** One turn of the first loop when no call fails. *)
Lemma spawn_stage_forks e i n in_fd command w :
  (forall k, e_fails e k = false) ->
  exists w' pipefd in_fd' evs,
    spawn_stage e i n in_fd command w = (Ret (Some (w_next_pid w, in_fd')), w')
    /\ w_procs w'
       = <[w_next_pid w :=
             Proc (stage_child e in_fd (i <? n - 1) pipefd command) (w_clock w)
                  (child_files (w_files w)
                     (c_ops (stage_child e in_fd (i <? n - 1) pipefd command)))
                  false false]> (w_procs w)
    /\ w_next_pid w' = w_next_pid w + 1
    /\ w_clock w' = w_clock w
    /\ current_child w' = current_child w
    /\ w_trace w' = w_trace w ++ evs
    /\ forked evs = [w_next_pid w]
    /\ reaped evs = [].
Proof.
  intros Hno. unfold spawn_stage, pipe, fork, close. run.
  destruct (i <? n - 1); simpl; rewrite ?Hno; simpl; rewrite ?Hno; simpl;
    destruct (bool_decide (in_fd ≠ STDIN_FILENO)); simpl;
    eexists _, _, _, _; (split; [reflexivity|]); simpl;
    rewrite <- ?app_assoc; simpl; repeat split; reflexivity.
Qed.

Lemma seqZ_S m k : seqZ m (Z.of_nat (S k)) = m :: seqZ (m + 1) (Z.of_nat k).
Proof.
  rewrite seqZ_cons by lia. do 2 f_equal; lia.
Qed.

(** The first loop when no call fails: one child per command, each entered
    in the process table under the identifier [fork] has returned. *)
Lemma spawn_loop_forks e commands :
  (forall k, e_fails e k = false) ->
  forall i n in_fd pids w,
  exists w' evs,
    spawn_loop e commands i n in_fd pids w
    = (Ret (Some (pids ++ seqZ (w_next_pid w) (Z.of_nat (length commands)))), w')
    /\ w_trace w' = w_trace w ++ evs
    /\ forked evs = seqZ (w_next_pid w) (Z.of_nat (length commands))
    /\ reaped evs = []
    /\ w_next_pid w' = w_next_pid w + Z.of_nat (length commands)
    /\ current_child w' = current_child w
    /\ (forall pid, pid < w_next_pid w -> w_procs w' !! pid = w_procs w !! pid)
    /\ (forall k command,
          commands !! k = Some command ->
          exists in_fd' pipefd files,
            w_procs w' !! (w_next_pid w + Z.of_nat k)
            = Some (Proc (stage_child e in_fd' (i + Z.of_nat k <? n - 1) pipefd command)
                         (w_clock w) files false false)
            /\ (k = O -> in_fd' = in_fd)).
Proof.
  intros Hno. induction commands as [|command rest IH]; intros i n in_fd pids w.
  - exists w, []. simpl. run. rewrite !app_nil_r. repeat split; try done. lia.
  - cbn [spawn_loop]. run.
    destruct (spawn_stage_forks e i n in_fd command w Hno)
      as (w1 & pipefd & in_fd' & evs1 & -> & Hp1 & Hn1 & Hc1 & Hs1 & Ht1 & Hf1 & Hr1).
    destruct (IH (i + 1) n in_fd' (pids ++ [w_next_pid w]) w1)
      as (w2 & evs2 & -> & Ht2 & Hf2 & Hr2 & Hn2 & Hs2 & Hold & Hnew).
    exists w2, (evs1 ++ evs2).
    split. { cbn [length]. rewrite seqZ_S, <- app_assoc, Hn1. reflexivity. }
    split. { by rewrite Ht2, Ht1, app_assoc. }
    split. { cbn [length]. rewrite forked_app, Hf1, Hf2, seqZ_S, Hn1. reflexivity. }
    split. { by rewrite reaped_app, Hr1, Hr2. }
    split. { rewrite Hn2, Hn1. cbn [length]. lia. }
    split. { congruence. }
    split.
    + intros pid Hpid. rewrite Hold by lia. rewrite Hp1.
      apply lookup_insert_ne. lia.
    + intros k cmd Hk. destruct k as [|k]; simpl in Hk.
      * injection Hk as <-. rewrite Hold by lia. rewrite Hp1.
        replace (w_next_pid w + Z.of_nat 0) with (w_next_pid w) by lia.
        rewrite lookup_insert_eq. replace (i + Z.of_nat 0) with i by lia.
        eexists _, _, _. split; [reflexivity|done].
      * destruct (Hnew k cmd Hk) as (in_fd2 & pipefd2 & files2 & Hp2 & _).
        exists in_fd2, pipefd2, files2. split; [|done].
        replace (w_next_pid w + Z.of_nat (S k)) with (w_next_pid w1 + Z.of_nat k) by lia.
        replace (i + Z.of_nat (S k)) with (i + 1 + Z.of_nat k) by lia.
        by rewrite Hp2, Hc1.
Qed.

(** A child that can be reaped: it runs a program that ends. *)
Lemma waitpid_reaps e pid p d st w :
  (forall k, e_fails e k = false) ->
  w_procs w !! pid = Some p ->
  p_reaped p = false ->
  p_killed p = false ->
  child_lifetime e (p_child p) = Some d ->
  child_status e (p_child p) = Some st ->
  exists w',
    waitpid e pid false w = (Ret (WDone st), w')
    /\ w_trace w' = w_trace w ++ [EvWaitpid pid false (WDone st)]
    /\ w_procs w'
       = <[pid := Proc (p_child p) (p_born p) (p_files p) (p_killed p) true]> (w_procs w)
    /\ current_child w' = current_child w.
Proof.
  intros Hno Hp Hr Hk Hd Hst.
  destruct (waitpid_blocks e pid p d st w (Hno _) Hp Hr Hk Hd Hst) as (now & ->).
  eexists. split; [reflexivity|]. done.
Qed.

Lemma waitpid_hangs e pid p w :
  (forall k, e_fails e k = false) ->
  w_procs w !! pid = Some p ->
  p_reaped p = false ->
  p_killed p = false ->
  child_lifetime e (p_child p) = None ->
  waitpid e pid false w = (Hang, w).
Proof.
  intros Hno Hp Hr Hk Hd. unfold waitpid.
  rewrite Hno, Hp, Hr. unfold ended. by rewrite Hk, Hd.
Qed.

Lemma wait_loop_reaps e pids :
  (forall k, e_fails e k = false) ->
  NoDup pids ->
  forall status w,
  (forall pid, pid ∈ pids ->
     exists p, w_procs w !! pid = Some p
       /\ p_reaped p = false /\ p_killed p = false
       /\ is_Some (child_lifetime e (p_child p))
       /\ is_Some (child_status e (p_child p))) ->
  exists st w' evs,
    wait_loop e pids status w = (Ret st, w')
    /\ w_trace w' = w_trace w ++ evs
    /\ reaped evs = pids
    /\ forked evs = []
    /\ current_child w' = default (current_child w) (last pids)
    /\ (forall pid, pid ∈ pids ->
          exists p, w_procs w' !! pid = Some p /\ p_reaped p = true)
    /\ Some st = match last pids with
                 | Some pid => w_procs w !! pid ≫= fun p => child_status e (p_child p)
                 | None => Some status
                 end.
Proof.
  intros Hno. induction pids as [|pid rest IH]; intros Hnd status w Hgood.
  - exists status, w, []. simpl. run. rewrite app_nil_r. repeat split; try done.
    intros pid Hpid. by apply elem_of_nil in Hpid.
  - apply NoDup_cons in Hnd as [Hnotin Hnd].
    destruct (Hgood pid) as (p & Hp & Hr & Hk & [d Hd] & [st Hst]); [by left|].
    cbn [wait_loop]. unfold set_current_child. run.
    destruct (waitpid_reaps e pid p d st (log (EvForeground pid) (set_child pid w))
                Hno Hp Hr Hk Hd Hst) as (w1 & -> & Ht1 & Hp1 & Hc1).
    destruct (IH Hnd st w1) as (st2 & w2 & evs & Hw2 & Ht2 & Hr2 & Hf2 & Hc2 & Hall & Hst2).
    { intros q Hq. destruct (Hgood q) as (pq & Hpq & Hrest); [by right|].
      exists pq. split; [|done]. rewrite Hp1, lookup_insert_ne; [done|].
      intros ->. done. }
    rewrite Hw2.
    exists st2, w2, ([EvForeground pid; EvWaitpid pid false (WDone st)] ++ evs).
    split; [reflexivity|].
    split. { rewrite Ht2, Ht1. simpl. by rewrite <- !app_assoc. }
    split. { rewrite reaped_app, Hr2. reflexivity. }
    split. { rewrite forked_app, Hf2. reflexivity. }
    split.
    { rewrite Hc2, Hc1. simpl. destruct rest as [|q rest2]; [done|]. simpl.
      by destruct (proj2 (last_is_Some (q :: rest2)) ltac:(done)) as [z ->]. }
    split.
    + intros q [->|Hq]%elem_of_cons.
      * destruct (decide (pid ∈ rest)) as [Hin|_]; [done|].
        (* the entry of [pid] is no longer touched *)
        assert (forall pids st0 wa,
                  pid ∉ pids ->
                  w_procs (wait_loop e pids st0 wa).2 !! pid = w_procs wa !! pid) as Hkeep.
        { clear. induction pids as [|q pids IHp]; intros st0 wa Hq; [done|].
          apply not_elem_of_cons in Hq as [Hne Hq].
          cbn [wait_loop]. unfold set_current_child. run.
          destruct (waitpid e q false _) as [r wb] eqn:Hw.
          assert (w_procs wb !! pid = w_procs wa !! pid) as Hsame.
          { unfold waitpid in Hw. repeat case_match; simplify_eq; simpl; try done;
              by rewrite lookup_insert_ne. }
          destruct r as [res| | |]; simpl; try done.
          rewrite IHp by done. done. }
        specialize (Hkeep rest st w1 Hnotin). rewrite Hw2 in Hkeep.
        simpl in Hkeep. rewrite Hkeep, Hp1, lookup_insert_eq. eauto.
      * by apply Hall.
    + destruct rest as [|q rest'].
      * simpl in *. rewrite Hp. simpl. congruence.
      * change (last (pid :: q :: rest')) with (last (q :: rest')).
        destruct (proj2 (last_is_Some (q :: rest')) ltac:(done)) as [z Hlast].
        rewrite Hlast in *. rewrite Hst2, Hp1, lookup_insert_ne; [done|].
        intros ->. apply Hnotin. by eapply last_Some_elem_of.
Qed.

End StagesFacts.

Section ReapFacts.
Import Libc Kernel Tokenizer Shell Trace Text Calls.

Lemma stage_child_ends e in_fd piped pipefd command :
  (forall ops argv, is_Some (f_lifetime (e_image e ops argv))) ->
  is_Some (child_lifetime e (stage_child e in_fd piped pipefd command))
  /\ is_Some (child_status e (stage_child e in_fd piped pipefd command)).
Proof.
  intros Hends. unfold stage_child, child_lifetime, child_status.
  destruct (parse_args command) as [|name args]; simpl; [by eauto|].
  destruct (e_execvp e (name :: args)); simpl; eauto.
Qed.

(** X11.  When no call fails and every program ends, [execute_pipeline]
    returns; it has forked one child per command, has reaped each of them
    in the order they were forked, and what it returns is the status of the
    child of the last command, whatever the other stages ended with. *)
Theorem pipeline_reaps_every_stage e commands w :
  (forall k, e_fails e k = false) ->
  (forall ops argv, is_Some (f_lifetime (e_image e ops argv))) ->
  exists st w' evs,
    execute_pipeline e commands w = (Ret st, w')
    /\ w_trace w' = w_trace w ++ evs
    /\ length (forked evs) = length commands
    /\ reaped evs = forked evs
    /\ (forall pid, pid ∈ forked evs ->
          exists p, w_procs w' !! pid = Some p /\ p_reaped p = true)
    /\ (forall command, last commands = Some command ->
          exists in_fd,
            child_status e (stage_child e in_fd false (-1, -1) command) = Some st).
Proof.
  intros Hno Hends. unfold execute_pipeline. run.
  destruct (spawn_loop_forks e commands Hno 0 (Z.of_nat (length commands)) STDIN_FILENO [] w)
    as (w1 & evs1 & -> & Ht1 & Hf1 & Hr1 & Hn1 & Hc1 & Hold & Hnew).
  cbn [app].
  set (pids := seqZ (w_next_pid w) (Z.of_nat (length commands))) in *.
  assert (forall pid, pid ∈ pids ->
            exists k command in_fd pipefd files,
              commands !! k = Some command
              /\ pid = w_next_pid w + Z.of_nat k
              /\ w_procs w1 !! pid
                 = Some (Proc (stage_child e in_fd (0 + Z.of_nat k <? Z.of_nat (length commands) - 1)
                                 pipefd command)
                              (w_clock w) files false false)) as Hprocs.
  { intros pid Hpid. apply elem_of_seqZ in Hpid.
    destruct (lookup_lt_is_Some_2 commands (Z.to_nat (pid - w_next_pid w))) as [cmd Hcmd];
      [lia|].
    destruct (Hnew _ _ Hcmd) as (in_fd & pipefd & files & Hp & _).
    exists (Z.to_nat (pid - w_next_pid w)), cmd, in_fd, pipefd, files.
    split; [done|]. split; [lia|].
    rewrite <- Hp. f_equal. lia. }
  destruct (wait_loop_reaps e pids Hno (NoDup_seqZ _ _) 0 w1) as
    (st & w2 & evs2 & -> & Ht2 & Hr2 & Hf2 & Hc2 & Hall & Hst).
  { intros pid Hpid.
    destruct (Hprocs pid Hpid) as (k & cmd & in_fd & pipefd & files & _ & _ & ->).
    eexists. split; [reflexivity|]. simpl.
    destruct (stage_child_ends e in_fd (0 + Z.of_nat k <? Z.of_nat (length commands) - 1)
                pipefd cmd Hends).
    done. }
  unfold set_current_child. simpl.
  exists st, (log (EvForeground 0) (set_child 0 w2)), (evs1 ++ evs2 ++ [EvForeground 0]).
  split; [reflexivity|].
  split. { simpl. rewrite Ht2, Ht1. by rewrite <- !app_assoc. }
  split. { rewrite !forked_app, Hf1, Hf2. simpl. rewrite app_nil_r.
           subst pids. rewrite length_seqZ. lia. }
  split. { rewrite !reaped_app, !forked_app, Hf1, Hf2, Hr1, Hr2. simpl.
           by rewrite !app_nil_r. }
  split.
  - rewrite !forked_app, Hf1, Hf2. simpl. rewrite app_nil_r. exact Hall.
  - intros command Hlast.
    assert (commands !! (length commands - 1)%nat = Some command) as Hk.
    { rewrite last_lookup in Hlast. rewrite <- Hlast. f_equal. lia. }
    assert (length commands <> 0%nat) as Hlen by (by destruct commands).
    assert (last pids = Some (w_next_pid w + Z.of_nat (length commands - 1))) as Hlp.
    { rewrite last_lookup. subst pids. rewrite length_seqZ.
      rewrite lookup_seqZ. split_and?; lia. }
    rewrite Hlp in Hst.
    destruct (Hnew _ _ Hk) as (in_fd & pipefd & files & Hp & _).
    rewrite Hp in Hst. simpl in Hst. exists in_fd.
    replace (0 + Z.of_nat (length commands - 1) <? Z.of_nat (length commands) - 1)
      with false in Hst by (symmetry; apply Z.ltb_ge; lia).
    by rewrite Hst.
Qed.

Lemma pipeline_reaps_every_stage_witness :
  exists w',
    execute_pipeline (calm chatty) ["a"; "b"; "c"] (boot ∅) = (Ret (exited 3), w')
    /\ reaped (w_trace w') = forked (w_trace w')
    /\ length (forked (w_trace w')) = 3%nat.
Proof.
  destruct (pipeline_reaps_every_stage (calm chatty) ["a"; "b"; "c"] (boot ∅))
    as (st & w' & evs & Hrun & Ht & Hf & Hr & _ & Hst).
  - reflexivity.
  - intros ops argv. by exists 2%nat.
  - exists w'. destruct (Hst "c" eq_refl) as [in_fd Hc]. vm_compute in Hc.
    injection Hc as <-. split; [exact Hrun|].
    rewrite Ht. change (w_trace (boot ∅) ++ evs) with evs. split; [exact Hr|exact Hf].
Defined.

(** X12.  When the program of the first stage never ends, [execute_pipeline]
    blocks in the wait for it after having forked every stage; the
    foreground slot then holds that child, and [sigint_handler] sends SIGINT
    to it and to no other stage. *)
Theorem interrupt_reaches_waited_stage e command rest name args w :
  (forall k, e_fails e k = false) ->
  0 < w_next_pid w ->
  parse_args command = name :: args ->
  e_execvp e (name :: args) = None ->
  (forall ops, f_lifetime (e_image e ops (name :: args)) = None) ->
  exists w' evs,
    execute_pipeline e (command :: rest) w = (Hang, w')
    /\ w_trace w' = w_trace w ++ evs
    /\ forked evs = seqZ (w_next_pid w) (Z.of_nat (S (length rest)))
    /\ reaped evs = []
    /\ current_child w' = w_next_pid w
    /\ sigint_handler e w' = (Ret tt, log (EvKill (w_next_pid w) SIGINT) w').
Proof.
  intros Hno Hpos Hargs Hfound Hstuck. unfold execute_pipeline. run.
  destruct (spawn_loop_forks e (command :: rest) Hno 0
              (Z.of_nat (length (command :: rest))) STDIN_FILENO [] w)
    as (w1 & evs1 & -> & Ht1 & Hf1 & Hr1 & Hn1 & Hc1 & Hold & Hnew).
  destruct (Hnew O command eq_refl) as (in_fd & pipefd & files & Hp & _).
  replace (w_next_pid w + Z.of_nat 0) with (w_next_pid w) in Hp by lia.
  cbn [app]. change (length (command :: rest)) with (S (length rest)) in *.
  rewrite !seqZ_S in *. cbn [wait_loop]. unfold set_current_child. run.
  rewrite (waitpid_hangs e (w_next_pid w) _
             (log (EvForeground (w_next_pid w)) (set_child (w_next_pid w) w1))
             Hno Hp eq_refl eq_refl).
  2:{ simpl. unfold child_lifetime, stage_child. rewrite Hargs, Hfound. simpl.
      apply Hstuck. }
  eexists _, (evs1 ++ [EvForeground (w_next_pid w)]).
  split; [reflexivity|].
  split. { simpl. by rewrite Ht1, <- app_assoc. }
  split. { rewrite forked_app, Hf1. simpl. by rewrite app_nil_r. }
  split. { rewrite reaped_app, Hr1. reflexivity. }
  split; [reflexivity|].
  unfold sigint_handler. simpl. rewrite (proj2 (Z.ltb_lt _ _) Hpos).
  unfold kill. simpl. rewrite Hp. simpl. reflexivity.
Qed.

Lemma interrupt_reaches_waited_stage_witness :
  exists w',
    execute_pipeline (calm stuck) ["sleep 100"; "sleep 200"] (boot ∅) = (Hang, w')
    /\ current_child w' = 1000
    /\ sigint_handler (calm stuck) w' = (Ret tt, log (EvKill 1000 SIGINT) w').
Proof.
  destruct (interrupt_reaches_waited_stage (calm stuck) "sleep 100" ["sleep 200"]
              "sleep" ["100"] (boot ∅))
    as (w' & evs & Hrun & _ & _ & _ & Hc & Hs); try reflexivity.
  exists w'. split; [exact Hrun|]. split; [exact Hc|exact Hs].
Defined.

End ReapFacts.

Section SpawnFailure.
Import Libc Kernel Tokenizer Shell Trace Text Calls Faults.

(** One turn of the first loop, whatever fails: what it leaves open. *)
Lemma spawn_stage_fds e i n in_fd command w :
  let r0 := lowest_free (w_fds w) in
  let wr := lowest_free (r0 :: w_fds w) in
  exists r w' evs,
    spawn_stage e i n in_fd command w = (Ret r, w')
    /\ w_trace w' = w_trace w ++ evs
    /\ existsb is_wait evs = false
    /\ existsb is_perror evs = negb (bool_decide (is_Some r))
    /\ current_child w' = current_child w
    /\ match r with
       | Some (pid, in_fd') =>
           if i <? n - 1
           then in_fd' = r0
                /\ w_fds w' = filter (fun x => x ≠ wr)
                                (if bool_decide (in_fd ≠ STDIN_FILENO)
                                 then filter (fun x => x ≠ in_fd) (wr :: r0 :: w_fds w)
                                 else wr :: r0 :: w_fds w)
           else in_fd' = in_fd
                /\ w_fds w' = (if bool_decide (in_fd ≠ STDIN_FILENO)
                               then filter (fun x => x ≠ in_fd) (w_fds w)
                               else w_fds w)
       | None =>
           (w_fds w' = w_fds w /\ existsb is_pipe evs = false)
           \/ w_fds w' = wr :: r0 :: w_fds w
       end.
Proof.
  intros r0 wr. subst r0 wr.
  unfold spawn_stage, pipe, fork, perror, emit, close. run.
  destruct (i <? n - 1); simpl;
    repeat (match goal with
            | |- context [e_fails e ?k] => destruct (e_fails e k); simpl
            end);
    destruct (bool_decide (in_fd ≠ STDIN_FILENO)); simpl;
    eexists _, _, _; (split; [reflexivity|]); simpl; rewrite <- ?app_assoc;
    (split; [reflexivity|]); simpl; auto 10.
Qed.

Lemma existsb_app_false {A} (f : A -> bool) a b :
  existsb f a = false -> existsb f b = false -> existsb f (a ++ b) = false.
Proof. intros Ha Hb. by rewrite existsb_app, Ha, Hb. Qed.

Lemma spawn_loop_failure e F commands :
  STDIN_FILENO ∈ F ->
  forall i n in_fd pids w,
  Z.of_nat (length commands) + i = n ->
  between_stages F in_fd w ->
  exists r w' evs,
    spawn_loop e commands i n in_fd pids w = (Ret r, w')
    /\ w_trace w' = w_trace w ++ evs
    /\ existsb is_wait evs = false
    /\ existsb is_perror evs = negb (bool_decide (is_Some r))
    /\ current_child w' = current_child w
    /\ (r = None ->
        in_fd ≠ STDIN_FILENO \/ existsb is_pipe evs = true ->
        exists fd, fd ∈ w_fds w' /\ fd ∉ F).
Proof.
  intros H0. induction commands as [|command rest IH]; intros i n in_fd pids w Hn Hinv.
  - exists (Some pids), w, []. simpl. run. rewrite app_nil_r. by repeat split.
  - cbn [spawn_loop]. run.
    destruct (spawn_stage_fds e i n in_fd command w)
      as (r1 & w1 & evs1 & -> & Ht1 & Hw1 & Hp1 & Hc1 & Hfds).
    set (r0 := lowest_free (w_fds w)) in *.
    set (wr := lowest_free (r0 :: w_fds w)) in *.
    pose proof (lowest_free_fresh (w_fds w)) as Hr. fold r0 in Hr.
    pose proof (lowest_free_fresh (r0 :: w_fds w)) as Hwr. fold wr in Hwr.
    apply not_elem_of_cons in Hwr as [Hwr_r Hwr].
    assert (forall x, x ∈ F -> x ∈ w_fds w) as Hsub.
    { intros x Hx. destruct Hinv as [[_ ->]|(_ & _ & ->)]; [done|].
      apply elem_of_cons. by right. }
    assert (r0 ∉ F) as HrF by (intros Hx; by apply Hr, Hsub).
    assert (wr ∉ F) as HwF by (intros Hx; by apply Hwr, Hsub).
    assert (r0 ≠ STDIN_FILENO) as Hr0 by (intros Heq; apply HrF; by rewrite Heq).
    destruct r1 as [[pid in_fd']|].
    + destruct (i <? n - 1) eqn:Hi.
      * destruct Hfds as [-> Hf].
        assert (between_stages F r0 w1) as Hinv1.
        { right. split; [done|]. split; [done|].
          destruct Hinv as [[-> HF]|(Hin & HnF & HF)].
          - rewrite bool_decide_eq_false_2 in Hf by (intros ?; done).
            rewrite HF in *.
            rewrite Hf, filter_cons_False by (intros ?; done).
            rewrite filter_cons_True by done. by rewrite filter_ne_fresh.
          - rewrite bool_decide_eq_true_2 in Hf by done. rewrite HF in *.
            apply not_elem_of_cons in Hr as [? Hr].
            apply not_elem_of_cons in Hwr as [? Hwr].
            rewrite Hf.
            rewrite (filter_cons_True (fun x => x ≠ in_fd)) by done.
            rewrite (filter_cons_True (fun x => x ≠ in_fd)) by done.
            rewrite (filter_cons_False (fun x => x ≠ in_fd)) by (intros ?; done).
            rewrite (filter_ne_fresh in_fd) by done.
            rewrite filter_cons_False by (intros ?; done).
            rewrite filter_cons_True by done. by rewrite filter_ne_fresh. }
        destruct (IH (i + 1) n r0 (pids ++ [pid]) w1)
          as (r & w2 & evs2 & -> & Ht2 & Hw2 & Hp2 & Hc2 & Hleak);
          [simpl in Hn; lia|done|].
        exists r, w2, (evs1 ++ evs2). split; [reflexivity|].
        split. { by rewrite Ht2, Ht1, app_assoc. }
        split. { by apply existsb_app_false. }
        split. { by rewrite existsb_app, Hp1, Hp2. }
        split. { congruence. }
        intros Hnone _. apply Hleak; [done|by left].
      * assert (rest = []) as ->.
        { apply Z.ltb_ge in Hi. destruct rest; [done|]. simpl in Hn. lia. }
        simpl. run. exists (Some (pids ++ [pid])), w1, evs1.
        repeat split; try done.
    + exists None, w1, evs1. repeat split; try done.
      intros _ Hcause. destruct Hfds as [[Hf Hnopipe]|Hf].
      * destruct Hcause as [Hin|Hpipe]; [|congruence].
        exists in_fd. destruct Hinv as [[-> _]|(_ & HnF & HF)]; [done|].
        split; [|done]. rewrite Hf, HF. apply elem_of_cons. by left.
      * exists r0. split; [|done]. rewrite Hf.
        apply elem_of_cons. right. apply elem_of_cons. by left.
Qed.

(** X13.  When a [pipe] or a [fork] of [execute_pipeline] fails, the call
    returns -1 right after the [perror]: no child forked so far is waited
    for, the foreground slot keeps its value, and if a channel had been made
    a descriptor the shell did not hold before is left open. *)
Theorem failed_spawn_waits_for_nobody e commands w evs :
  STDIN_FILENO ∈ w_fds w ->
  w_trace (execute_pipeline e commands w).2 = w_trace w ++ evs ->
  existsb is_perror evs = true ->
  (execute_pipeline e commands w).1 = Ret (-1)
  /\ existsb is_wait evs = false
  /\ current_child (execute_pipeline e commands w).2 = current_child w
  /\ (existsb is_pipe evs = true ->
      exists fd, fd ∈ w_fds (execute_pipeline e commands w).2 /\ fd ∉ w_fds w).
Proof.
  intros H0. unfold execute_pipeline. run.
  destruct (spawn_loop_failure e (w_fds w) commands H0 0 (Z.of_nat (length commands))
              STDIN_FILENO [] w) as (r & w1 & evs1 & -> & Ht1 & Hw1 & Hp1 & Hc1 & Hleak);
    [lia|by left|].
  destruct r as [pids|].
  - intros Ht Hperror. exfalso.
    destruct (wait_loop_general e pids 0 w1) as (evs2 & Ht2 & Hall & _).
    assert (exists evs3, evs = evs1 ++ evs3
                         /\ Forall (fun ev => spawn_event ev = false) evs3)
      as (evs3 & -> & Hall3).
    { destruct (wait_loop e pids 0 w1) as [[st| | |] w2]; simpl in *.
      - unfold set_current_child in Ht. simpl in Ht.
        rewrite Ht2, Ht1, <- !app_assoc in Ht. apply app_inv_head in Ht as <-.
        eexists. split; [reflexivity|]. apply Forall_app. split; [done|].
        by repeat constructor.
      - rewrite Ht2, Ht1, <- !app_assoc in Ht. apply app_inv_head in Ht as <-. eauto.
      - rewrite Ht2, Ht1, <- !app_assoc in Ht. apply app_inv_head in Ht as <-. eauto.
      - rewrite Ht2, Ht1, <- !app_assoc in Ht. apply app_inv_head in Ht as <-. eauto. }
    rewrite existsb_app, Hp1 in Hperror. simpl in Hperror.
    apply existsb_exists in Hperror as (ev & Hin & Hev).
    apply list_elem_of_In in Hin.
    pose proof (proj1 (Forall_forall _ _) Hall3 ev Hin) as Hsp.
    by destruct ev.
  - simpl. rewrite Ht1. intros <-%app_inv_head Hperror.
    split; [done|]. split; [done|]. split; [done|].
    intros Hpipe. apply Hleak; [done|by right].
Qed.

Lemma failed_spawn_waits_for_nobody_witness :
  let run := execute_pipeline (refusing 3 quick) ["a"; "b"] (boot ∅) in
  w_trace run.2
  = [EvPipe (Some (3, 4)); EvFork (Some 1000); EvClose 4; EvFork None; EvPerror "fork"]
  /\ run.1 = Ret (-1)
  /\ exists fd, fd ∈ w_fds run.2 /\ fd ∉ w_fds (boot ∅).
Proof.
  assert (w_trace (execute_pipeline (refusing 3 quick) ["a"; "b"] (boot ∅)).2
          = w_trace (boot ∅)
            ++ [EvPipe (Some (3, 4)); EvFork (Some 1000); EvClose 4; EvFork None;
                EvPerror "fork"]) as Ht by (vm_compute; reflexivity).
  destruct (failed_spawn_waits_for_nobody (refusing 3 quick) ["a"; "b"] (boot ∅) _
              ltac:(apply list_elem_of_In; simpl; tauto) Ht eq_refl)
    as (Hr & _ & _ & Hleak).
  split; [exact Ht|]. split; [exact Hr|]. apply Hleak. reflexivity.
Defined.

End SpawnFailure.

(** ** Further properties of the profiler *)

Section ProfileFailures.
Import Libc Kernel Tokenizer Shell Trace Text Calls Faults.

(** X14.  When [fork] fails in a capturing profile, [run_and_profile]
    returns -1 after the [perror] without closing or unlinking what
    [mkstemp] made: the temporary file stays in the file system and its
    descriptor stays open; nothing else has changed. *)
Theorem profile_fork_failure_keeps_temp_file e argv filename secs w :
  e_fails e (length (w_trace w)) = false ->
  w_fs w !! e_tmpname e = None ->
  e_fails e (length (w_trace w) + 2)%nat = true ->
  let tmpfd := lowest_free (w_fds w) in
  run_and_profile e argv true filename secs w
  = (Ret (-1),
     World (tmpfd :: w_fds w)
           (<[tmpfd := OFile (e_tmpname e) 0 false]> (w_files w))
           (<[e_tmpname e := EmptyString]> (w_fs w))
           (w_procs w) (w_next_pid w) (w_clock w) (current_child w)
           (w_trace w ++ [EvMkstemp (Some (tmpfd, e_tmpname e)); EvClock;
                          EvFork None; EvPerror "fork"])).
Proof.
  intros Hmk Hfresh Hfork tmpfd.
  unfold run_and_profile, mkstemp, clock_gettime, fork, perror, emit. run.
  rewrite Hmk, Hfresh. simpl. rewrite !length_app. simpl.
  replace (length (w_trace w) + 1 + 1)%nat with (length (w_trace w) + 2)%nat by lia.
  rewrite Hfork. simpl. unfold log, set_fs, set_files, set_fds. simpl.
  by rewrite <- !app_assoc.
Qed.

Lemma profile_fork_failure_keeps_temp_file_witness :
  let run := run_and_profile (refusing 2 quick) ["ls"] true "log" 0 (boot ∅) in
  run.1 = Ret (-1)
  /\ w_fs run.2 = {["/tmp/miprof_out_k3Xw9q" := EmptyString]}
  /\ w_fds run.2 = [3; 0; 1; 2].
Proof.
  pose proof (profile_fork_failure_keeps_temp_file (refusing 2 quick) ["ls"] "log" 0 (boot ∅)
                eq_refl eq_refl eq_refl) as H.
  simpl in H. rewrite H. repeat split.
Defined.

End ProfileFailures.

Section PlainProfile.
Import Libc Kernel Tokenizer Shell Trace Text Calls Faults.

Lemma land_writes_nothing ws fs : land_writes ∅ ws fs = fs.
Proof.
  revert fs. induction ws as [|[fd data] ws IH]; intros fs; [done|].
  simpl. rewrite lookup_empty. apply IH.
Qed.

Lemma plain_child_files e argv secs :
  child_files ∅ (c_ops (profiled_child e argv false (-1) secs)) = ∅.
Proof.
  unfold profiled_child, child_files. rewrite fmap_empty.
  destruct argv as [|name rest]; simpl.
  - by destruct (0 <? secs).
  - destruct (e_execvp e (name :: rest)); destruct (0 <? secs); done.
Qed.

Lemma profiled_child_status e name rest save tmpfd secs :
  is_Some (child_status e (profiled_child e (name :: rest) save tmpfd secs)).
Proof.
  unfold profiled_child, child_status.
  destruct (e_execvp e (name :: rest)); simpl; eauto.
Qed.

(** The text of the summary is at least as long as the command's name. *)
Lemma summary_longer_than_name e name start finish usage status :
  (String.length name + 9 <= String.length (make_summary e name start finish usage status))%nat.
Proof.
  unfold make_summary, summary_text. rewrite !app_length_str. simpl. lia.
Qed.

Lemma str_take_length n s : (String.length (str_take n s) <= n)%nat.
Proof.
  revert s. induction n as [|n IH]; intros [|ch s]; simpl; try lia.
  specialize (IH s). lia.
Qed.

(** A text that does not fit: the count [snprintf] returns is larger than
    the array the text was cut to. *)
Lemma snprintf_overrun fd size full buf n :
  (0 < size < String.length full)%nat ->
  snprintf size full = (buf, n) ->
  write_buf fd buf n = undef.
Proof.
  intros Hlong [= <- <-]. unfold write_buf. rewrite app_length_str.
  pose proof (str_take_length (size - 1) full). simpl String.length.
  rewrite (proj2 (Z.leb_gt (Z.of_nat (String.length full)) _)) by lia.
  by rewrite andb_false_r.
Qed.

Lemma write_nowhere fd data w :
  w_files w !! fd = None -> write fd data w = (Ret tt, log (EvWrite fd data) w).
Proof. intros H. unfold write. by rewrite H. Qed.

#[local] Opaque snprintf make_summary str_take waitpid save_block lowest_free.
#[local] Arguments profiled_child : simpl never.

(** X15.  [miprof ejec <cmd>], when no call fails, the child ends and the
    summary fits its array: the child is forked and waited for with a
    blocking wait, the summary and nothing else is written to standard
    output, no file is touched, and [handle_single_command] returns 0
    whatever the status of the child. *)
Theorem ejec_prints_summary e cmdline name rest w d st :
  let c := profiled_child e (name :: rest) false (-1) 0 in
  let pid := w_next_pid w in
  let summary :=
    make_summary e name (e_clock e (length (w_trace w)))
      (e_clock e (length (w_trace w) + 4)) (e_rusage e (length (w_trace w) + 5)) st in
  parse_args cmdline = "miprof" :: "ejec" :: name :: rest ->
  (forall k, e_fails e k = false) ->
  w_files w = ∅ ->
  child_lifetime e c = Some d ->
  child_status e c = Some st ->
  (String.length summary < 1024)%nat ->
  exists w',
    handle_single_command e cmdline w = (Ret 0, w')
    /\ w_trace w' = w_trace w ++ [EvClock; EvFork (Some pid); EvForeground pid;
                                EvWaitpid pid false (WDone st); EvClock; EvRusage;
                                EvWrite STDOUT_FILENO summary; EvForeground 0]
    /\ w_fs w' = w_fs w
    /\ w_fds w' = w_fds w
    /\ current_child w' = 0.
Proof.
  intros c pid summary Hargs Hno Hfiles Hlife Hst Hlen.
  unfold handle_single_command, miprof. rewrite Hargs. simpl.
  unfold run_and_profile, clock_gettime, fork, set_current_child, getrusage. run.
  simpl. rewrite !Hno. simpl. fold c. fold pid. rewrite Hfiles.
  set (p := Proc c (w_clock w) (child_files ∅ (c_ops c)) false false).
  match goal with |- context [waitpid e pid false ?x] =>
    destruct (waitpid_blocks e pid p d st x) as (now & ->);
      [apply Hno|simpl; apply lookup_insert_eq|done|done|done|done|]
  end.
  simpl. rewrite !length_app. simpl.
  replace (length (w_trace w) + 1 + 1 + 1 + 1 + 1)%nat with (length (w_trace w) + 5)%nat by lia.
  replace (length (w_trace w) + 1 + 1 + 1 + 1)%nat with (length (w_trace w) + 4)%nat by lia.
  fold summary. rewrite (snprintf_fits 1024 summary Hlen).
  unfold write_buf. rewrite app_length_str. simpl String.length.
  rewrite (proj2 (Z.leb_le 0 _)) by lia.
  rewrite (proj2 (Z.leb_le _ _)) by lia.
  rewrite Nat2Z.id, str_take_app by done. cbn [andb].
  rewrite write_nowhere by (unfold reap; cbn [w_files log set_fs set_procs set_clock set_child set_next_pid]; rewrite Hfiles; apply lookup_empty).
  eexists. split; [reflexivity|].
  unfold reap. cbn [w_trace w_fs w_fds current_child log set_fs set_procs set_clock set_child set_next_pid].
  rewrite <- !app_assoc.
  split; [done|]. split; [|done].
  subst p. cbn [p_files p_child]. subst c. rewrite plain_child_files. apply land_writes_nothing.
Qed.

Lemma ejec_prints_summary_witness :
  exists w',
    handle_single_command (calm chatty) "miprof ejec ls" (boot ∅) = (Ret 0, w')
    /\ w_fs w' = w_fs (boot ∅)
    /\ current_child w' = 0.
Proof.
  destruct (ejec_prints_summary (calm chatty) "miprof ejec ls" "ls" [] (boot ∅) 2 (exited 3))
    as (w' & Hrun & _ & Hfs & _ & Hc); try reflexivity.
  - vm_compute. lia.
  - exists w'. split; [exact Hrun|]. split; [exact Hfs|exact Hc].
Defined.

(** X16.  When the command's name is 1024 bytes or longer, the count
    [snprintf] returns is larger than the 1024-byte array, and the [write]
    of the summary reads past its end: the behaviour of [run_and_profile]
    is undefined from there. *)
Theorem long_name_overruns_summary e name rest filename w d :
  (forall k, e_fails e k = false) ->
  child_lifetime e (profiled_child e (name :: rest) false (-1) 0) = Some d ->
  (1024 <= String.length name)%nat ->
  (run_and_profile e (name :: rest) false filename 0 w).1 = Undef.
Proof.
  intros Hno Hlife Hlen.
  destruct (profiled_child_status e name rest false (-1) 0) as [st Hst].
  unfold run_and_profile, clock_gettime, fork, set_current_child, getrusage. run.
  simpl. rewrite !Hno. simpl.
  set (c := profiled_child e (name :: rest) false (-1) 0) in *.
  set (p := Proc c (w_clock w) (child_files (w_files w) (c_ops c)) false false).
  match goal with |- context [waitpid e ?pid false ?x] =>
    destruct (waitpid_blocks e pid p d st x) as (now & ->);
      [apply Hno|simpl; apply lookup_insert_eq|done|done|done|done|]
  end.
  simpl.
  match goal with |- context [snprintf 1024 ?x] =>
    destruct (snprintf 1024 x) as [summary n] eqn:Hs;
    apply (snprintf_overrun STDOUT_FILENO) in Hs;
      [|pose proof (summary_longer_than_name e name
                      (e_clock e (length (w_trace w)))
                      (e_clock e (length ((((w_trace w ++ [EvClock])
                                              ++ [EvFork (Some (w_next_pid w))])
                                             ++ [EvForeground (w_next_pid w)])
                                            ++ [EvWaitpid (w_next_pid w) false (WDone st)])))
                      (e_rusage e (length (((((w_trace w ++ [EvClock])
                                                ++ [EvFork (Some (w_next_pid w))])
                                               ++ [EvForeground (w_next_pid w)])
                                              ++ [EvWaitpid (w_next_pid w) false (WDone st)])
                                             ++ [EvClock])))
                      st); lia]
  end.
  by rewrite Hs.
Qed.

Lemma long_name_overruns_summary_witness :
  (run_and_profile (calm quick) [long_name] false "" 0 (boot ∅)).1 = Undef.
Proof.
  apply (long_name_overruns_summary (calm quick) long_name [] "" (boot ∅) 0).
  - reflexivity.
  - reflexivity.
  - vm_compute. lia.
Defined.

End PlainProfile.

Section StatusWord.
Import Libc Kernel Tokenizer Shell Trace Text Calls Faults.

Lemma WIFEXITED_exited code : WIFEXITED (exited code) = true.
Proof.
  unfold WIFEXITED, WTERMSIG, exited, W_EXITCODE.
  rewrite Z.lor_0_r. apply Z.eqb_eq.
  change 127 with (Z.ones 7). rewrite Z.land_ones by lia.
  rewrite Z.shiftl_mul_pow2 by lia.
  change (2 ^ 8) with (2 * 2 ^ 7). rewrite Z.mul_assoc.
  apply Z.mod_mul. lia.
Qed.

Lemma WEXITSTATUS_exited code : WEXITSTATUS (exited code) = code mod 256.
Proof.
  unfold WEXITSTATUS, exited, W_EXITCODE.
  rewrite Z.lor_0_r. change 65280 with (Z.shiftl 255 8).
  rewrite <- Z.shiftl_land, Z.shiftr_shiftl_l by lia.
  rewrite Z.sub_diag, Z.shiftl_0_r, <- Z.land_assoc, Z.land_diag.
  change 255 with (Z.ones 8). by rewrite Z.land_ones by lia.
Qed.

Lemma WIFEXITED_signaled sig : 0 < sig < 128 -> WIFEXITED (signaled sig) = false.
Proof.
  intros Hsig. unfold WIFEXITED, WTERMSIG, signaled, W_EXITCODE.
  rewrite Z.shiftl_0_l, Z.lor_0_l. apply Z.eqb_neq.
  change 127 with (Z.ones 7). rewrite Z.land_ones by lia.
  rewrite Z.mod_small; lia.
Qed.

(** X17.  The last line of the summary shows the exit code, modulo 256, of
    a child that exited, and -1 for a child that a signal terminated, a
    timeout included; the lines before it do not depend on the status. *)
Theorem summary_shows_exit_code e name start finish usage :
  exists body,
    (forall code,
       make_summary e name start finish usage (exited code)
       = body +:+ "ExitStatus: " +:+ pretty (code mod 256) +:+ nl)
    /\ (forall sig,
          0 < sig < 128 ->
          make_summary e name start finish usage (signaled sig)
          = body +:+ "ExitStatus: -1" +:+ nl).
Proof.
  unfold make_summary, summary_text.
  exists ("Comando: " +:+ name +:+ nl
          +:+ "Real: " +:+ e_fmt6 e (finish.1 - start.1) (finish.2 - start.2) 1000000000
          +:+ "s  Usuario: " +:+ e_fmt6 e (ru_utime usage).1 (ru_utime usage).2 1000000
          +:+ "s  Sistema: " +:+ e_fmt6 e (ru_stime usage).1 (ru_stime usage).2 1000000
          +:+ "s  MaxRSS: " +:+ pretty (ru_maxrss usage) +:+ nl).
  split.
  - intros code. rewrite WIFEXITED_exited, WEXITSTATUS_exited.
    rewrite !app_assoc_str. reflexivity.
  - intros sig Hsig. rewrite (WIFEXITED_signaled sig Hsig).
    rewrite !app_assoc_str. reflexivity.
Qed.

Lemma summary_shows_exit_code_witness :
  exists body,
    make_summary (calm quick) "ls" (100, 0) (101, 0) (Rusage (0, 2000) (0, 1000) 1024)
      (exited 127)
    = body +:+ "ExitStatus: 127" +:+ nl
    /\ make_summary (calm quick) "ls" (100, 0) (101, 0) (Rusage (0, 2000) (0, 1000) 1024)
         (signaled SIGKILL)
       = body +:+ "ExitStatus: -1" +:+ nl.
Proof.
  destruct (summary_shows_exit_code (calm quick) "ls" (100, 0) (101, 0)
              (Rusage (0, 2000) (0, 1000) 1024)) as (body & Hcode & Hsig).
  exists body. split; [apply (Hcode 127)|apply (Hsig SIGKILL)].
  unfold SIGKILL. lia.
Defined.

End StatusWord.

Section PollFailure.
Import Libc Kernel Tokenizer Shell Trace Text Calls Faults.

#[local] Opaque snprintf make_summary str_take lowest_free.
#[local] Arguments profiled_child : simpl never.

Lemma poll_loop_fails e left pid status w :
  e_fails e (length (w_trace w)) = true ->
  poll_loop e left pid status w
  = (Ret status, log (EvPerror "waitpid") (log (EvWaitpid pid true WFailed) w)).
Proof.
  intros Hf. destruct left; simpl; unfold waitpid, perror, emit; run; by rewrite Hf.
Qed.

(** X18.  When the first poll of a timed profile fails, the wait is given
    up after the [perror]: the child is neither killed nor reaped, however
    long it runs, and the summary and the value returned report status 0. *)
Theorem failed_poll_gives_up e name rest secs w :
  let c := profiled_child e (name :: rest) false (-1) secs in
  let pid := w_next_pid w in
  let summary :=
    make_summary e name (e_clock e (length (w_trace w)))
      (e_clock e (length (w_trace w) + 5)) (e_rusage e (length (w_trace w) + 6)) 0 in
  0 < secs ->
  (forall k, e_fails e k = bool_decide (k = length (w_trace w) + 3)%nat) ->
  w_files w !! STDOUT_FILENO = None ->
  (String.length summary < 1024)%nat ->
  exists w',
    run_and_profile e (name :: rest) false EmptyString secs w = (Ret 0, w')
    /\ w_trace w' = w_trace w ++ [EvClock; EvFork (Some pid); EvForeground pid;
                                EvWaitpid pid true WFailed; EvPerror "waitpid";
                                EvClock; EvRusage;
                                EvWrite STDOUT_FILENO summary; EvForeground 0]
    /\ w_procs w' !! pid
       = Some (Proc c (w_clock w) (child_files (w_files w) (c_ops c)) false false)
    /\ current_child w' = 0.
Proof.
  intros c pid summary Hsecs Hfails Hout Hlen.
  unfold run_and_profile, clock_gettime, fork, set_current_child, getrusage. run.
  simpl. rewrite (proj2 (Z.ltb_lt _ _) Hsecs).
  rewrite (Hfails (length (w_trace w ++ [EvClock]))).
  rewrite bool_decide_eq_false_2 by (rewrite length_app; simpl; lia).
  simpl. fold c. fold pid.
  rewrite poll_loop_fails
    by (simpl; rewrite Hfails, !length_app; simpl; apply bool_decide_eq_true_2; lia).
  simpl. rewrite !length_app. simpl.
  replace (length (w_trace w) + 1 + 1 + 1 + 1 + 1 + 1)%nat with (length (w_trace w) + 6)%nat by lia.
  replace (length (w_trace w) + 1 + 1 + 1 + 1 + 1)%nat with (length (w_trace w) + 5)%nat by lia.
  fold summary. rewrite (snprintf_fits 1024 summary Hlen).
  unfold write_buf. rewrite app_length_str. simpl String.length.
  rewrite (proj2 (Z.leb_le 0 _)) by lia.
  rewrite (proj2 (Z.leb_le _ _)) by lia.
  rewrite Nat2Z.id, str_take_app by done. cbn [andb].
  rewrite write_nowhere by done.
  eexists. split; [reflexivity|].
  cbn [w_trace w_procs current_child log set_fs set_procs set_clock set_child set_next_pid].
  rewrite <- !app_assoc. split; [done|]. split; [|done].
  apply lookup_insert_eq.
Qed.

Lemma failed_poll_gives_up_witness :
  exists w',
    run_and_profile (refusing 3 stuck) ["sleep"; "100"] false EmptyString 5 (boot ∅)
    = (Ret 0, w')
    /\ existsb is_kill (w_trace w') = false
    /\ reaped (w_trace w') = [].
Proof.
  destruct (failed_poll_gives_up (refusing 3 stuck) "sleep" ["100"] 5 (boot ∅))
    as (w' & Hrun & Ht & _).
  - lia.
  - reflexivity.
  - reflexivity.
  - vm_compute. lia.
  - exists w'. split; [exact Hrun|]. rewrite Ht. split; reflexivity.
Defined.

End PollFailure.

(** ** The foreground slot between two lines *)

Section SlotFacts.
Import Libc Kernel Tokenizer Shell Trace Text Calls Faults.

#[local] Opaque waitpid poll_loop save_block write_buf snprintf make_summary lowest_free.
#[local] Arguments profiled_child : simpl never.

(** A call of [run_and_profile] that returns has either cleared the slot or,
    when it gave up before the child was started, left it as it was. *)
Lemma run_and_profile_slot e argv save filename secs w r w' :
  run_and_profile e argv save filename secs w = (Ret r, w') ->
  current_child w' = 0 \/ current_child w' = current_child w.
Proof.
  unfold run_and_profile, mkstemp, clock_gettime, fork, perror, emit,
    set_current_child, getrusage. run.
  intros H. repeat case_match; simplify_eq; simpl; auto.
Qed.

Lemma miprof_slot e args w r w' :
  miprof e args w = (Ret r, w') ->
  current_child w' = 0 \/ current_child w' = current_child w.
Proof.
  unfold miprof, eprintf, emit. run. intros H.
  repeat case_match; simplify_eq; simpl; auto;
    match goal with
    | H : run_and_profile _ _ _ _ _ _ = (Ret _, _) |- _ =>
        apply run_and_profile_slot in H; auto
    end.
Qed.

Lemma execute_pipeline_slot e commands w r w' :
  execute_pipeline e commands w = (Ret r, w') ->
  current_child w' = 0 \/ current_child w' = current_child w.
Proof.
  intros H. apply execute_pipeline_ret in H as (spawn & _ & [[_ Hc]|Hc]); [auto|].
  destruct Hc as (? & ? & _ & _ & _ & _ & Hc). auto.
Qed.

Lemma handle_single_command_slot e cmdline w r w' :
  handle_single_command e cmdline w = (Ret r, w') ->
  current_child w' = 0 \/ current_child w' = current_child w.
Proof.
  unfold handle_single_command, chdir, emit, Kernel.exit. run. intros H.
  repeat case_match; simplify_eq; simpl; auto;
    match goal with
    | H : miprof _ _ _ = (Ret _, _) |- _ => apply miprof_slot in H; auto
    | H : execute_pipeline _ _ _ = (Ret _, _) |- _ => apply execute_pipeline_slot in H; auto
    end.
Qed.

Lemma interpret_slot e line w r w' :
  interpret e line w = (Ret r, w') ->
  current_child w' = 0 \/ current_child w' = current_child w.
Proof.
  unfold interpret. run. intros H.
  repeat case_match; simplify_eq; simpl; auto;
    match goal with
    | H : handle_single_command _ _ _ = (Ret _, _) |- _ =>
        apply handle_single_command_slot in H; auto
    | H : execute_pipeline _ _ _ = (Ret _, _) |- _ => apply execute_pipeline_slot in H; auto
    end.
Qed.

(** X19.  After every line that returns, the foreground slot is 0 again if
    it was 0 before: between two lines [sigint_handler] makes no call. *)
Theorem interrupt_between_lines_signals_nobody e line w w' :
  current_child w = 0 ->
  interpret e line w = (Ret tt, w') ->
  current_child w' = 0 /\ sigint_handler e w' = (Ret tt, w').
Proof.
  intros H0 Hrun. apply interpret_slot in Hrun.
  assert (current_child w' = 0) as Hc by (destruct Hrun; congruence).
  split; [done|]. unfold sigint_handler. by rewrite Hc.
Qed.

Lemma interrupt_between_lines_signals_nobody_witness :
  sigint_handler (calm chatty) (interpret (calm chatty) "ls | wc" (boot ∅)).2
  = (Ret tt, (interpret (calm chatty) "ls | wc" (boot ∅)).2).
Proof.
  apply (interrupt_between_lines_signals_nobody (calm chatty) "ls | wc" (boot ∅)).
  - reflexivity.
  - vm_compute. reflexivity.
Defined.

End SlotFacts.

(** ** The read loop *)

Section ReplFacts.
Import Libc Kernel Tokenizer Shell Trace Text Calls Faults Repl.

Lemma write_frame fd data w :
  exists w',
    write fd data w = (Ret tt, w')
    /\ w_trace w' = w_trace w ++ [EvWrite fd data]
    /\ w_procs w' = w_procs w.
Proof.
  unfold write. eexists. split; [reflexivity|].
  destruct (w_files w !! fd) as [f|]; [destruct (of_append f)|]; done.
Qed.

Lemma interpret_blank e line w :
  all_blank line = true -> interpret e line w = (Ret tt, w).
Proof.
  intros H. unfold interpret, trim. by rewrite (skip_blank_all_blank line H).
Qed.

Lemma turn_passed_over e line w :
  passed_over line -> turn e line w = (Ret tt, w).
Proof.
  intros [Hone|[Hne Hblank]]; unfold turn.
  - destruct line as [|c [|c2 r]]; try done.
  - destruct line as [|c r]; [done|].
    destruct (Nat.eqb (String.length (String c r)) 1); [done|].
    by apply interpret_blank.
Qed.

Lemma prompt_is_prompt getcwd w :
  exists w' text,
    prompt getcwd w = (Ret tt, w')
    /\ w_trace w' = w_trace w ++ [EvWrite STDOUT_FILENO text]
    /\ is_prompt (EvWrite STDOUT_FILENO text) = true
    /\ w_procs w' = w_procs w.
Proof.
  unfold prompt.
  match goal with |- context [write _ ?text w] =>
    destruct (write_frame STDOUT_FILENO text w) as (w' & Hw & Ht & Hp);
    exists w', text
  end.
  split; [done|]. split; [done|]. split; [|done].
  by destruct (getcwd (w_trace w)).
Qed.

(** X20.  A line of exactly one byte, whatever the byte, and a line of
    blanks are passed over: on an input of such lines the loop of [main]
    writes one prompt per line and one more, then a newline, and returns 0
    without having forked anything. *)
Theorem passed_over_lines_only_prompt e getcwd input w :
  Forall passed_over input ->
  exists w' prompts,
    main_loop e getcwd input w = (Ret 0, w')
    /\ w_trace w' = w_trace w ++ prompts ++ [EvWrite STDOUT_FILENO nl]
    /\ length prompts = S (length input)
    /\ Forall (fun ev => is_prompt ev = true) prompts
    /\ w_procs w' = w_procs w.
Proof.
  intros Hall. revert w. induction Hall as [|line rest Hline Hrest IH]; intros w.
  - cbn [main_loop]. run.
    destruct (prompt_is_prompt getcwd w) as (w1 & text & -> & Ht1 & Hpr & Hp1).
    destruct (write_frame STDOUT_FILENO nl w1) as (w2 & -> & Ht2 & Hp2).
    exists w2, [EvWrite STDOUT_FILENO text]. split; [done|].
    split. { rewrite Ht2, Ht1. by rewrite <- app_assoc. }
    split; [done|]. split; [by repeat constructor|]. congruence.
  - cbn [main_loop]. run.
    destruct (prompt_is_prompt getcwd w) as (w1 & text & -> & Ht1 & Hpr & Hp1).
    rewrite (turn_passed_over e line w1 Hline).
    destruct (IH w1) as (w2 & prompts & -> & Ht2 & Hlen & Hps & Hp2).
    exists w2, (EvWrite STDOUT_FILENO text :: prompts). split; [done|].
    split. { rewrite Ht2, Ht1. by rewrite <- app_assoc. }
    split; [simpl; lia|]. split; [by constructor|]. congruence.
Qed.

Lemma passed_over_lines_only_prompt_witness :
  exists w',
    main_loop (calm quick) (fun _ => Some "/") ["w"; "  " +:+ nl] (boot ∅) = (Ret 0, w')
    /\ w_procs w' = ∅.
Proof.
  destruct (passed_over_lines_only_prompt (calm quick) (fun _ => Some "/")
              ["w"; "  " +:+ nl] (boot ∅))
    as (w' & prompts & Hrun & _ & _ & _ & Hp).
  - apply Forall_cons. split; [by left|].
    apply Forall_cons. split; [|by constructor].
    right. split; [by vm_compute|reflexivity].
  - exists w'. split; [exact Hrun|exact Hp].
Defined.

End ReplFacts.

Section ExitFacts.
Import Libc Kernel Tokenizer Shell Trace Text Calls Faults Repl.

Lemma exits_only_ret {A} ok (a : A) : exits_only ok (mret a).
Proof. by intros w code w'. Qed.

Lemma exits_only_bind {A B} ok (m : M A) (k : A -> M B) :
  exits_only ok m -> (forall a, exits_only ok (k a)) -> exits_only ok (m ≫= k).
Proof.
  intros Hm Hk w code w'. run.
  destruct (m w) as [[a| |c|] w1] eqn:Hmw; try done.
  - apply Hk.
  - intros [= <- <-]. by eapply Hm.
Qed.

Lemma exits_only_weaken {A} (ok ok' : Z -> Prop) (m : M A) :
  (forall code, ok code -> ok' code) -> exits_only ok m -> exits_only ok' m.
Proof. intros Himp Hm w code w' H. eapply Himp, Hm, H. Qed.

Ltac no_exit :=
  let w := fresh "w" in let code := fresh "code" in let w' := fresh "w'" in
  intros w code w'; repeat case_match; done.

Lemma write_no_exit fd data : exits_only (fun _ => False) (write fd data).
Proof. unfold write. no_exit. Qed.

Lemma write_buf_no_exit fd buf n : exits_only (fun _ => False) (write_buf fd buf n).
Proof. unfold write_buf. case_match; [apply write_no_exit|by intros w code w']. Qed.

Lemma read_no_exit fd size : exits_only (fun _ => False) (read fd size).
Proof. unfold read. no_exit. Qed.

Lemma emit_no_exit ev : exits_only (fun _ => False) (emit ev).
Proof. unfold emit. no_exit. Qed.

Lemma close_no_exit fd : exits_only (fun _ => False) (close fd).
Proof. unfold close. no_exit. Qed.

Lemma waitpid_no_exit e pid nohang : exits_only (fun _ => False) (waitpid e pid nohang).
Proof. intros w code w' H. by apply waitpid_cases in H. Qed.

Lemma kill_no_exit e pid sig : exits_only (fun _ => False) (kill e pid sig).
Proof. unfold kill. no_exit. Qed.

Lemma sleep_no_exit secs : exits_only (fun _ => False) (sleep secs).
Proof. unfold sleep. no_exit. Qed.

Lemma copy_loop_no_exit budget tmpfd outfd :
  exits_only (fun _ => False) (copy_loop budget tmpfd outfd).
Proof.
  induction budget as [|budget IH]; cbn [copy_loop];
    (apply exits_only_bind; [apply read_no_exit|]); intros [|c r];
    try apply exits_only_ret;
    (apply exits_only_bind; [apply write_no_exit|]); intros _; [|done].
  by intros w code w'.
Qed.

Lemma poll_loop_no_exit e left pid status :
  exits_only (fun _ => False) (poll_loop e left pid status).
Proof.
  induction left as [|left IH]; cbn [poll_loop];
    (apply exits_only_bind; [apply waitpid_no_exit|]); intros [st| |];
    try apply exits_only_ret;
    try (apply exits_only_bind; [apply emit_no_exit|]; intros _; apply exits_only_ret).
  - apply exits_only_bind; [apply kill_no_exit|]. intros _.
    apply exits_only_bind; [apply waitpid_no_exit|]. intros r. apply exits_only_ret.
  - apply exits_only_bind; [apply sleep_no_exit|]. intros _. done.
Qed.

Lemma save_block_no_exit e filename name tmpfd tmpname summary n :
  exits_only (fun _ => False) (save_block e filename name tmpfd tmpname summary n).
Proof.
  unfold save_block.
  apply exits_only_bind; [unfold open_append; no_exit|]. intros outfd.
  apply exits_only_bind;
    [|intros _; apply exits_only_bind;
                  [apply close_no_exit|intros _; unfold unlink; no_exit]].
  destruct outfd as [outfd|].
  - apply exits_only_bind; [apply write_no_exit|]. intros _.
    apply exits_only_bind; [unfold rewind; no_exit|]. intros _.
    apply exits_only_bind; [no_exit|]. intros budget.
    apply exits_only_bind; [apply copy_loop_no_exit|]. intros _.
    apply exits_only_bind; [apply write_buf_no_exit|]. intros _.
    apply exits_only_bind; [apply write_no_exit|]. intros _.
    apply close_no_exit.
  - apply emit_no_exit.
Qed.

Lemma run_and_profile_no_exit e argv save filename secs :
  exits_only (fun _ => False) (run_and_profile e argv save filename secs).
Proof.
  unfold run_and_profile.
  apply exits_only_bind.
  { destruct save; [unfold mkstemp; no_exit|apply exits_only_ret]. }
  intros [[tmpfd tmpname]|].
  2:{ apply exits_only_bind; [apply emit_no_exit|intros _; apply exits_only_ret]. }
  apply exits_only_bind; [unfold clock_gettime; no_exit|]. intros start.
  apply exits_only_bind; [unfold fork; no_exit|]. intros [pid|].
  2:{ apply exits_only_bind; [apply emit_no_exit|intros _; apply exits_only_ret]. }
  apply exits_only_bind; [unfold set_current_child; no_exit|]. intros _.
  apply exits_only_bind.
  { destruct (0 <? secs); [apply poll_loop_no_exit|].
    apply exits_only_bind; [apply waitpid_no_exit|]. intros r. apply exits_only_ret. }
  intros status.
  apply exits_only_bind; [unfold clock_gettime; no_exit|]. intros finish.
  apply exits_only_bind; [unfold getrusage; no_exit|]. intros usage.
  destruct (snprintf 1024 _) as [summary n].
  apply exits_only_bind.
  { destruct (save && bool_decide (tmpfd ≠ -1)); [apply save_block_no_exit|].
    destruct (negb save); [apply write_buf_no_exit|apply exits_only_ret]. }
  intros _.
  apply exits_only_bind; [unfold set_current_child; no_exit|]. intros _.
  apply exits_only_ret.
Qed.

Lemma miprof_no_exit e args : exits_only (fun _ => False) (miprof e args).
Proof.
  unfold miprof, eprintf.
  repeat case_match; try apply emit_no_exit;
    (apply exits_only_bind; [apply run_and_profile_no_exit|intros _; apply exits_only_ret]).
Qed.

Lemma execute_pipeline_no_exit e commands :
  exits_only (fun _ => False) (execute_pipeline e commands).
Proof.
  intros w code w' H.
  destruct (execute_pipeline_calls e commands w) as [Hex _].
  apply (Hex code). by rewrite H.
Qed.

Lemma handle_single_command_exit e cmdline :
  exits_only (fun code => code = 0) (handle_single_command e cmdline).
Proof.
  unfold handle_single_command.
  destruct (parse_args cmdline) as [|name args]; [apply exits_only_ret|].
  destruct (String.eqb name "exit"); [by intros w code w' [= <- _]|].
  apply (exits_only_weaken (fun _ => False)); [by intros code []|].
  destruct (String.eqb name "cd").
  { apply exits_only_bind; [|intros _; apply exits_only_ret].
    destruct args; [apply exits_only_ret|apply emit_no_exit]. }
  destruct (String.eqb name "miprof").
  { apply exits_only_bind; [apply miprof_no_exit|intros _; apply exits_only_ret]. }
  apply execute_pipeline_no_exit.
Qed.

Lemma interpret_exit e line : exits_only (fun code => code = 0) (interpret e line).
Proof.
  unfold interpret. destruct (trim line); [apply exits_only_ret|].
  case_bool_decide.
  - apply exits_only_bind; [apply handle_single_command_exit|intros _; apply exits_only_ret].
  - apply (exits_only_weaken (fun _ => False)); [by intros code []|].
    apply exits_only_bind; [apply execute_pipeline_no_exit|intros _; apply exits_only_ret].
Qed.

Lemma turn_exit e line : exits_only (fun code => code = 0) (turn e line).
Proof.
  unfold turn. destruct line; [by intros w code w'|].
  case_match; [apply exits_only_ret|apply interpret_exit].
Qed.

Lemma main_loop_exit e getcwd input :
  exits_only (fun code => code = 0) (main_loop e getcwd input).
Proof.
  induction input as [|line rest IH]; cbn [main_loop];
    (apply exits_only_bind;
     [apply (exits_only_weaken (fun _ => False)); [by intros code []|]; unfold prompt; intros w; apply write_no_exit|]);
    intros _.
  - apply (exits_only_weaken (fun _ => False)); [by intros code []|].
    apply exits_only_bind; [apply write_no_exit|intros _; apply exits_only_ret].
  - apply exits_only_bind; [apply turn_exit|]. intros _. exact IH.
Qed.

Lemma main_loop_ret e getcwd input :
  forall w v w', main_loop e getcwd input w = (Ret v, w') -> v = 0.
Proof.
  induction input as [|line rest IH]; intros w v w'; cbn [main_loop]; run.
  - destruct (prompt getcwd w) as [[[]| | |] w1]; try done.
    destruct (write STDOUT_FILENO nl w1) as [[[]| | |] w2]; try done.
    by intros [= <- _].
  - destruct (prompt getcwd w) as [[[]| | |] w1]; try done.
    destruct (turn e line w1) as [[[]| | |] w2]; try done.
    apply IH.
Qed.

(** X21.  The shell never ends with a status other than 0: whatever the
    input and whatever fails, the loop of [main] returns 0 at the end of
    the input, or [exit] ends it with status 0. *)
Theorem shell_status_is_always_zero e getcwd input w :
  match (main_loop e getcwd input w).1 with
  | Ret status => status = 0
  | Exit code => code = 0
  | Hang | Undef => True
  end.
Proof.
  destruct (main_loop e getcwd input w) as [[v| |code|] w'] eqn:H; simpl; try done.
  - by eapply main_loop_ret.
  - by eapply main_loop_exit.
Qed.

End ExitFacts.

(** ** What a command depends on *)

Section WordsFacts.
Import Libc Kernel Tokenizer Shell Trace Text Calls Faults Repl.

Lemma stage_child_words e in_fd piped pipefd a b :
  parse_args a = parse_args b ->
  stage_child e in_fd piped pipefd a = stage_child e in_fd piped pipefd b.
Proof. intros H. unfold stage_child. by rewrite H. Qed.

Lemma spawn_loop_words e cmds cmds' :
  Forall2 (fun a b => parse_args a = parse_args b) cmds cmds' ->
  forall i n in_fd pids w,
  spawn_loop e cmds i n in_fd pids w = spawn_loop e cmds' i n in_fd pids w.
Proof.
  induction 1 as [|a b cmds cmds' Hab Hrest IH]; intros i n in_fd pids w; [done|].
  cbn [spawn_loop]. unfold spawn_stage. run.
  destruct (if i <? n - 1 then pipe e else _) as [[[pipefd|]| | |] w1]; try done.
  rewrite (stage_child_words e in_fd (i <? n - 1) pipefd a b Hab).
  destruct (fork e _ w1) as [[[pid|]| | |] w2]; try done.
  destruct (if bool_decide (in_fd ≠ STDIN_FILENO) then close in_fd else _) as [[[]| | |] w3];
    try done.
  destruct (i <? n - 1); simpl;
    [destruct (close pipefd.2 w3) as [[[]| | |] w4]; try done|]; apply IH.
Qed.

(** X22.  A command acts through its words only: two pipelines whose
    stages have the same argument vectors, and two single commands with the
    same argument vector, do exactly the same, so that the blanks between
    words never matter. *)
Theorem only_the_words_matter e cmds cmds' a b w :
  Forall2 (fun a b => parse_args a = parse_args b) cmds cmds' ->
  parse_args a = parse_args b ->
  execute_pipeline e cmds w = execute_pipeline e cmds' w
  /\ handle_single_command e a w = handle_single_command e b w.
Proof.
  intros Hall Hab.
  assert (forall cmds cmds',
            Forall2 (fun a b => parse_args a = parse_args b) cmds cmds' ->
            execute_pipeline e cmds w = execute_pipeline e cmds' w) as Hpipe.
  { clear. intros cmds cmds' Hall. unfold execute_pipeline. run.
    rewrite (Forall2_length _ _ _ Hall).
    by rewrite (spawn_loop_words e cmds cmds' Hall). }
  split; [by apply Hpipe|].
  unfold handle_single_command. rewrite Hab.
  destruct (parse_args b) as [|name args] eqn:Hb; [done|].
  repeat case_match; try done.
  apply Hpipe. constructor; [congruence|constructor].
Qed.

Lemma only_the_words_matter_witness :
  execute_pipeline (calm chatty) ["ls   -l"; " wc "] (boot ∅)
  = execute_pipeline (calm chatty) ["ls -l"; "wc"] (boot ∅)
  /\ handle_single_command (calm chatty) "  cd    /tmp" (boot ∅)
     = handle_single_command (calm chatty) "cd /tmp" (boot ∅).
Proof.
  apply (only_the_words_matter (calm chatty) ["ls   -l"; " wc "] ["ls -l"; "wc"]
           "  cd    /tmp" "cd /tmp" (boot ∅)).
  - repeat constructor.
  - reflexivity.
Defined.

End WordsFacts.

(** ** The descriptors of a stage's child *)

Section PlumbingFacts.
Import Libc Kernel Tokenizer Shell Trace Text Calls Faults Repl.

Lemma child_op_files_printerr files ops msg :
  foldl child_op_files files (ops ++ [CPrintErr msg]) = foldl child_op_files files ops.
Proof. by rewrite foldl_app. Qed.

(** X23.  The descriptors of the child of a stage that reads from a channel
    and writes to the next one, for any table that names what each
    descriptor is open on: after the child's [dup2] and [close] calls,
    standard input is the read end it was given, standard output is the
    write end of the new channel, and the three channel descriptors
    themselves are closed; every other descriptor is as inherited. *)
Theorem stage_child_plumbing e in_fd r wr command (table : gmap Z string) prev out :
  in_fd ≠ STDIN_FILENO -> in_fd ≠ STDOUT_FILENO ->
  r ≠ STDIN_FILENO -> r ≠ STDOUT_FILENO ->
  wr ≠ STDIN_FILENO -> wr ≠ STDOUT_FILENO ->
  in_fd ≠ r -> in_fd ≠ wr -> r ≠ wr ->
  table !! in_fd = Some prev ->
  table !! wr = Some out ->
  foldl child_op_files table (c_ops (stage_child e in_fd true (r, wr) command))
  = <[STDOUT_FILENO := out]>
      (<[STDIN_FILENO := prev]> (delete wr (delete r (delete in_fd table)))).
Proof.
  intros Hi0 Hi1 Hr0 Hr1 Hw0 Hw1 Hir Hiw Hrw Hin Hout.
  assert (foldl child_op_files table
            [CDup2 in_fd STDIN_FILENO; CClose in_fd;
             CClose r; CDup2 wr STDOUT_FILENO; CClose wr]
          = <[STDOUT_FILENO := out]>
              (<[STDIN_FILENO := prev]> (delete wr (delete r (delete in_fd table))))) as H.
  { simpl. rewrite Hin.
    rewrite lookup_delete_ne by done. rewrite lookup_delete_ne by done.
    rewrite lookup_insert_ne by done. rewrite Hout.
    apply map_eq. intros fd.
    destruct (decide (fd = wr)) as [->|Hfw].
    { rewrite lookup_delete_eq. rewrite !lookup_insert_ne by done.
      by rewrite lookup_delete_eq. }
    rewrite lookup_delete_ne by done.
    destruct (decide (fd = STDOUT_FILENO)) as [->|Hf1].
    { by rewrite !lookup_insert_eq. }
    rewrite !(lookup_insert_ne _ STDOUT_FILENO) by done.
    destruct (decide (fd = r)) as [->|Hfr].
    { rewrite lookup_delete_eq. rewrite lookup_insert_ne by done.
      rewrite lookup_delete_ne by done. by rewrite lookup_delete_eq. }
    rewrite lookup_delete_ne by done.
    destruct (decide (fd = in_fd)) as [->|Hfi].
    { rewrite lookup_delete_eq. rewrite lookup_insert_ne by done.
      rewrite !lookup_delete_ne by done. by rewrite lookup_delete_eq. }
    rewrite lookup_delete_ne by done.
    destruct (decide (fd = STDIN_FILENO)) as [->|Hf0].
    { by rewrite !lookup_insert_eq. }
    rewrite !lookup_insert_ne by done.
    by rewrite !lookup_delete_ne by done. }
  unfold stage_child. rewrite bool_decide_eq_true_2 by done.
  destruct (parse_args command) as [|name args]; [exact H|].
  destruct (e_execvp e (name :: args)); [|exact H].
  cbn [c_ops]. rewrite child_op_files_printerr. exact H.
Qed.

Lemma stage_child_plumbing_witness :
  foldl child_op_files {[0 := "tty"; 1 := "tty"; 2 := "tty"; 3 := "left"; 4 := "in"; 5 := "right"]}
    (c_ops (stage_child (calm quick) 3 true (4, 5) "wc -l"))
  = {[0 := "left"; 1 := "right"; 2 := "tty"]}.
Proof.
  rewrite (stage_child_plumbing (calm quick) 3 4 5 "wc -l" _ "left" "right");
    done.
Defined.

End PlumbingFacts.

Section NewlineFacts.
Import Libc Kernel Tokenizer Shell Trace Text Calls Faults Repl.

Lemma skip_blank_trail s trail :
  all_blank trail = true ->
  skip_blank (s +:+ trail)
  = match skip_blank s with
    | EmptyString => EmptyString
    | rest => rest +:+ trail
    end.
Proof.
  intros Ht. induction s as [|c r IH].
  - by apply skip_blank_all_blank.
  - rewrite app_cons. simpl. destruct (is_blank c); [exact IH|]. by rewrite app_cons.
Qed.

Lemma chop_blank_all_blank s : all_blank s = true -> chop_blank s = EmptyString.
Proof.
  induction s as [|c r IH]; [done|].
  rewrite all_blank_cons. intros [Hc Hr]%andb_prop. simpl. by rewrite (IH Hr), Hc.
Qed.

Lemma chop_blank_trail s trail :
  all_blank trail = true -> chop_blank (s +:+ trail) = chop_blank s.
Proof.
  intros Ht. induction s as [|c r IH].
  - by apply chop_blank_all_blank.
  - rewrite app_cons. simpl. by rewrite IH.
Qed.

Lemma trim_trail s trail : all_blank trail = true -> trim (s +:+ trail) = trim s.
Proof.
  intros Ht. unfold trim. rewrite (skip_blank_trail s trail Ht).
  destruct (skip_blank s) as [|c r]; [done|].
  rewrite app_cons. by rewrite chop_blank_trail.
Qed.

Lemma c_str_strip_newline line :
  c_str line = c_str (strip_newline line)
  \/ c_str line = c_str (strip_newline line) +:+ nl.
Proof.
  induction line as [|c r IH]; [by left|].
  destruct r as [|c2 r2].
  - simpl. destruct (Ascii.eqb_spec c "010") as [->|Hc]; [by right|by left].
  - change (strip_newline (String c (String c2 r2)))
      with (String c (strip_newline (String c2 r2))).
    generalize dependent (String c2 r2). intros r IH.
    cbn [c_str]. destruct (Ascii.eqb c "000"); [by left|].
    destruct IH as [->| ->]; [by left|right]. by rewrite app_cons.
Qed.

(** X24.  Removing the final newline of a line changes nothing, since
    [trim] removes it as well: the line is interpreted the same with and
    without that step. *)
Theorem newline_is_trimmed_anyway e line w :
  trim (c_str (strip_newline line)) = trim (c_str line)
  /\ interpret e (c_str (strip_newline line)) w = interpret e (c_str line) w.
Proof.
  assert (trim (c_str (strip_newline line)) = trim (c_str line)) as H.
  { destruct (c_str_strip_newline line) as [->| ->]; [done|].
    by rewrite trim_trail. }
  split; [exact H|]. unfold interpret. by rewrite H.
Qed.

End NewlineFacts.

Section SavedFailure.
Import Libc Kernel Tokenizer Shell Trace Text Calls Faults Repl.

#[local] Opaque waitpid save_block snprintf make_summary lowest_free str_take str_drop.
#[local] Arguments profiled_child : simpl never.

(** X25.  When the command of [miprof ejecsave] cannot be executed, the
    error line of the child goes to the target file, not to the terminal:
    the file gets the header, then [mishell: <name>: <error>], then the
    summary with exit status 127, then an empty line, and 127 is the exit
    code in the status returned. *)
Theorem ejecsave_logs_exec_failure e filename name rest err w :
  let summary :=
    make_summary e name (e_clock e (length (w_trace w) + 1))
      (e_clock e (length (w_trace w) + 5)) (e_rusage e (length (w_trace w) + 6))
      (exited 127) in
  e_execvp e (name :: rest) = Some err ->
  (forall k, e_fails e k = false) ->
  w_files w = ∅ ->
  STDOUT_FILENO ∈ w_fds w ->
  STDERR_FILENO ∈ w_fds w ->
  w_fs w !! e_tmpname e = None ->
  filename ≠ e_tmpname e ->
  (String.length summary < 1024)%nat ->
  exists w',
    run_and_profile e (name :: rest) true filename 0 w = (Ret (exited 127), w')
    /\ w_fs w' = <[filename := default "" (w_fs w !! filename)
                                +:+ append_header name
                                +:+ exec_error name err
                                +:+ summary +:+ nl]> (w_fs w)
    /\ w_fds w' = w_fds w.
Proof.
  intros summary Hexec Hno Hfiles Hout Herr Hfresh Hne Hlen.
  set (tmpfd := lowest_free (w_fds w)).
  set (c := profiled_child e (name :: rest) true tmpfd 0).
  assert (child_lifetime e c = Some (e_delay e (c_ops c))) as Hlife.
  { subst c. unfold profiled_child, child_lifetime. by rewrite Hexec. }
  assert (child_status e c = Some (exited 127)) as Hst127.
  { subst c. unfold profiled_child, child_status. by rewrite Hexec. }
  assert (captured (child_writes e c) = exec_error name err) as Hcap.
  { subst c. unfold profiled_child, child_writes. rewrite Hexec. simpl.
    apply app_empty_r. }
  destruct (capture_prefix e filename name rest w (e_delay e (c_ops c)))
    as (st & W & Hst & Ht & Hfs & Hfi & Hfds & ->); try done.
  fold tmpfd c in Hst, Ht, Hfs, Hfi, Hfds |- *.
  assert (st = exited 127) as -> by congruence.
  fold summary. rewrite (snprintf_fits 1024 summary Hlen).
  run.
  destruct (save_block_ok e filename name tmpfd (e_tmpname e)
              (summary +:+ String "000" "") (Z.of_nat (String.length summary))
              W (captured (child_writes e c)) 0%nat)
    as (w1 & -> & Hfs1 & Hfds1 & Hcc1).
  - apply Hno.
  - rewrite Hfi. apply lookup_singleton_eq.
  - rewrite Hfds. apply elem_of_cons. by left.
  - rewrite Hfs. apply lookup_insert_eq.
  - done.
  - rewrite app_length_str. simpl. lia.
  - unfold set_current_child. simpl. eexists. split; [reflexivity|]. simpl. split.
    + rewrite Hfs1, Hfs, Nat2Z.id, str_take_app by done.
      rewrite lookup_insert_ne by done.
      rewrite delete_insert_ne by done. rewrite delete_insert_eq.
      rewrite delete_id by done. by rewrite Hcap.
    + rewrite Hfds1, Hfds. rewrite filter_cons_False by (intros ?; done).
      apply filter_ne_fresh, lowest_free_fresh.
Qed.

Lemma ejecsave_logs_exec_failure_witness :
  exists w',
    run_and_profile nowhere ["nosuch"] true "log" 0 (boot ∅) = (Ret (exited 127), w')
    /\ w_fs w' !! "log"
       = Some ("---- miprof append: nosuch ----" +:+ nl
               +:+ "mishell: nosuch: No such file or directory" +:+ nl
               +:+ make_summary nowhere "nosuch" (0, 0) (0, 0) (Rusage (0, 0) (0, 0) 0)
                     (exited 127)
               +:+ nl).
Proof.
  destruct (ejecsave_logs_exec_failure nowhere "log" "nosuch" [] "No such file or directory"
              (boot ∅)) as (w' & Hrun & Hfs & _).
  - reflexivity.
  - reflexivity.
  - reflexivity.
  - apply list_elem_of_In. simpl. tauto.
  - apply list_elem_of_In. simpl. tauto.
  - reflexivity.
  - discriminate.
  - vm_compute. lia.
  - exists w'. split; [exact Hrun|]. rewrite Hfs. vm_compute. reflexivity.
Defined.

End SavedFailure.

(** ** The signals of a profile *)

Section SignalFacts.
Import Libc Kernel Tokenizer Shell Trace Text Calls Faults Repl.

Lemma bind_run {A B} (m : M A) (k : A -> M B) w :
  (m ≫= k) w
  = match m w with
    | (Ret a, w1) => k a w1
    | (Hang, w1) => (Hang, w1)
    | (Exit c, w1) => (Exit c, w1)
    | (Undef, w1) => (Undef, w1)
    end.
Proof. reflexivity. Qed.

Lemma emits_ret {A} cls (a : A) w : emits cls (mret a) w.
Proof. exists []. by rewrite app_nil_r. Qed.

Lemma emits_bind {A B} cls (m : M A) (k : A -> M B) w :
  emits cls m w ->
  (forall a w1, m w = (Ret a, w1) -> emits cls (k a) w1) ->
  emits cls (m ≫= k) w.
Proof.
  intros (evs1 & Ht1 & Hc1) Hk. unfold emits. run.
  destruct (m w) as [[a| |c|] w1] eqn:Hmw; simpl in *; try by exists evs1.
  destruct (Hk a w1 eq_refl) as (evs2 & Ht2 & Hc2).
  exists (evs1 ++ evs2). rewrite Ht2, Ht1, app_assoc. split; [done|].
  by apply Forall_app.
Qed.

Lemma emits_weaken {A} (cls cls' : event -> Prop) (m : M A) w :
  (forall ev, cls ev -> cls' ev) -> emits cls m w -> emits cls' m w.
Proof.
  intros Himp (evs & Ht & Hc). exists evs. split; [done|].
  by apply (Forall_impl _ _ _ Hc).
Qed.

Lemma emits_one {A} (cls : event -> Prop) (m : M A) w ev :
  w_trace (m w).2 = w_trace w ++ [ev] -> cls ev -> emits cls m w.
Proof. intros Ht Hc. exists [ev]. split; [done|]. by repeat constructor. Qed.

Lemma emits_none {A} (cls : event -> Prop) (m : M A) w :
  w_trace (m w).2 = w_trace w -> emits cls m w.
Proof. intros Ht. exists []. by rewrite app_nil_r. Qed.

Lemma quiet_kills_only pid sig ev : quiet ev -> kills_only pid sig ev.
Proof. by destruct ev. Qed.

Lemma write_quiet fd data w : emits quiet (write fd data) w.
Proof.
  destruct (write_cases fd data w) as (w' & Hw & Ht & _).
  apply (emits_one _ _ _ (EvWrite fd data)); [by rewrite Hw|done].
Qed.

Lemma write_buf_quiet fd buf n w : emits quiet (write_buf fd buf n) w.
Proof.
  unfold write_buf. case_match; [apply write_quiet|by apply emits_none].
Qed.

Lemma read_quiet fd size w : emits quiet (read fd size) w.
Proof.
  unfold emits, read. destruct (w_files w !! fd);
    eexists [_]; (split; [reflexivity|by repeat constructor]).
Qed.

Lemma emit_quiet ev w : quiet ev -> emits quiet (emit ev) w.
Proof. intros H. by apply (emits_one _ _ _ ev). Qed.

Lemma close_quiet fd w : emits quiet (close fd) w.
Proof. by apply (emits_one _ _ _ (EvClose fd)). Qed.

Lemma set_current_child_quiet pid w : emits quiet (set_current_child pid) w.
Proof. by apply (emits_one _ _ _ (EvForeground pid)). Qed.

Lemma clock_gettime_quiet e w : emits quiet (clock_gettime e) w.
Proof. by apply (emits_one _ _ _ EvClock). Qed.

Lemma getrusage_quiet e w : emits quiet (getrusage e) w.
Proof. by apply (emits_one _ _ _ EvRusage). Qed.

Lemma mkstemp_quiet e w : emits quiet (mkstemp e) w.
Proof.
  unfold emits, mkstemp. case_match;
    eexists [_]; (split; [reflexivity|by repeat constructor]).
Qed.

Lemma open_append_quiet e path w : emits quiet (open_append e path) w.
Proof.
  unfold emits, open_append. case_match;
    eexists [_]; (split; [reflexivity|by repeat constructor]).
Qed.

Lemma waitpid_quiet e pid nohang w : emits quiet (waitpid e pid nohang) w.
Proof.
  destruct (waitpid e pid nohang w) as [r w'] eqn:Hw.
  pose proof (waitpid_cases e pid nohang w r w' Hw) as H.
  destruct r as [res| |c|]; try done.
  - destruct H as (Ht & _). apply (emits_one _ _ _ (EvWaitpid pid nohang res)); [|done].
    by rewrite Hw.
  - subst w'. apply emits_none. by rewrite Hw.
  - subst w'. apply emits_none. by rewrite Hw.
Qed.

Lemma kill_trace e pid sig w :
  w_trace (kill e pid sig w).2 = w_trace w ++ [EvKill pid sig].
Proof. unfold kill. simpl. by repeat case_match. Qed.

Lemma copy_loop_quiet budget tmpfd outfd w : emits quiet (copy_loop budget tmpfd outfd) w.
Proof.
  revert w. induction budget as [|budget IH]; intros w; cbn [copy_loop];
    (apply emits_bind; [apply read_quiet|]); intros [|c r] w1 _;
    try apply emits_ret;
    (apply emits_bind; [apply write_quiet|]); intros _ w2 _; [|apply IH].
  by apply emits_none.
Qed.

Lemma save_block_quiet e filename name tmpfd tmpname summary n w :
  emits quiet (save_block e filename name tmpfd tmpname summary n) w.
Proof.
  unfold save_block.
  apply emits_bind; [apply open_append_quiet|]. intros outfd w1 _.
  apply emits_bind.
  - destruct outfd as [outfd|]; [|by apply emit_quiet].
    apply emits_bind; [apply write_quiet|]. intros _ w2 _.
    apply emits_bind; [by apply (emits_one _ _ _ (EvLseek tmpfd))|]. intros _ w3 _.
    apply emits_bind; [by apply emits_none|]. intros budget w4 _.
    apply emits_bind; [apply copy_loop_quiet|]. intros _ w5 _.
    apply emits_bind; [apply write_buf_quiet|]. intros _ w6 _.
    apply emits_bind; [apply write_quiet|]. intros _ w7 _.
    apply close_quiet.
  - intros _ w2 _. apply emits_bind; [apply close_quiet|]. intros _ w3 _.
    by apply (emits_one _ _ _ (EvUnlink tmpname)).
Qed.

Lemma poll_loop_kills e left pid status w :
  emits (kills_only pid SIGKILL) (poll_loop e left pid status) w.
Proof.
  revert w. induction left as [|left IH]; intros w; cbn [poll_loop];
    (apply emits_bind;
     [apply (emits_weaken quiet); [apply quiet_kills_only|apply waitpid_quiet]|]);
    intros [st| |] w1 _; try apply emits_ret;
    try (apply emits_bind; [by apply (emits_one _ _ _ (EvPerror "waitpid"))|];
         intros _ w2 _; apply emits_ret).
  - apply emits_bind;
      [by apply (emits_one _ _ _ (EvKill pid SIGKILL)); [apply kill_trace|]|].
    intros _ w2 _.
    apply emits_bind;
      [apply (emits_weaken quiet); [apply quiet_kills_only|apply waitpid_quiet]|].
    intros r w3 _. apply emits_ret.
  - apply emits_bind; [by apply (emits_one _ _ _ (EvSleep 1))|]. intros _ w2 _. apply IH.
Qed.

(** After the [fork]: the wait, the summary and what is done with it. *)
Lemma profile_tail_kills e argv save filename secs tmpfd tmpname start pid w :
  emits (kills_only pid SIGKILL)
    (set_current_child pid;;
     status ←
       (if 0 <? secs
        then poll_loop e (Z.to_nat secs) pid 0
        else r ← waitpid e pid false;
             mret (match r with WDone st => st | _ => 0 end));
     finish ← clock_gettime e;
     usage ← getrusage e;
     let name := default EmptyString (head argv) in
     let '(summary, n) :=
       snprintf 1024 (make_summary e name start finish usage status) in
     (if save && bool_decide (tmpfd ≠ -1)
      then save_block e filename name tmpfd tmpname summary n
      else if negb save
           then write_buf STDOUT_FILENO summary n
           else mret tt);;
     set_current_child 0;;
     mret status) w
  /\ (secs <= 0 ->
      emits quiet
        (set_current_child pid;;
         status ←
           (if 0 <? secs
            then poll_loop e (Z.to_nat secs) pid 0
            else r ← waitpid e pid false;
                 mret (match r with WDone st => st | _ => 0 end));
         finish ← clock_gettime e;
         usage ← getrusage e;
         let name := default EmptyString (head argv) in
         let '(summary, n) :=
           snprintf 1024 (make_summary e name start finish usage status) in
         (if save && bool_decide (tmpfd ≠ -1)
          then save_block e filename name tmpfd tmpname summary n
          else if negb save
               then write_buf STDOUT_FILENO summary n
               else mret tt);;
         set_current_child 0;;
         mret status) w).
Proof.
  assert (forall cls : event -> Prop,
            (forall ev, quiet ev -> cls ev) ->
            (forall w1, emits cls
                          (if 0 <? secs
                           then poll_loop e (Z.to_nat secs) pid 0
                           else r ← waitpid e pid false;
                                mret (match r with WDone st => st | _ => 0 end)) w1) ->
            emits cls
              (set_current_child pid;;
               status ←
                 (if 0 <? secs
                  then poll_loop e (Z.to_nat secs) pid 0
                  else r ← waitpid e pid false;
                       mret (match r with WDone st => st | _ => 0 end));
               finish ← clock_gettime e;
               usage ← getrusage e;
               let name := default EmptyString (head argv) in
               let '(summary, n) :=
                 snprintf 1024 (make_summary e name start finish usage status) in
               (if save && bool_decide (tmpfd ≠ -1)
                then save_block e filename name tmpfd tmpname summary n
                else if negb save
                     then write_buf STDOUT_FILENO summary n
                     else mret tt);;
               set_current_child 0;;
               mret status) w) as Hgen.
  { intros cls Hq Hwait.
    apply emits_bind; [apply (emits_weaken quiet _ _ _ Hq), set_current_child_quiet|].
    intros _ w1 _. apply emits_bind; [apply Hwait|]. intros status w2 _.
    apply (emits_weaken quiet _ _ _ Hq).
    apply emits_bind; [apply clock_gettime_quiet|]. intros finish w3 _.
    apply emits_bind; [apply getrusage_quiet|]. intros usage w4 _.
    cbv zeta. destruct (snprintf 1024 _) as [summary n].
    apply emits_bind.
    - destruct (save && bool_decide (tmpfd ≠ -1)); [apply save_block_quiet|].
      destruct (negb save); [apply write_buf_quiet|apply emits_ret].
    - intros _ w5 _. apply emits_bind; [apply set_current_child_quiet|].
      intros _ w6 _. apply emits_ret. }
  split.
  - apply Hgen; [apply quiet_kills_only|]. intros w1.
    destruct (0 <? secs); [apply poll_loop_kills|].
    apply (emits_weaken quiet); [apply quiet_kills_only|].
    apply emits_bind; [apply waitpid_quiet|]. intros r w2 _. apply emits_ret.
  - intros Hsecs. apply Hgen; [done|]. intros w1.
    rewrite (proj2 (Z.ltb_ge 0 secs) Hsecs).
    apply emits_bind; [apply waitpid_quiet|]. intros r w2 _. apply emits_ret.
Qed.

(** The only signal of a profile is the SIGKILL of a timed wait, sent to the
    child the profile forked. *)
Lemma run_and_profile_kills e argv save filename secs w evs p sig :
  w_trace (run_and_profile e argv save filename secs w).2 = w_trace w ++ evs ->
  EvKill p sig ∈ evs ->
  p = w_next_pid w /\ sig = SIGKILL /\ 0 < secs /\ EvFork (Some p) ∈ evs.
Proof.
  unfold run_and_profile. rewrite bind_run.
  destruct ((if save then mkstemp e else _) w) as [r1 w1] eqn:H1.
  assert (exists evs1, w_trace w1 = w_trace w ++ evs1 /\ Forall quiet evs1
                       /\ w_next_pid w1 = w_next_pid w
                       /\ (exists a, r1 = Ret a)) as (evs1 & Ht1 & Hq1 & Hn1 & Hr1).
  { destruct save.
    - unfold mkstemp in H1. case_match; simplify_eq; simpl;
        (eexists [_]; split; [reflexivity|]; split; [by repeat constructor|]);
        split; eauto.
    - unfold mret, M_ret in H1. simplify_eq. exists []. rewrite app_nil_r.
      repeat split; eauto. }
  assert (EvKill p sig ∉ evs1) as Hnokill.
  { intros Hin. by apply (proj1 (Forall_forall _ _) Hq1) in Hin. }
  destruct Hr1 as [tmp ->]. destruct tmp as [[tmpfd tmpname]|].
  2:{ unfold perror, emit. run. simpl. rewrite Ht1, <- app_assoc.
      intros <-%app_inv_head Hin. exfalso.
      apply elem_of_app in Hin as [Hin|Hin]; [done|].
      apply elem_of_cons in Hin as [?|Hin]; [done|]. by apply elem_of_nil in Hin. }
  rewrite bind_run. unfold clock_gettime at 1. cbv beta iota.
  rewrite bind_run. unfold fork at 1. cbv beta iota zeta.
  destruct (e_fails e _).
  { unfold perror, emit. run. simpl. rewrite Ht1, <- !app_assoc.
    intros <-%app_inv_head Hin. exfalso.
    apply elem_of_app in Hin as [Hin|Hin]; [done|].
    repeat (apply elem_of_cons in Hin as [?|Hin]; [done|]).
    by apply elem_of_nil in Hin. }
  match goal with
  | |- w_trace (?tail ?W).2 = _ -> _ =>
      destruct (profile_tail_kills e argv save filename secs tmpfd tmpname
                  (e_clock e (length (w_trace w1))) (w_next_pid w1) W)
        as [(evs3 & Ht3 & Hk3) Hquiet];
      intros Ht; assert (w_trace (tail W).2 = w_trace W ++ evs3) as Ht3' by exact Ht3;
      rewrite Ht3' in Ht
  end.
  simpl in Ht. rewrite Ht1, <- !app_assoc in Ht. simpl in Ht.
  apply app_inv_head in Ht as <-. intros Hin.
  assert (EvKill p sig ∈ evs3) as Hin3.
  { apply elem_of_app in Hin as [Hin|Hin]; [done|].
    apply elem_of_cons in Hin as [?|Hin]; [done|].
    apply elem_of_cons in Hin as [?|Hin]; [done|]. exact Hin. }
  pose proof (proj1 (Forall_forall _ _) Hk3 _ Hin3) as [-> ->].
  split; [done|]. split; [done|]. split.
  - destruct (decide (0 < secs)) as [|Hle]; [done|]. exfalso.
    destruct (Hquiet ltac:(lia)) as (evs4 & Ht4 & Hq4).
    rewrite Ht3 in Ht4. apply app_inv_head in Ht4 as <-.
    by apply (proj1 (Forall_forall _ _) Hq4) in Hin3.
  - rewrite Hn1. apply elem_of_app. right.
    apply elem_of_cons. right. apply elem_of_cons. by left.
Qed.

Lemma then_ret_trace {A B} (m : M A) (b : B) w :
  w_trace ((m;; mret b) w).2 = w_trace (m w).2.
Proof. run. by destruct (m w) as [[a| |c|] w1]. Qed.

Lemma no_new_events (tr evs : list event) (ev : event) :
  tr = tr ++ evs -> ev ∈ evs -> False.
Proof.
  intros H Hin. rewrite <- (app_nil_r tr) in H at 1.
  apply app_inv_head in H as <-. by apply elem_of_nil in Hin.
Qed.

Lemma one_new_event (tr evs : list event) (ev ev' : event) :
  tr ++ [ev'] = tr ++ evs -> ev ∈ evs -> ev = ev'.
Proof.
  intros <-%app_inv_head Hin. apply elem_of_cons in Hin as [?|Hin]; [done|].
  by apply elem_of_nil in Hin.
Qed.

Lemma execute_pipeline_no_kill e commands w evs p sig :
  w_trace (execute_pipeline e commands w).2 = w_trace w ++ evs ->
  EvKill p sig ∈ evs -> False.
Proof.
  destruct (execute_pipeline_calls e commands w) as (_ & evs' & -> & Hall).
  intros <-%app_inv_head Hin.
  by apply (proj1 (Forall_forall _ _) Hall) in Hin.
Qed.

(** X26.  [sigint_handler] apart, which runs when the user interrupts and
    is no part of the calls [interpret] makes, the only [kill] in the code
    that runs a line is the one of the timed wait: every [kill] among the
    calls of [interpret] has signal SIGKILL, goes to a child that the same
    line forked, and is made by [miprof maxtiempo] with a positive number
    of seconds; pipelines, built-ins and the other profiles call [kill]
    nowhere, whatever fails. *)
Theorem shell_kills_only_timed_out_child e line w evs p sig :
  w_trace (interpret e line w).2 = w_trace w ++ evs ->
  EvKill p sig ∈ evs ->
  sig = SIGKILL
  /\ EvFork (Some p) ∈ evs
  /\ exists segs name rest,
       parse_args line = "miprof" :: "maxtiempo" :: segs :: name :: rest
       /\ 0 < atoi segs.
Proof.
  unfold interpret. destruct (trim line) as [|c r] eqn:Htrim.
  { intros Ht Hin. exfalso. by eapply no_new_events. }
  rewrite <- Htrim. case_bool_decide.
  2:{ rewrite then_ret_trace. intros Ht Hin. exfalso.
      by eapply execute_pipeline_no_kill. }
  rewrite then_ret_trace. unfold handle_single_command.
  rewrite parse_args_trim.
  destruct (parse_args line) as [|name args].
  { intros Ht Hin. exfalso. by eapply no_new_events. }
  destruct (String.eqb name "exit").
  { intros Ht Hin. exfalso. by eapply no_new_events. }
  destruct (String.eqb name "cd").
  { rewrite then_ret_trace. destruct args as [|path args]; intros Ht Hin; exfalso.
    - by eapply no_new_events.
    - by pose proof (one_new_event _ _ _ _ Ht Hin). }
  destruct (String.eqb_spec name "miprof") as [->|_].
  2:{ intros Ht Hin. exfalso. by eapply execute_pipeline_no_kill. }
  rewrite then_ret_trace. unfold miprof, eprintf.
  destruct args as [|mode args].
  { intros Ht Hin. by pose proof (one_new_event _ _ _ _ Ht Hin). }
  destruct (String.eqb mode "ejec").
  { destruct args as [|a args].
    - intros Ht Hin. by pose proof (one_new_event _ _ _ _ Ht Hin).
    - rewrite then_ret_trace. intros Ht Hin.
      destruct (run_and_profile_kills _ _ _ _ _ _ _ _ _ Ht Hin) as (_ & _ & ? & _). lia. }
  destruct (String.eqb mode "ejecsave").
  { destruct args as [|file [|a args]];
      try (intros Ht Hin; by pose proof (one_new_event _ _ _ _ Ht Hin)).
    rewrite then_ret_trace. intros Ht Hin.
    destruct (run_and_profile_kills _ _ _ _ _ _ _ _ _ Ht Hin) as (_ & _ & ? & _). lia. }
  destruct (String.eqb_spec mode "maxtiempo") as [->|_].
  2:{ intros Ht Hin. by pose proof (one_new_event _ _ _ _ Ht Hin). }
  destruct args as [|segs [|a args]];
    try (intros Ht Hin; by pose proof (one_new_event _ _ _ _ Ht Hin)).
  rewrite then_ret_trace. intros Ht Hin.
  destruct (run_and_profile_kills _ _ _ _ _ _ _ _ _ Ht Hin) as (_ & -> & Hsecs & Hfork).
  split; [done|]. split; [done|]. by exists segs, a, args.
Qed.

Lemma shell_kills_only_timed_out_child_witness :
  let line := "miprof maxtiempo 1 env --ignore-signal=ALRM sleep 5" in
  EvKill 1000 SIGKILL ∈ w_trace (interpret (calm unhurried) line (boot ∅)).2
  /\ EvFork (Some 1000) ∈ w_trace (interpret (calm unhurried) line (boot ∅)).2.
Proof.
  intros line.
  assert (EvKill 1000 SIGKILL ∈ w_trace (interpret (calm unhurried) line (boot ∅)).2)
    as Hin.
  { apply list_elem_of_In. vm_compute. tauto. }
  split; [exact Hin|].
  by destruct (shell_kills_only_timed_out_child (calm unhurried) line
                 (boot ∅) _ 1000 SIGKILL eq_refl Hin) as (_ & Hf & _).
Defined.

End SignalFacts.

(** * The pipeline as a whole *)

Section PipelineRuns.
Import Libc Kernel Tokenizer Shell Trace Text Calls Faults.

(** One turn of the first loop, whatever fails. *)
Lemma spawn_stage_outcome e i n in_fd command w :
  exists r w' evs,
    spawn_stage e i n in_fd command w = (Ret r, w')
    /\ w_trace w' = w_trace w ++ evs
    /\ Forall (fun ev => spawn_event ev = true) evs
    /\ current_child w' = current_child w
    /\ existsb spawn_failure evs = negb (bool_decide (is_Some r))
    /\ forked evs = match r with Some (pid, _) => [pid] | None => [] end.
Proof.
  unfold spawn_stage, pipe, fork, perror, emit, close. run.
  destruct (i <? n - 1); simpl;
    repeat (match goal with
            | |- context [e_fails e ?k] => destruct (e_fails e k); simpl
            end);
    destruct (bool_decide (in_fd ≠ STDIN_FILENO)); simpl;
    eexists _, _, _; (split; [reflexivity|]); simpl; rewrite <- ?app_assoc;
    (split; [reflexivity|]); (split; [by repeat constructor|]);
    (split; [reflexivity|]); (split; reflexivity).
Qed.

(** The first loop, whatever fails: it returns; it has failed exactly when
    a [pipe] or a [fork] has, and otherwise [pids] holds the children
    [fork] has returned, one per command, in order. *)
Lemma spawn_loop_outcome e commands :
  forall i n in_fd pids w,
  exists r w' evs,
    spawn_loop e commands i n in_fd pids w = (Ret r, w')
    /\ w_trace w' = w_trace w ++ evs
    /\ Forall (fun ev => spawn_event ev = true) evs
    /\ current_child w' = current_child w
    /\ existsb spawn_failure evs = negb (bool_decide (is_Some r))
    /\ (forall pids', r = Some pids' ->
          pids' = pids ++ forked evs /\ length (forked evs) = length commands).
Proof.
  induction commands as [|command rest IH]; intros i n in_fd pids w.
  - exists (Some pids), w, []. simpl. run. rewrite !app_nil_r.
    do 5 (split; [done|]). by intros ? [= <-].
  - cbn [spawn_loop]. run.
    destruct (spawn_stage_outcome e i n in_fd command w)
      as (r1 & w1 & evs1 & -> & Ht1 & Hs1 & Hc1 & Hf1 & Hk1).
    destruct r1 as [[pid in_fd']|].
    + destruct (IH (i + 1) n in_fd' (pids ++ [pid]) w1)
        as (r & w2 & evs2 & -> & Ht2 & Hs2 & Hc2 & Hf2 & Hk2).
      exists r, w2, (evs1 ++ evs2). split; [reflexivity|].
      split. { by rewrite Ht2, Ht1, app_assoc. }
      split. { by apply Forall_app. }
      split. { congruence. }
      split. { by rewrite existsb_app, Hf1, Hf2. }
      intros pids' ->. destruct (Hk2 _ eq_refl) as [-> Hlen].
      rewrite forked_app, Hk1, <- app_assoc, length_app, Hlen. done.
    + exists None, w1, evs1. repeat split; try done.
Qed.

Lemma last_status_snoc status results r :
  last_status status (results ++ [r])
  = match r with WDone x => x | _ => last_status status results end.
Proof. unfold last_status. by rewrite foldl_app. Qed.

Lemma last_status_done status sts :
  last_status status (WDone <$> sts) = default status (last sts).
Proof.
  induction sts as [|st sts IH] using rev_ind; [done|].
  rewrite fmap_app. cbn [fmap list_fmap]. by rewrite last_status_snoc, last_snoc.
Qed.

(** The second loop, whatever fails: either every wait returns, and the
    result is the status of the last one that returned a child, or the
    loop stops inside the wait for one of the children. *)
Lemma wait_loop_outcome e pids :
  forall status w,
  exists results,
    match (wait_loop e pids status w).1 with
    | Ret st =>
        length results = length pids
        /\ st = last_status status results
        /\ w_trace (wait_loop e pids status w).2 = w_trace w ++ waits (zip pids results)
        /\ current_child (wait_loop e pids status w).2
           = default (current_child w) (last pids)
    | Exit _ => False
    | _ =>
        exists pid,
          pids !! length results = Some pid
          /\ w_trace (wait_loop e pids status w).2
             = w_trace w ++ waits (zip pids results) ++ [EvForeground pid]
          /\ current_child (wait_loop e pids status w).2 = pid
    end.
Proof.
  induction pids as [|pid rest IH]; intros status w.
  - exists []. simpl. by rewrite app_nil_r.
  - cbn [wait_loop]. unfold set_current_child. run.
    destruct (waitpid e pid false _) as [r w1] eqn:Hw.
    apply waitpid_cases in Hw. destruct r as [res| | |]; try done.
    + destruct Hw as (Ht & _ & Hc). simpl in Ht, Hc.
      match goal with |- context [wait_loop e rest ?s w1] =>
        destruct (IH s w1) as [results Hres];
        destruct (wait_loop e rest s w1) as [[st| | |] w2]
      end; simpl in *; try done; exists (res :: results); simpl.
      * destruct Hres as (Hlen & -> & Ht2 & Hc2).
        rewrite Hlen, Ht2, Ht, Hc2, Hc, <- !app_assoc.
        repeat split; try done.
        destruct rest as [|q rest2]; [done|].
        change (last (pid :: q :: rest2)) with (last (q :: rest2)).
        by destruct (proj2 (last_is_Some (q :: rest2)) ltac:(done)) as [z ->].
      * destruct Hres as (q & Hq & Ht2 & Hc2). exists q.
        rewrite Ht2, Ht, <- !app_assoc. done.
      * destruct Hres as (q & Hq & Ht2 & Hc2). exists q.
        rewrite Ht2, Ht, <- !app_assoc. done.
    + subst w1. exists []. simpl. exists pid. done.
    + subst w1. exists []. simpl. exists pid. done.
Qed.

Lemma slot_after_app init a b :
  slot_after init (a ++ b) = slot_after (slot_after init a) b.
Proof. apply foldl_app. Qed.

Lemma slot_after_spawn init evs :
  Forall (fun ev => spawn_event ev = true) evs -> slot_after init evs = init.
Proof.
  intros H. revert init. induction H as [|ev evs Hev _ IH]; intros init; [done|].
  simpl. rewrite <- (IH init). by destruct ev.
Qed.

Lemma waits_app a b : waits (a ++ b) = waits a ++ waits b.
Proof. unfold waits. by rewrite !flat_map_app. Qed.

(** The whole call, whatever fails. *)
Lemma execute_pipeline_outcome e commands w :
  exists spawn later,
    w_trace (execute_pipeline e commands w).2 = w_trace w ++ spawn ++ later
    /\ Forall (fun ev => spawn_event ev = true) spawn
    /\ if existsb spawn_failure spawn
       then later = []
            /\ (execute_pipeline e commands w).1 = Ret (-1)
            /\ current_child (execute_pipeline e commands w).2 = current_child w
       else
         length (forked spawn) = length commands
         /\ exists results,
              match (execute_pipeline e commands w).1 with
              | Ret st =>
                  length results = length commands
                  /\ st = last_status 0 results
                  /\ later = waits (zip (forked spawn) results) ++ [EvForeground 0]
                  /\ current_child (execute_pipeline e commands w).2 = 0
              | Exit _ => False
              | _ =>
                  exists pid,
                    forked spawn !! length results = Some pid
                    /\ later = waits (zip (forked spawn) results) ++ [EvForeground pid]
                    /\ current_child (execute_pipeline e commands w).2 = pid
              end.
Proof.
  unfold execute_pipeline. run.
  destruct (spawn_loop_outcome e commands 0 (Z.of_nat (length commands)) STDIN_FILENO [] w)
    as (r & w1 & spawn & -> & Ht & Hs & Hc & Hf & Hk).
  destruct r as [pids|]; simpl in Hf.
  - destruct (Hk _ eq_refl) as [-> Hlen]. simpl.
    destruct (wait_loop_outcome e (forked spawn) 0 w1) as [results Hres].
    destruct (wait_loop e (forked spawn) 0 w1) as [[st| | |] w2]; simpl in *; try done.
    + destruct Hres as (Hl & -> & Ht2 & _).
      exists spawn, (waits (zip (forked spawn) results) ++ [EvForeground 0]).
      rewrite Hf. unfold set_current_child. simpl. rewrite Ht2, Ht, <- !app_assoc.
      split; [done|]. split; [done|]. split; [done|].
      exists results. repeat split; try done. congruence.
    + destruct Hres as (pid & Hp & Ht2 & Hc2).
      exists spawn, (waits (zip (forked spawn) results) ++ [EvForeground pid]).
      rewrite Hf, Ht2, Ht, <- !app_assoc.
      split; [done|]. split; [done|]. split; [done|]. exists results, pid. done.
    + destruct Hres as (pid & Hp & Ht2 & Hc2).
      exists spawn, (waits (zip (forked spawn) results) ++ [EvForeground pid]).
      rewrite Hf, Ht2, Ht, <- !app_assoc.
      split; [done|]. split; [done|]. split; [done|]. exists results, pid. done.
  - exists spawn, []. rewrite Hf, app_nil_r. done.
Qed.

(** The second loop when no call fails and every child ends: each child
    is reaped by its own wait, which gives the status that child ends
    with. *)
Lemma wait_loop_statuses e pids :
  (forall k, e_fails e k = false) ->
  NoDup pids ->
  forall status w,
  (forall pid, pid ∈ pids ->
     exists p, w_procs w !! pid = Some p
       /\ p_reaped p = false /\ p_killed p = false
       /\ is_Some (child_lifetime e (p_child p))
       /\ is_Some (child_status e (p_child p))) ->
  exists sts w',
    wait_loop e pids status w = (Ret (last_status status (WDone <$> sts)), w')
    /\ w_trace w' = w_trace w ++ waits (zip pids (WDone <$> sts))
    /\ Forall2 (fun pid st =>
                  exists p, w_procs w !! pid = Some p
                    /\ child_status e (p_child p) = Some st
                    /\ w_procs w' !! pid
                       = Some (Proc (p_child p) (p_born p) (p_files p) false true))
         pids sts
    /\ (forall pid, pid ∉ pids -> w_procs w' !! pid = w_procs w !! pid).
Proof.
  intros Hno. induction pids as [|pid rest IH]; intros Hnd status w Hgood.
  - exists [], w. simpl. run. rewrite app_nil_r. by repeat split.
  - apply NoDup_cons in Hnd as [Hnotin Hnd].
    destruct (Hgood pid) as (p & Hp & Hr & Hk & [d Hd] & [st Hst]); [by left|].
    cbn [wait_loop]. unfold set_current_child. run.
    destruct (waitpid_reaps e pid p d st (log (EvForeground pid) (set_child pid w))
                Hno Hp Hr Hk Hd Hst) as (w1 & -> & Ht1 & Hp1 & Hc1).
    simpl in Hp1.
    destruct (IH Hnd st w1) as (sts & w2 & Hw2 & Ht2 & Hall & Hframe).
    { intros q Hq. destruct (Hgood q) as (pq & Hpq & Hrest); [by right|].
      exists pq. split; [|done]. rewrite Hp1, lookup_insert_ne; [done|].
      intros ->. done. }
    exists (st :: sts), w2. cbn [fmap list_fmap]. split; [exact Hw2|].
    split. { rewrite Ht2, Ht1. simpl. by rewrite <- !app_assoc. }
    split.
    + constructor.
      * exists p. split; [done|]. split; [done|].
        rewrite (Hframe pid Hnotin), Hp1, lookup_insert_eq. by rewrite Hk.
      * apply Forall2_same_length_lookup_2; [by eapply Forall2_length|].
        intros j q sq Hq Hsq.
        destruct (Forall2_lookup_lr _ _ _ _ _ _ Hall Hq Hsq) as (pq & Hpq & Hst' & Hq2).
        exists pq. split; [|done].
        rewrite Hp1, lookup_insert_ne in Hpq; [done|].
        intros ->. apply Hnotin. by eapply list_elem_of_lookup_2.
    + intros q Hq. apply not_elem_of_cons in Hq as [Hne Hq].
      rewrite (Hframe q Hq), Hp1. by apply lookup_insert_ne.
Qed.

(** The whole call when no call fails and every program ends: it returns;
    one child has been forked per command, in order, and each has been
    reaped by the wait of the same position, which gave the status that
    child ended with; the status of the last one is returned. *)
Lemma execute_pipeline_runs e commands w :
  (forall k, e_fails e k = false) ->
  (forall ops argv, is_Some (f_lifetime (e_image e ops argv))) ->
  exists spawn sts,
    (execute_pipeline e commands w).1 = Ret (default 0 (last sts))
    /\ w_trace (execute_pipeline e commands w).2
       = w_trace w ++ spawn ++ waits (zip (forked spawn) (WDone <$> sts))
           ++ [EvForeground 0]
    /\ Forall (fun ev => spawn_event ev = true) spawn
    /\ length (forked spawn) = length commands
    /\ length sts = length commands
    /\ (forall k command,
          commands !! k = Some command ->
          exists pid st in_fd pipefd born files,
            let c := stage_child e in_fd
                       (Z.of_nat k <? Z.of_nat (length commands) - 1) pipefd command in
            forked spawn !! k = Some pid
            /\ sts !! k = Some st
            /\ child_status e c = Some st
            /\ w_procs (execute_pipeline e commands w).2 !! pid
               = Some (Proc c born files false true)
            /\ (k = O -> in_fd = STDIN_FILENO)).
Proof.
  intros Hno Hends. unfold execute_pipeline. run.
  destruct (spawn_loop_forks e commands Hno 0 (Z.of_nat (length commands)) STDIN_FILENO [] w)
    as (w1 & spawn & Hrun1 & Ht1 & Hf1 & Hr1 & Hn1 & Hc1 & Hold & Hnew).
  destruct (spawn_loop_outcome e commands 0 (Z.of_nat (length commands)) STDIN_FILENO [] w)
    as (r' & w1' & spawn' & Hrun1' & Ht1' & Hs1 & _).
  rewrite Hrun1 in Hrun1'. injection Hrun1' as <- <-.
  rewrite Ht1 in Ht1'. apply app_inv_head in Ht1' as <-.
  rewrite Hrun1. cbn [app].
  set (pids := seqZ (w_next_pid w) (Z.of_nat (length commands))) in *.
  destruct (wait_loop_statuses e pids Hno (NoDup_seqZ _ _) 0 w1)
    as (sts & w2 & Hrun2 & Ht2 & Hall & _).
  { intros pid Hpid. apply elem_of_seqZ in Hpid.
    destruct (lookup_lt_is_Some_2 commands (Z.to_nat (pid - w_next_pid w))) as [cmd Hcmd];
      [lia|].
    destruct (Hnew _ _ Hcmd) as (in_fd & pipefd & files & Hp & _).
    replace (w_next_pid w + Z.of_nat (Z.to_nat (pid - w_next_pid w))) with pid in Hp by lia.
    eexists. split; [exact Hp|]. simpl.
    destruct (stage_child_ends e in_fd
                (0 + Z.of_nat (Z.to_nat (pid - w_next_pid w)) <? Z.of_nat (length commands) - 1)
                pipefd cmd Hends).
    done. }
  rewrite Hrun2. unfold set_current_child. simpl.
  pose proof (Forall2_length _ _ _ Hall) as Hlen.
  subst pids. rewrite length_seqZ in Hlen.
  exists spawn, sts. rewrite Hf1.
  split. { by rewrite last_status_done. }
  split. { rewrite Ht2, Ht1. by rewrite <- !app_assoc. }
  split; [done|].
  split. { rewrite length_seqZ. lia. }
  split. { lia. }
  intros k command Hk.
  destruct (Hnew _ _ Hk) as (in_fd & pipefd & files & Hp & Hin).
  assert (seqZ (w_next_pid w) (Z.of_nat (length commands)) !! k
          = Some (w_next_pid w + Z.of_nat k)) as Hpid.
  { apply lookup_seqZ. apply lookup_lt_Some in Hk. lia. }
  destruct (Forall2_lookup_l _ _ _ _ _ Hall Hpid) as (st & Hst & p & Hp' & Hstatus & Hfinal).
  rewrite Hp in Hp'. injection Hp' as <-. simpl in Hstatus, Hfinal.
  replace (0 + Z.of_nat k) with (Z.of_nat k) in * by lia.
  exists (w_next_pid w + Z.of_nat k), st, in_fd, pipefd, (w_clock w), files.
  simpl. done.
Qed.

(** C3 (amended).  In every call of [execute_pipeline], no store to
    [current_child] and no wait is made while the stages are spawned.  If a
    [pipe] or a [fork] fails, nothing follows, -1 is returned and the slot
    is as it was.  Otherwise one child has been forked per command, and the
    calls that follow are, for each of these children in the order they
    were forked, the store of its process identifier and then its wait,
    with nothing in between: after a wait has returned the slot still holds
    the child that was waited for, until the store for the next child.
    When every wait returns, one store of 0 follows the last one; when a
    wait does not return, the slot holds the child waited for. *)
Theorem foreground_slot_discipline e commands w :
  let run := execute_pipeline e commands w in
  exists spawn later,
    w_trace run.2 = w_trace w ++ spawn ++ later
    /\ Forall (fun ev => spawn_event ev = true) spawn
    /\ slot_after (current_child w) spawn = current_child w
    /\ if existsb spawn_failure spawn
       then later = [] /\ run.1 = Ret (-1) /\ current_child run.2 = current_child w
       else
         length (forked spawn) = length commands
         /\ exists results,
              (forall k pid,
                 forked spawn !! k = Some pid ->
                 (k < length results)%nat ->
                 slot_after (current_child w)
                   (spawn ++ waits (take (S k) (zip (forked spawn) results))) = pid)
              /\ match run.1 with
                 | Ret st =>
                     length results = length commands
                     /\ later = waits (zip (forked spawn) results) ++ [EvForeground 0]
                     /\ current_child run.2 = 0
                 | Exit _ => False
                 | _ =>
                     exists pid,
                       forked spawn !! length results = Some pid
                       /\ later = waits (zip (forked spawn) results) ++ [EvForeground pid]
                       /\ current_child run.2 = pid
                 end.
Proof.
  intros run. subst run.
  destruct (execute_pipeline_outcome e commands w) as (spawn & later & Ht & Hs & Hrest).
  exists spawn, later. split; [done|]. split; [done|].
  split; [by apply slot_after_spawn|].
  destruct (existsb spawn_failure spawn); [done|].
  destruct Hrest as (Hlen & results & Hres). split; [done|].
  exists results. split.
  - intros k pid Hk Hlt.
    destruct (lookup_lt_is_Some_2 results k Hlt) as [r Hr].
    assert (zip (forked spawn) results !! k = Some (pid, r)) as Hz.
    { apply lookup_zip_with_Some. eauto. }
    rewrite (take_S_r _ _ _ Hz), waits_app.
    rewrite app_assoc, slot_after_app. reflexivity.
  - destruct ((execute_pipeline e commands w).1) as [st| | |]; try done.
    destruct Hres as (? & _ & ? & ?). done.
Qed.

Lemma foreground_slot_discipline_witness :
  let run := execute_pipeline (calm by_name) ["true"; "false"] (boot ∅) in
  exists spawn results,
    w_trace run.2 = spawn ++ waits (zip (forked spawn) results) ++ [EvForeground 0]
    /\ Forall (fun ev => spawn_event ev = true) spawn
    /\ length (forked spawn) = 2%nat
    /\ length results = 2%nat
    /\ current_child run.2 = 0.
Proof.
  intros run.
  assert (run.1 = Ret (exited 1)) as Hret by (vm_compute; reflexivity).
  destruct (foreground_slot_discipline (calm by_name) ["true"; "false"] (boot ∅))
    as (spawn & later & Ht & Hs & _ & Hrest).
  fold run in Ht, Hrest.
  destruct (existsb spawn_failure spawn).
  - destruct Hrest as (_ & Hminus & _). rewrite Hret in Hminus. discriminate.
  - destruct Hrest as (Hlen & results & _ & Hres). rewrite Hret in Hres.
    destruct Hres as (Hl & -> & Hc).
    exists spawn, results. split; [exact Ht|]. split; [exact Hs|].
    split; [exact Hlen|]. split; [exact Hl|exact Hc].
Defined.

Lemma forked_waits prs : forked (waits prs) = [].
Proof. induction prs as [|[p r] prs IH]; [done|]. simpl. exact IH. Qed.

Lemma single_stage_child e command name rest :
  parse_args command = name :: rest ->
  e_execvp e (name :: rest) = None ->
  forall pipefd,
    stage_child e STDIN_FILENO false pipefd command = Child [] (CExec (name :: rest)).
Proof.
  intros Hargs Hfound pipefd. unfold stage_child. by rewrite Hargs, Hfound.
Qed.




(** C9.  A command whose argument vector is empty still takes its place in
    the pipeline.  When no call fails and every program ends, the call
    returns with one child forked per command; the child forked in the
    place of the empty command arms nothing more than the descriptors of
    its place, ends in [exit (0)] without a call to [execvp] and without a
    byte written, and the wait of the same place reaps it with status 0.
    The turn of the loop that spawns it makes the same calls and leaves the
    same descriptors as for any other command in that place.  A child only
    executes a program with a non-empty argument vector, the one
    [parse_args] gives. *)
Theorem empty_stage_is_noop e commands k command w :
  (forall j, e_fails e j = false) ->
  (forall ops argv, is_Some (f_lifetime (e_image e ops argv))) ->
  commands !! k = Some command ->
  parse_args command = [] ->
  let run := execute_pipeline e commands w in
  exists spawn sts pid in_fd pipefd born files,
    let c := stage_child e in_fd
               (Z.of_nat k <? Z.of_nat (length commands) - 1) pipefd command in
    run.1 = Ret (default 0 (last sts))
    /\ w_trace run.2
       = w_trace w ++ spawn ++ waits (zip (forked spawn) (WDone <$> sts))
           ++ [EvForeground 0]
    /\ length (forked spawn) = length commands
    /\ length sts = length commands
    /\ forked spawn !! k = Some pid
    /\ sts !! k = Some (exited 0)
    /\ w_procs run.2 !! pid = Some (Proc c born files false true)
    /\ c_end c = CExit 0
    /\ child_writes e c = []
    /\ (forall other i n fd w0,
          (spawn_stage e i n fd command w0).1 = (spawn_stage e i n fd other w0).1
          /\ w_trace (spawn_stage e i n fd command w0).2
             = w_trace (spawn_stage e i n fd other w0).2
          /\ w_fds (spawn_stage e i n fd command w0).2
             = w_fds (spawn_stage e i n fd other w0).2)
    /\ (forall other fd piped pf argv,
          c_end (stage_child e fd piped pf other) = CExec argv ->
          argv = parse_args other /\ argv <> []).
Proof.
  intros Hno Hends Hk Hargs run. subst run.
  destruct (execute_pipeline_runs e commands w Hno Hends)
    as (spawn & sts & Hret & Ht & Hs & Hlf & Hls & Hstage).
  destruct (Hstage k command Hk)
    as (pid & st & in_fd & pipefd & born & files & H1 & H2 & H3 & H4 & _).
  exists spawn, sts, pid, in_fd, pipefd, born, files. simpl in *.
  assert (c_end (stage_child e in_fd (Z.of_nat k <? Z.of_nat (length commands) - 1)
                   pipefd command) = CExit 0) as Hend.
  { unfold stage_child. by rewrite Hargs. }
  split; [done|]. split; [done|]. split; [done|]. split; [done|]. split; [done|].
  split. { unfold child_status in H3. rewrite Hend in H3. congruence. }
  split; [done|]. split; [done|].
  split; [|split].
  - unfold child_writes. rewrite Hend, app_nil_r. unfold stage_child. rewrite Hargs.
    simpl. destruct (bool_decide (in_fd ≠ STDIN_FILENO)),
             (Z.of_nat k <? Z.of_nat (length commands) - 1); reflexivity.
  - intros other i n fd w0.
    unfold spawn_stage, mbind, mret, M_bind, M_ret, pipe, fork, perror, emit, close.
    destruct (i <? n - 1); simpl;
      repeat (match goal with |- context [e_fails e ?j] => destruct (e_fails e j) eqn:? end; simpl);
      try congruence;
      destruct (bool_decide (fd ≠ STDIN_FILENO)); simpl; done.
  - intros other fd piped pf argv. unfold stage_child.
    destruct (parse_args other) as [|a l] eqn:Hp; simpl; [done|].
    destruct (e_execvp e (a :: l)); simpl; [done|].
    intros [= <-]. done.
Qed.

Lemma empty_stage_is_noop_witness :
  let run := execute_pipeline (calm by_name) (split_pipeline "true| |true") (boot ∅) in
  split_pipeline "true| |true" = ["true"; ""; "true"]
  /\ exists spawn sts pid,
       w_trace run.2
       = spawn ++ waits (zip (forked spawn) (WDone <$> sts)) ++ [EvForeground 0]
       /\ length (forked spawn) = 3%nat
       /\ forked spawn !! 1%nat = Some pid
       /\ sts !! 1%nat = Some (exited 0)
       /\ (exists c born files,
             w_procs run.2 !! pid = Some (Proc c born files false true)
             /\ c_end c = CExit 0).
Proof.
  intros run. split; [vm_compute; reflexivity|].
  destruct (empty_stage_is_noop (calm by_name) (split_pipeline "true| |true") 1 ""
              (boot ∅))
    as (spawn & sts & pid & in_fd & pipefd & born & files
        & _ & Ht & Hlf & _ & Hpid & Hst & Hproc & Hend & _).
  - reflexivity.
  - intros ops argv. simpl. unfold by_name. case_bool_decide; eauto.
  - vm_compute. reflexivity.
  - reflexivity.
  - exists spawn, sts, pid. split; [exact Ht|]. split; [exact Hlf|].
    split; [exact Hpid|]. split; [exact Hst|].
    eexists _, born, files. split; [exact Hproc|exact Hend].
Defined.

End PipelineRuns.

(** * The waits of a profile *)

Section ProfileWaits.
Import Libc Kernel Tokenizer Shell Trace Text Calls Faults.

Lemma polls_running_S pid j :
  polls_running pid (S j)
  = polls_running pid j ++ [EvWaitpid pid true WRunning; EvSleep 1].
Proof.
  unfold polls_running. rewrite replicate_S_end, concat_app. simpl. done.
Qed.

Lemma ended_later e pid p now k k' :
  (k <= k')%nat -> ended e pid p now k = true -> ended e pid p now k' = true.
Proof.
  intros Hk. unfold ended. destruct (p_killed p); [done|]. simpl.
  destruct (child_lifetime e (p_child p)) as [d|]; [|done].
  rewrite !orb_true_iff, !andb_true_iff, !bool_decide_eq_true. lia.
Qed.

(** The timed wait on a child found ended by the poll that follows [j]
    sleeps. *)
Lemma timed_wait_found pid T d st instant first j :
  (j <= T)%nat ->
  (d = j /\ (instant <= first + 2 * j)%nat)
  \/ (j = S d /\ (first + 2 * d < instant)%nat) ->
  timed_wait pid T (Some d) st instant first = (found_ended pid j st, st).
Proof.
  intros Hj Hcase. unfold timed_wait.
  destruct Hcase as [[-> ?]|[-> ?]]; repeat case_bool_decide; try lia; try done.
  by subst.
Qed.

(** The timed wait on a child that every poll finds running. *)
Lemma timed_wait_deadline pid T lifetime st instant first :
  match lifetime with
  | Some d => (T < d)%nat \/ (d = T /\ (first + 2 * T < instant)%nat)
  | None => True
  end ->
  let status :=
    match lifetime with
    | Some d =>
        if bool_decide (d = T) && bool_decide (instant <= S (first + 2 * T))%nat
        then st else signaled SIGKILL
    | None => signaled SIGKILL
    end in
  timed_wait pid T lifetime st instant first = (timed_out pid T status, status).
Proof.
  intros Hcase. unfold timed_wait. destruct lifetime as [d|]; [|done].
  repeat case_bool_decide; simpl; try lia; done.
Qed.

(** A blocking wait on a child that was just forked lasts as long as the
    child runs. *)
Lemma waitpid_blocks_until_end e pid p d st w :
  e_fails e (length (w_trace w)) = false ->
  w_procs w !! pid = Some p ->
  p_reaped p = false ->
  p_killed p = false ->
  w_clock w = p_born p ->
  child_lifetime e (p_child p) = Some d ->
  child_status e (p_child p) = Some st ->
  waitpid e pid false w
  = (Ret (WDone st),
     log (EvWaitpid pid false (WDone st)) (reap e pid p (set_clock (p_born p + d) w))).
Proof.
  intros Hno Hp Hr Hk Hc Hd Hst. unfold waitpid, ended.
  rewrite Hno, Hp, Hr, Hd, Hk, Hst, Hc. simpl.
  destruct (bool_decide (p_born p + d < p_born p)%nat) eqn:H1.
  { apply bool_decide_eq_true in H1. lia. }
  simpl. destruct (bool_decide (p_born p + d = p_born p)%nat) eqn:H2; [|done].
  apply bool_decide_eq_true in H2. simpl.
  destruct (bool_decide (e_instant e pid <= length (w_trace w))%nat); [|done].
  by replace (p_born p + d)%nat with (p_born p) by lia.
Qed.

#[local] Opaque waitpid kill save_block snprintf make_summary lowest_free str_take.
#[local] Arguments profiled_child : simpl never.
#[local] Arguments timed_wait : simpl never.

(** The end of both profiles that print: the summary is written when it
    fits the array, and the write reads past the array when the summary is
    longer than it. *)
Lemma print_summary_outcome summary (status : Z) W :
  let m : M Z := (let '(buf, n) := snprintf 1024 summary in
                  write_buf STDOUT_FILENO buf n;; set_current_child 0;; mret status) in
  exists post,
    w_trace (m W).2 = w_trace W ++ post
    /\ w_clock (m W).2 = w_clock W
    /\ Forall (fun ev => timing_event ev = false) post
    /\ Forall (fun ev => timeout_free ev = true) post
    /\ ((m W).1 = Ret status \/ (m W).1 = Undef)
    /\ ((String.length summary < 1024)%nat ->
        (m W).1 = Ret status
        /\ post = [EvWrite STDOUT_FILENO summary; EvForeground 0]
        /\ current_child (m W).2 = 0)
    /\ ((1024 < String.length summary)%nat -> (m W).1 = Undef /\ post = []).
Proof.
  intros m. subst m.
  assert (forall text, exists w',
            write STDOUT_FILENO text W = (Ret tt, w')
            /\ w_trace w' = w_trace W ++ [EvWrite STDOUT_FILENO text]
            /\ w_clock w' = w_clock W) as Hwrite.
  { intros text. unfold write. eexists. split; [reflexivity|].
    repeat case_match; done. }
  destruct (decide (String.length summary < 1024)%nat) as [Hlen|Hlen].
  - rewrite (snprintf_fits 1024 summary Hlen). run.
    unfold write_buf. rewrite app_length_str.
    change (String.length (String "000" "")) with 1%nat.
    rewrite (proj2 (Z.leb_le 0 _)) by lia.
    rewrite (proj2 (Z.leb_le _ _)) by lia.
    rewrite Nat2Z.id, str_take_app by done. cbn [andb].
    destruct (Hwrite summary) as (w' & -> & Ht & Hc).
    unfold set_current_child. simpl.
    exists [EvWrite STDOUT_FILENO summary; EvForeground 0].
    rewrite Ht, <- app_assoc.
    split; [done|]. split; [done|]. split; [by repeat constructor|].
    split; [by repeat constructor|]. split; [by left|]. split; [done|]. lia.
  - destruct (snprintf 1024 summary) as [buf n] eqn:Hs. run.
    destruct (decide (1024 < String.length summary)%nat) as [Hlong|Hshort].
    + rewrite (snprintf_overrun STDOUT_FILENO 1024 summary buf n) by (done || lia).
      exists []. unfold undef. simpl. rewrite app_nil_r.
      split; [done|]. split; [done|]. split; [constructor|]. split; [constructor|].
      split; [by right|]. split; [lia|done].
    + unfold write_buf.
      destruct ((0 <=? n) && (n <=? Z.of_nat (String.length buf))).
      * destruct (Hwrite (str_take (Z.to_nat n) buf)) as (w' & -> & Ht & Hc).
        unfold set_current_child. simpl.
        exists [EvWrite STDOUT_FILENO (str_take (Z.to_nat n) buf); EvForeground 0].
        rewrite Ht, <- app_assoc.
        split; [done|]. split; [done|]. split; [by repeat constructor|].
        split; [by repeat constructor|]. split; [by left|]. split; lia.
      * exists []. unfold undef. simpl. rewrite app_nil_r.
        split; [done|]. split; [done|]. split; [constructor|]. split; [constructor|].
        split; [by right|]. split; lia.
Qed.

(** The timed wait from the poll that follows [j] sleeps on, on a child
    every earlier poll has found running. *)
Lemma poll_loop_run e pid p st status0 first :
  (forall k, e_fails e k = false) ->
  p_reaped p = false ->
  p_killed p = false ->
  child_status e (p_child p) = Some st ->
  forall left j w,
  w_procs w !! pid = Some p ->
  w_clock w = (p_born p + j)%nat ->
  length (w_trace w) = (first + 2 * j)%nat ->
  (forall d, child_lifetime e (p_child p) = Some d ->
     (j <= d)%nat \/ (j = S d /\ (first + 2 * d < e_instant e pid)%nat)) ->
  exists w' evs,
    poll_loop e left pid status0 w
    = (Ret (timed_wait pid (j + left) (child_lifetime e (p_child p)) st
              (e_instant e pid) first).2, w')
    /\ w_trace w' = w_trace w ++ evs
    /\ polls_running pid j ++ evs
       = (timed_wait pid (j + left) (child_lifetime e (p_child p)) st
            (e_instant e pid) first).1
    /\ w_fds w' = w_fds w
    /\ w_files w' = w_files w
    /\ current_child w' = current_child w.
Proof.
  intros Hno Hreaped Hkilled Hst.
  assert (forall left w,
    w_procs w !! pid = Some p ->
    ended e pid p (w_clock w) (length (w_trace w)) = true ->
    poll_loop e left pid status0 w
    = (Ret st, log (EvWaitpid pid true (WDone st))
                 (reap e pid p (set_clock (w_clock w) w)))) as Hdone.
  { intros left w Hp He. destruct left; simpl; run;
      rewrite (waitpid_ended e pid true p st) by (rewrite ?Hkilled; auto);
      reflexivity. }
  assert (forall w,
    w_procs w !! pid = Some p ->
    ended e pid p (w_clock w) (length (w_trace w)) = false ->
    exists w',
      let status := if ended e pid p (w_clock w) (S (length (w_trace w)))
                    then st else signaled SIGKILL in
      poll_loop e 0 pid status0 w = (Ret status, w')
      /\ w_trace w' = w_trace w ++ [EvWaitpid pid true WRunning; EvKill pid SIGKILL;
                                    EvWaitpid pid false (WDone status)]
      /\ w_fds w' = w_fds w
      /\ w_files w' = w_files w
      /\ current_child w' = current_child w) as Hlate.
  { intros w Hp He. simpl. run.
    rewrite (waitpid_running e pid p) by auto.
    destruct (ended e pid p (w_clock w) (S (length (w_trace w)))) eqn:He2.
    - rewrite (kill_too_late e pid p);
        [|exact Hp|simpl; by rewrite length_app, Nat.add_1_r].
      rewrite (waitpid_ended e pid false p st);
        [|apply Hno|exact Hp|exact Hreaped| |by rewrite Hkilled].
      + eexists. split; [reflexivity|]. simpl. rewrite <- !app_assoc. done.
      + simpl. apply (ended_later e pid p _ (S (length (w_trace w)))); [|done].
        rewrite !length_app. simpl. lia.
    - rewrite (kill_running e pid p);
        [|exact Hp|exact Hreaped|simpl; by rewrite length_app, Nat.add_1_r].
      rewrite (waitpid_ended e pid false (killed p) (signaled SIGKILL));
        [|auto|simpl; apply lookup_insert_eq|done|done|done].
      eexists. split; [reflexivity|]. simpl. rewrite <- !app_assoc. done. }
  induction left as [|left IH]; intros j w Hp Hclock Hlen Hpre.
  - rewrite Nat.add_0_r.
    destruct (ended e pid p (w_clock w) (length (w_trace w))) eqn:He.
    + rewrite (Hdone O w Hp He).
      rewrite ended_alive, Hclock, Hlen in He by done.
      destruct (child_lifetime e (p_child p)) as [d|]; [|done].
      rewrite (timed_wait_found pid j d st (e_instant e pid) first j); [|lia|].
      * eexists _, [_]. split; [reflexivity|]. split; [reflexivity|]. done.
      * apply orb_true_iff in He.
        rewrite andb_true_iff, !bool_decide_eq_true in He.
        destruct (Hpre d eq_refl); lia.
    + destruct (Hlate w Hp He) as (w' & Hrun & Ht & Hf & Hfi & Hc).
      rewrite !ended_alive, Hclock, Hlen in * by done.
      rewrite (timed_wait_deadline pid j (child_lifetime e (p_child p)) st
                 (e_instant e pid) first).
      2:{ destruct (child_lifetime e (p_child p)) as [d|]; [|done].
          apply orb_false_iff in He.
          rewrite andb_false_iff, !bool_decide_eq_false in He.
          destruct (Hpre d eq_refl); lia. }
      assert ((if match child_lifetime e (p_child p) with
                  | Some d =>
                      bool_decide (p_born p + d < p_born p + j)%nat
                      || bool_decide (p_born p + d = p_born p + j)%nat
                         && bool_decide (e_instant e pid <= S (first + 2 * j))%nat
                  | None => false
                  end then st else signaled SIGKILL)
              = match child_lifetime e (p_child p) with
                | Some d =>
                    if bool_decide (d = j)
                       && bool_decide (e_instant e pid <= S (first + 2 * j))%nat
                    then st else signaled SIGKILL
                | None => signaled SIGKILL
                end) as Hsame.
      { destruct (child_lifetime e (p_child p)) as [d|]; [|done].
        apply orb_false_iff in He. rewrite bool_decide_eq_false in He.
        destruct He as [He _].
        rewrite (bool_decide_eq_false_2 (p_born p + d < p_born p + j)%nat) by done.
        simpl. repeat case_bool_decide; simpl; try lia; done. }
      rewrite Hsame in Hrun, Ht. simpl.
      eexists w', _. split; [exact Hrun|]. split; [exact Ht|]. done.
  - destruct (ended e pid p (w_clock w) (length (w_trace w))) eqn:He.
    + rewrite (Hdone (S left) w Hp He).
      rewrite ended_alive, Hclock, Hlen in He by done.
      destruct (child_lifetime e (p_child p)) as [d|]; [|done].
      rewrite (timed_wait_found pid (j + S left) d st (e_instant e pid) first j); [|lia|].
      * eexists _, [_]. split; [reflexivity|]. split; [reflexivity|]. done.
      * apply orb_true_iff in He.
        rewrite andb_true_iff, !bool_decide_eq_true in He.
        destruct (Hpre d eq_refl); lia.
    + cbn [poll_loop]. run.
      rewrite (waitpid_running e pid p) by auto.
      unfold sleep.
      match goal with |- context [poll_loop e left pid status0 ?w1] =>
        destruct (IH (S j) w1) as (w' & evs & Hrun & Ht & Hev & Hf & Hfi & Hc)
      end.
      * exact Hp.
      * simpl. lia.
      * simpl. rewrite length_app, length_app, Hlen. simpl. lia.
      * intros d Hd. rewrite ended_alive, Hclock, Hlen, Hd in He by done.
        apply orb_false_iff in He.
        rewrite andb_false_iff, !bool_decide_eq_false in He.
        destruct (Hpre d Hd); lia.
      * replace (S j + left)%nat with (j + S left)%nat in * by lia.
        rewrite Hrun. simpl in Ht, Hf, Hfi, Hc.
        exists w', ([EvWaitpid pid true WRunning; EvSleep 1] ++ evs).
        split; [reflexivity|].
        split. { rewrite Ht, <- !app_assoc. done. }
        split. { rewrite <- Hev, polls_running_S, <- !app_assoc. done. }
        done.
Qed.

(** A timed profile that prints its summary, up to the two readings that
    follow the wait. *)
Lemma timed_profile_run e name rest T w st :
  (forall k, e_fails e k = false) ->
  0 < T ->
  let c := profiled_child e (name :: rest) false (-1) T in
  let pid := w_next_pid w in
  let tw := timed_wait pid (Z.to_nat T) (child_lifetime e c) st (e_instant e pid)
              (length (w_trace w) + 3) in
  child_status e c = Some st ->
  exists W,
    w_trace W = w_trace w ++ [EvClock; EvFork (Some pid); EvForeground pid] ++ tw.1
                  ++ [EvClock; EvRusage]
    /\ current_child W = pid
    /\ run_and_profile e (name :: rest) false EmptyString T w
       = (let '(summary, n) :=
            snprintf 1024
              (make_summary e name (e_clock e (length (w_trace w)))
                 (e_clock e (length (w_trace w) + 3 + length tw.1))
                 (e_rusage e (length (w_trace w) + 4 + length tw.1)) tw.2) in
          write_buf STDOUT_FILENO summary n;;
          set_current_child 0;; mret tw.2) W.
Proof.
  intros Hno HT c pid tw Hst.
  unfold run_and_profile, clock_gettime, fork, set_current_child. run.
  rewrite (proj2 (Z.ltb_lt 0 T) HT). simpl. rewrite Hno. simpl.
  fold c. fold pid.
  set (p := Proc c (w_clock w) (child_files (w_files w) (c_ops c)) false false).
  match goal with |- context [poll_loop e _ pid 0 ?w1] =>
    destruct (poll_loop_run e pid p st 0 (length (w_trace w) + 3) Hno eq_refl eq_refl Hst
                (Z.to_nat T) O w1)
      as (w2 & evs & Hrun & Ht & Hev & Hf & Hfi & Hc)
  end.
  { simpl. apply lookup_insert_eq. }
  { simpl. lia. }
  { simpl. rewrite !length_app. simpl. lia. }
  { intros d _. left. lia. }
  simpl in Hrun, Ht, Hev, Hc. fold tw in Hrun, Hev.
  rewrite Hrun. unfold getrusage. simpl.
  assert (length (w_trace w2) = (length (w_trace w) + 3 + length tw.1)%nat) as Hlen.
  { rewrite Ht, Hev, !length_app. simpl. lia. }
  rewrite length_app, Hlen. simpl.
  replace (length (w_trace w) + 3 + length tw.1 + 1)%nat
    with (length (w_trace w) + 4 + length tw.1)%nat by lia.
  eexists. split; [|split; [|reflexivity]].
  - simpl. rewrite Ht, Hev, <- !app_assoc. reflexivity.
  - simpl. exact Hc.
Qed.

Lemma found_ended_no_kill pid j status :
  existsb is_kill (found_ended pid j status) = false.
Proof.
  unfold found_ended. rewrite existsb_app. simpl. rewrite orb_false_r.
  induction j as [|j IH]; [done|]. rewrite polls_running_S, existsb_app, IH. done.
Qed.




(** A command that cannot be executed, under a deadline of one second:
    the child can still be running when the first poll is made, and the
    second poll then finds it ended with code 127. *)
Example exec_failure_found_by_second_poll :
  let run := run_and_profile (tardy 4 nowhere) ["nosuch"] false EmptyString 1 (boot ∅) in
  run.1 = Ret (exited 127)
  /\ take 6 (w_trace run.2)
     = [EvClock; EvFork (Some 1000); EvForeground 1000;
        EvWaitpid 1000 true WRunning; EvSleep 1;
        EvWaitpid 1000 true (WDone (exited 127))].
Proof. split; vm_compute; reflexivity. Qed.

(** A profile without deadline, up to the two readings that follow the
    wait, on a child that ends. *)
Lemma blocking_profile_run e name rest secs w d st :
  (forall k, e_fails e k = false) ->
  secs <= 0 ->
  let c := profiled_child e (name :: rest) false (-1) secs in
  let pid := w_next_pid w in
  child_lifetime e c = Some d ->
  child_status e c = Some st ->
  exists W,
    w_trace W = w_trace w ++ [EvClock; EvFork (Some pid); EvForeground pid;
                              EvWaitpid pid false (WDone st); EvClock; EvRusage]
    /\ w_clock W = (w_clock w + d)%nat
    /\ run_and_profile e (name :: rest) false EmptyString secs w
       = (let '(summary, n) :=
            snprintf 1024
              (make_summary e name (e_clock e (length (w_trace w)))
                 (e_clock e (length (w_trace w) + 4))
                 (e_rusage e (length (w_trace w) + 5)) st) in
          write_buf STDOUT_FILENO summary n;;
          set_current_child 0;; mret st) W.
Proof.
  intros Hno Hsecs c pid Hlife Hst.
  unfold run_and_profile, clock_gettime, fork, set_current_child, getrusage. run.
  rewrite (proj2 (Z.ltb_ge 0 secs) Hsecs). simpl. rewrite !Hno. simpl.
  fold c. fold pid.
  set (p := Proc c (w_clock w) (child_files (w_files w) (c_ops c)) false false).
  match goal with |- context [waitpid e pid false ?x] =>
    rewrite (waitpid_blocks_until_end e pid p d st x);
      [|apply Hno|simpl; apply lookup_insert_eq|done|done|done|done|done]
  end.
  simpl. rewrite !length_app. simpl.
  replace (length (w_trace w) + 1 + 1 + 1 + 1 + 1)%nat with (length (w_trace w) + 5)%nat by lia.
  replace (length (w_trace w) + 1 + 1 + 1 + 1)%nat with (length (w_trace w) + 4)%nat by lia.
  eexists. split; [|split; [|reflexivity]].
  - simpl. rewrite <- !app_assoc. reflexivity.
  - reflexivity.
Qed.

(** A profile without deadline on a child that never ends. *)
Lemma blocking_profile_hangs e name rest secs w :
  (forall k, e_fails e k = false) ->
  secs <= 0 ->
  let c := profiled_child e (name :: rest) false (-1) secs in
  let pid := w_next_pid w in
  child_lifetime e c = None ->
  exists W,
    run_and_profile e (name :: rest) false EmptyString secs w = (Hang, W)
    /\ w_trace W = w_trace w ++ [EvClock; EvFork (Some pid); EvForeground pid]
    /\ w_clock W = w_clock w
    /\ current_child W = pid.
Proof.
  intros Hno Hsecs c pid Hlife.
  unfold run_and_profile, clock_gettime, fork, set_current_child, getrusage. run.
  rewrite (proj2 (Z.ltb_ge 0 secs) Hsecs). simpl. rewrite !Hno. simpl.
  fold c. fold pid.
  set (p := Proc c (w_clock w) (child_files (w_files w) (c_ops c)) false false).
  match goal with |- context [waitpid e pid false ?x] =>
    rewrite (waitpid_hangs e pid p x);
      [|apply Hno|simpl; apply lookup_insert_eq|done|done|done]
  end.
  eexists. split; [reflexivity|]. simpl. rewrite <- !app_assoc. done.
Qed.

(** C10.  For [miprof maxtiempo <segs> <cmd>] with [atoi (segs) <= 0], which
    is the case of every string that holds no number, the command is
    profiled with the plain blocking wait.  Whatever fails, no message is
    printed on the error stream, and no poll, no sleep and no signal is
    made; the child arms no alarm.  When no call fails, the child is forked
    and the parent blocks in one wait for it: if the child ends after [d]
    seconds the wait returns its status after these [d] seconds, however
    many they are, and the summary is printed if it fits its array; if the
    child never ends the wait never returns. *)
Theorem maxtiempo_without_deadline e cmdline segs name rest w :
  let run := handle_single_command e cmdline w in
  let c := profiled_child e (name :: rest) false (-1) (atoi segs) in
  let pid := w_next_pid w in
  parse_args cmdline = "miprof" :: "maxtiempo" :: segs :: name :: rest ->
  atoi segs <= 0 ->
  (exists evs,
     w_trace run.2 = w_trace w ++ evs
     /\ Forall (fun ev => timeout_free ev = true) evs)
  /\ Forall (fun op => match op with CAlarm _ => False | _ => True end) (c_ops c)
  /\ (no_number segs = true -> atoi segs = 0)
  /\ ((forall k, e_fails e k = false) ->
      exists st,
        child_status e c = Some st
        /\ match child_lifetime e c with
           | Some d =>
               let summary :=
                 make_summary e name (e_clock e (length (w_trace w)))
                   (e_clock e (length (w_trace w) + 4))
                   (e_rusage e (length (w_trace w) + 5)) st in
               w_clock run.2 = (w_clock w + d)%nat
               /\ exists post,
                    w_trace run.2
                    = w_trace w ++ [EvClock; EvFork (Some pid); EvForeground pid;
                                    EvWaitpid pid false (WDone st); EvClock; EvRusage]
                        ++ post
                    /\ (run.1 = Ret 0 \/ run.1 = Undef)
                    /\ ((String.length summary < 1024)%nat ->
                        run.1 = Ret 0
                        /\ post = [EvWrite STDOUT_FILENO summary; EvForeground 0])
                    /\ ((1024 < String.length summary)%nat ->
                        run.1 = Undef /\ post = [])
           | None =>
               run.1 = Hang
               /\ w_trace run.2 = w_trace w ++ [EvClock; EvFork (Some pid); EvForeground pid]
               /\ current_child run.2 = pid
           end).
Proof.
  intros run c pid Hargs Hsecs.
  assert (run = (run_and_profile e (name :: rest) false EmptyString (atoi segs);;
                 mret tt;; mret 0) w) as Hrun.
  { subst run. unfold handle_single_command, miprof. rewrite Hargs. simpl. run.
    destruct (run_and_profile e (name :: rest) false "" (atoi segs) w) as [[]]; done. }
  split; [|split; [|split]].
  - rewrite Hrun. run.
    destruct (blocking_profile_trace e (name :: rest) (atoi segs) w Hsecs) as (evs & Ht & Hall).
    exists evs. split; [|done]. rewrite <- Ht.
    by destruct (run_and_profile e (name :: rest) false "" (atoi segs) w) as [[]].
  - subst c. unfold profiled_child. rewrite (proj2 (Z.ltb_ge 0 (atoi segs)) Hsecs).
    destruct (e_execvp e (name :: rest)); simpl; by repeat constructor.
  - apply atoi_no_number.
  - intros Hno.
    destruct (profiled_child_status e name rest false (-1) (atoi segs)) as [st Hst].
    fold c in Hst. exists st. split; [done|].
    destruct (child_lifetime e c) as [d|] eqn:Hlife.
    + destruct (blocking_profile_run e name rest (atoi segs) w d st Hno Hsecs Hlife Hst)
        as (W & Ht & Hc & Hprof).
      destruct (print_summary_outcome
                  (make_summary e name (e_clock e (length (w_trace w)))
                     (e_clock e (length (w_trace w) + 4))
                     (e_rusage e (length (w_trace w) + 5)) st) st W)
        as (post & Htp & Hcp & _ & _ & Hret & Hfit & Hlong).
      rewrite Hrun. run. rewrite Hprof.
      match type of Htp with w_trace (?m W).2 = _ => destruct (m W) as [r W'] eqn:Hm end.
      simpl in *.
      assert (w_trace W'
              = w_trace w ++ [EvClock; EvFork (Some pid); EvForeground pid;
                              EvWaitpid pid false (WDone st); EvClock; EvRusage] ++ post)
        as Htr by (by rewrite Htp, Ht, <- app_assoc).
      destruct Hret as [-> | ->]; simpl.
      * split; [congruence|]. exists post. split; [done|]. split; [by left|]. split.
        -- intros Hlen. by destruct (Hfit Hlen) as (_ & ? & _).
        -- intros Hlen. by destruct (Hlong Hlen) as (? & _).
      * split; [congruence|]. exists post. split; [done|]. split; [by right|]. split.
        -- intros Hlen. by destruct (Hfit Hlen) as (? & _).
        -- intros Hlen. by destruct (Hlong Hlen) as (_ & ?).
    + destruct (blocking_profile_hangs e name rest (atoi segs) w Hno Hsecs Hlife)
        as (W & Hprof & Ht & _ & Hc).
      rewrite Hrun. run. rewrite Hprof. done.
Qed.

Lemma maxtiempo_without_deadline_witness :
  let run := handle_single_command (calm sleeps) "miprof maxtiempo abc sleep 5" (boot ∅) in
  atoi "abc" = 0
  /\ run.1 = Ret 0
  /\ w_clock run.2 = 5%nat
  /\ exists summary,
       w_trace run.2
       = [EvClock; EvFork (Some 1000); EvForeground 1000;
          EvWaitpid 1000 false (WDone (exited 0)); EvClock; EvRusage;
          EvWrite STDOUT_FILENO summary; EvForeground 0].
Proof.
  intros run.
  destruct (maxtiempo_without_deadline (calm sleeps) "miprof maxtiempo abc sleep 5"
              "abc" "sleep" ["5"] (boot ∅) eq_refl)
    as (_ & _ & Hatoi & Hrun).
  - vm_compute. discriminate.
  - split; [by apply Hatoi|].
    destruct (Hrun (fun _ => eq_refl)) as (st & Hst & Hwait).
    injection Hst as <-.
    change (child_lifetime (calm sleeps)
              (profiled_child (calm sleeps) ["sleep"; "5"] false (-1) (atoi "abc")))
      with (Some 5%nat) in Hwait.
    destruct Hwait as (Hclock & post & Ht & _ & Hfit & _).
    destruct Hfit as [Hret ->]; [vm_compute; lia|].
    split; [exact Hret|]. split; [exact Hclock|]. eexists. exact Ht.
Defined.

End ProfileWaits.
